(** * EvalE6: the Excel gate, the cell-fill engine and the score calculator

    A shallow embedding of the parts of the EvalE6 server ([backend/server.js])
    that fill the evaluation workbook and read the computed score back:

    - the lock table [excelLocks], the counter [activeExcelOperations] and the
      two functions [acquireExcelLock] / [releaseExcelLock];
    - the two routes that hold the lock, [POST /api/eleves/:id/remplir-excel]
      and [POST /api/eleves/:id/generer-excel-complet], as tasks of a
      cooperative scheduler that is suspended only at an [await];
    - the clear pass, the mark pass and the auxiliary fields of the fill;
    - the fallback computation of [GET /api/eleves/:id/note-calculee/:semestre];
    - the access middleware, the validators, the routes of the student store
      [eleves.json], the mapping route and the evaluation lock;
    - steps 3 and 4 of [generer-excel-complet], and the auxiliary inputs of the
      evaluation form of the front end.

    JavaScript numbers are IEEE 754 binary64 values: they are the primitive
    floats of the kernel.  Objects used as dictionaries are finite maps, and
    objects whose key order is observable are association lists. *)

From Stdlib Require Import ZArith Floats Uint63 Bool Ascii String.
From stdpp Require Import gmap strings list pretty.

Local Open Scope string_scope.
Local Open Scope Z_scope.

(* Decimal literals stand for the nearest binary64 number, as in JavaScript. *)
#[local] Set Warnings "-inexact-float".

(** ** JavaScript values *)

Module Js.

(** The values a cell or a JSON field holds in this program. *)
Inductive value :=
  | Undefined
  | Null
  | Num (x : float)
  | Str (s : string).

Definition zero : float := 0%float.

(** [x > y] and [x === y] on numbers, both read off the one IEEE comparison. *)
Definition gt (x y : float) : bool :=
  match PrimFloat.compare x y with FGt => true | _ => false end.

Definition num_eq (x y : float) : bool :=
  match PrimFloat.compare x y with FEq => true | _ => false end.

(** ToBoolean on a number: false for [+0], [-0] and [NaN]. *)
Definition truthy_num (x : float) : bool :=
  match PrimFloat.compare x zero with
  | FEq | FNotComparable => false
  | _ => true
  end.

(** ToBoolean. *)
Definition truthy (v : value) : bool :=
  match v with
  | Undefined | Null => false
  | Num x => truthy_num x
  | Str s => negb (String.eqb s "")
  end.

(** [v || 0]. *)
Definition or_zero (v : value) : value :=
  if truthy v then v else Num zero.

(** [x || 0] on a number. *)
Definition num_or_zero (x : float) : float :=
  if truthy_num x then x else zero.

(** A number that is not negative: a zero, a positive number or [+∞]. *)
Definition sf_nonneg (x : spec_float) : bool :=
  match x with
  | S754_zero _ | S754_infinity false | S754_finite false _ _ => true
  | _ => false
  end.

Definition nonneg (x : float) : bool := sf_nonneg (Prim2SF x).

(** The built-in conversions the server calls.  They are parameters of the
    model: nothing proved below depends on how a string is parsed. *)
Class Builtins := {
  (** [parseInt(v)]; [None] is [NaN], otherwise the result is an integer. *)
  parseInt : value -> option Z;
  (** [parseFloat(v)]. *)
  parseFloat : value -> float;
  (** ToNumber on a string. *)
  string_to_number : string -> float;
  (** ToString on a number. *)
  number_to_string : float -> string
}.

Section Coercions.
Context `{Builtins}.

Definition to_number (v : value) : float :=
  match v with
  | Undefined => PrimFloat.nan
  | Null => zero
  | Num x => x
  | Str s => string_to_number s
  end.

Definition to_string (v : value) : string :=
  match v with
  | Undefined => "undefined"
  | Null => "null"
  | Num x => number_to_string x
  | Str s => s
  end.

(** The binary [+]: numeric on two non-strings, concatenation as soon as one
    operand is a string. *)
Definition add (a b : value) : value :=
  match a, b with
  | Str _, _ | _, Str _ => Str (to_string a +:+ to_string b)
  | _, _ => Num (to_number a + to_number b)%float
  end.

(** [x * v] for a number [x]. *)
Definition mul_num (x : float) (v : value) : float := (x * to_number v)%float.

(** [v > 0]. *)
Definition gt_zero (v : value) : bool := gt (to_number v) zero.
End Coercions.

(** [Math.round]: the nearest integer, ties towards [+∞]; zeros, infinities,
    [NaN] and integers are returned unchanged, and a result of magnitude zero
    keeps the sign of the argument. *)
Definition of_Z (n : Z) : float :=
  let m := PrimFloat.of_uint63 (Uint63.of_Z (Z.abs n)) in
  if n <? 0 then (- m)%float else m.

Definition round (x : float) : float :=
  match Prim2SF x with
  | S754_finite s m e =>
      if 0 <=? e then x
      else
        let sm := if s then Z.neg m else Z.pos m in
        let n := (2 * sm + 2 ^ (- e)) / 2 ^ (1 - e) in
        if n =? 0 then (if s then (- zero)%float else zero) else of_Z n
  | _ => x
  end.

End Js.

Export Js.

(** ** The workbook, as xlsx-populate presents it *)

Module Xlsx.

(** A cell reference: column letters and row number. *)
Definition cell_ref : Type := string * N.

Definition is_upper (a : ascii) : bool :=
  let n := N_of_ascii a in (65 <=? n)%N && (n <=? 90)%N.

Definition is_digit (a : ascii) : bool :=
  let n := N_of_ascii a in (48 <=? n)%N && (n <=? 57)%N.

Fixpoint span_upper (s : string) : string * string :=
  match s with
  | String a s' =>
      if is_upper a then let '(l, r) := span_upper s' in (String a l, r)
      else ("", s)
  | EmptyString => ("", "")
  end.

Fixpoint digits_value (s : string) (acc : N) : option N :=
  match s with
  | EmptyString => Some acc
  | String a s' =>
      if is_digit a then digits_value s' (10 * acc + (N_of_ascii a - 48))%N
      else None
  end.

(** The address a string denotes, [None] when [sheet.cell] throws on it.
    Addresses are the plain form, capital column letters then a row number
    from 1; the absolute and sheet-qualified forms are not used by the
    server. *)
Definition parse_address (addr : string) : option cell_ref :=
  let '(col, rest) := span_upper addr in
  match col, rest with
  | EmptyString, _ | _, EmptyString => None
  | _, _ =>
      match digits_value rest 0 with
      | Some row => if (0 <? row)%N then Some (col, row) else None
      | None => None
      end
  end.

(** A sheet maps the cells that hold something to their value; an empty cell
    reads as [undefined]. *)
Abbreviation sheet := (gmap cell_ref Js.value).
Abbreviation workbook := (gmap string sheet).

Definition read (sh : sheet) (r : cell_ref) : Js.value :=
  default Undefined (sh !! r).

(** [sheet.cell(addr).value()]; [None] when [sheet.cell] throws. *)
Definition cell_value (sh : sheet) (addr : string) : option Js.value :=
  r ← parse_address addr; Some (read sh r).

(** [sheet.cell(addr).value(v)]; [None] when [sheet.cell] throws. *)
Definition set_cell (sh : sheet) (addr : string) (v : Js.value) : option sheet :=
  r ← parse_address addr; Some (<[r := v]> sh).

(** [try { sheet.cell(addr).value(v) } catch (err) { ... }]. *)
Definition try_set_cell (sh : sheet) (addr : string) (v : Js.value) : sheet :=
  default sh (set_cell sh addr v).

(** [workbook.sheet(name)], where [name] may itself be [undefined]. *)
Definition sheet_of (wb : workbook) (name : option string) : option sheet :=
  n ← name; wb !! n.

End Xlsx.

Export Xlsx.

(** ** The mapping configuration ([config/mapping.json]) *)

Module Mapping.

Record Critere := { id : string; ligne : Z }.

Record Competence := { criteres : list Critere }.

Record Niveau := { colonne : string }.

Record Niveaux := {
  niveau_1 : Niveau;
  niveau_2 : Niveau;
  niveau_3 : Niveau;
  niveau_4 : Niveau
}.

Record Champ := { cellule : string }.

Record ChampsSupp := {
  bonus : option Champ;
  note_finale : option Champ;
  note_calculee : option Champ
}.

(** [competences] keeps the key order of the JSON object, which is the order
    [Object.keys] walks; an absent optional object is the empty map. *)
Record t := {
  sheetNames : gmap string string;
  evaluations : gmap string (list (string * Competence));
  niveaux : Niveaux;
  commentaire_global : gmap string string;
  champs_supplementaires : gmap string ChampsSupp
}.

End Mapping.

(** ** The evaluation record of one phase ([eleve.evaluations[semestre]]) *)

Module EvalData.

(** [niveaux !! id] is [evalData[id].niveau] when [evalData[id]] is an object,
    and [None] when [evalData[id]] is missing. *)
Record t := {
  niveaux : gmap string Js.value;
  commentaireGeneral : Js.value;
  bonus : Js.value;
  note_finale : Js.value
}.

End EvalData.

(** ** The cell-fill engine

    The statements between the structural checks and the save of
    [remplir-excel], which [generer-excel-complet] repeats for every phase. *)

Module Fill.

Import Mapping.

Definition colonnes : list string := ["C"; "D"; "E"; "F"].

(** [value === 'x' || value === 'X']. *)
Definition is_mark (v : Js.value) : bool :=
  match v with
  | Str s => String.eqb s "x" || String.eqb s "X"
  | _ => false
  end.

(** The template string [`${col}${critere.ligne}`]. *)
Definition address (col : string) (c : Critere) : string :=
  col +:+ pretty (ligne c).

(** The body of the innermost loop of the clear pass, with its [try]. *)
Definition clear_cell (sh : sheet) (addr : string) : sheet :=
  match parse_address addr with
  | Some r => if is_mark (read sh r) then <[r := Null]> sh else sh
  | None => sh
  end.

Definition clear_critere (sh : sheet) (c : Critere) : sheet :=
  foldl (fun sh col => clear_cell sh (address col c)) sh colonnes.

Definition clear_pass (comps : list (string * Competence)) (sh : sheet) : sheet :=
  foldl (fun sh kc => foldl clear_critere sh (criteres kc.2)) sh comps.

(** The [switch (niveau)]: [None] is the [default: continue]. *)
Definition colonne_niveau (m : Mapping.t) (niveau : option Z) : option string :=
  match niveau with
  | Some 0 | Some 1 => Some (colonne (niveau_1 (niveaux m)))
  | Some 2 => Some (colonne (niveau_2 (niveaux m)))
  | Some 3 => Some (colonne (niveau_3 (niveaux m)))
  | Some 4 => Some (colonne (niveau_4 (niveaux m)))
  | _ => None
  end.

Section Engine.
Context `{Builtins}.
Variable m : Mapping.t.

(** The cell the mark pass writes for a criterion, if it writes one. *)
Definition mark_target (d : EvalData.t) (c : Critere) : option string :=
  match EvalData.niveaux d !! id c with
  | None | Some Null | Some Undefined => None
  | Some niv =>
      match colonne_niveau m (parseInt niv) with
      | Some col => Some (address col c)
      | None => None
      end
  end.

Definition mark_critere (d : EvalData.t) (sh : sheet) (c : Critere) : sheet :=
  match mark_target d c with
  | Some addr => try_set_cell sh addr (Str "x")
  | None => sh
  end.

Definition mark_pass (comps : list (string * Competence)) (d : EvalData.t)
    (sh : sheet) : sheet :=
  foldl (fun sh kc => foldl (mark_critere d) sh (criteres kc.2)) sh comps.

(** The general comment. *)
Definition write_comment (semestre : string) (d : EvalData.t) (sh : sheet) : sheet :=
  match commentaire_global m !! semestre with
  | Some addr =>
      if negb (String.eqb addr "") && truthy (EvalData.commentaireGeneral d)
      then try_set_cell sh addr (EvalData.commentaireGeneral d)
      else sh
  | None => sh
  end.

(** [champs_supplementaires]: the bonus, then the final score. *)
Definition write_bonus (cs : ChampsSupp) (d : EvalData.t) (sh : sheet) : sheet :=
  match bonus cs, EvalData.bonus d with
  | None, _ | _, Undefined => sh
  | Some ch, b => try_set_cell sh (cellule ch) (Num (num_or_zero (parseFloat b)))
  end.

Definition write_note_finale (cs : ChampsSupp) (d : EvalData.t) (sh : sheet) : sheet :=
  match note_finale cs, EvalData.note_finale d with
  | None, _ | _, Undefined | _, Null => sh
  | Some ch, n => try_set_cell sh (cellule ch) (Num (parseFloat n))
  end.

Definition write_champs (semestre : string) (d : EvalData.t) (sh : sheet) : sheet :=
  match champs_supplementaires m !! semestre with
  | Some cs => write_note_finale cs d (write_bonus cs d sh)
  | None => sh
  end.

(** One fill of one sheet. *)
Definition fill_sheet (semestre : string) (comps : list (string * Competence))
    (d : EvalData.t) (sh : sheet) : sheet :=
  write_champs semestre d
    (write_comment semestre d (mark_pass comps d (clear_pass comps sh))).

(** What [remplir-excel] does to the loaded workbook. *)
Inductive outcome :=
  | SheetNotFound
  | MappingNotFound
  | Filled (wb : workbook).

Definition remplir (semestre : string) (d : EvalData.t) (wb : workbook) : outcome :=
  match sheetNames m !! semestre with
  | None => SheetNotFound
  | Some name =>
      match wb !! name with
      | None => SheetNotFound
      | Some sh =>
          match evaluations m !! semestre with
          | None => MappingNotFound
          | Some comps => Filled (<[name := fill_sheet semestre comps d sh]> wb)
          end
      end
  end.

(** The workbook [remplir-excel] leaves in memory: the loaded one when it
    answers 400 before touching a cell. *)
Definition fill_engine (semestre : string) (d : EvalData.t) (wb : workbook) : workbook :=
  match remplir semestre d wb with
  | Filled wb' => wb'
  | _ => wb
  end.

(** Step 3 of [generer-excel-complet]: every phase that has a record, a
    mapping and a sheet. *)
Definition semestres : list string :=
  ["stage"; "revue1"; "revue2"; "revue3"; "soutenance"].

Definition generer_etape3 (evals : gmap string EvalData.t) (wb : workbook) : workbook :=
  foldl (fun wb semestre =>
           match evals !! semestre with
           | None => wb
           | Some d => fill_engine semestre d wb
           end) wb semestres.
End Engine.

(** *** The fill read as a list of cells

    The clear pass scans a list of cells and the later passes assign a list of
    cells; these lists are what the proofs reason on. *)

Definition clear_ref (sh : sheet) (r : cell_ref) : sheet :=
  if is_mark (read sh r) then <[r := Null]> sh else sh.

Definition write_ref (sh : sheet) (w : cell_ref * Js.value) : sheet :=
  <[w.1 := w.2]> sh.

(** The value the last assignment to [r] gives it, if [r] is assigned. *)
Fixpoint written (ws : list (cell_ref * Js.value)) (r : cell_ref) : option Js.value :=
  match ws with
  | [] => None
  | w :: ws' =>
      match written ws' r with
      | Some v => Some v
      | None => if decide (w.1 = r) then Some w.2 else None
      end
  end.

(** The criteria of a phase, in the order the two loops visit them. *)
Definition all_criteres (comps : list (string * Competence)) : list Critere :=
  kc ← comps; criteres kc.2.

Definition clear_addresses (comps : list (string * Competence)) : list string :=
  c ← all_criteres comps; (fun col => address col c) <$> colonnes.

Definition clear_refs (comps : list (string * Competence)) : list cell_ref :=
  omap parse_address (clear_addresses comps).

Definition cell_write (a : string) (v : Js.value) : list (cell_ref * Js.value) :=
  option_list ((fun r => (r, v)) <$> parse_address a).

Definition mark_writes `{Builtins} (m : Mapping.t) (d : EvalData.t)
    (cs : list Critere) : list (cell_ref * Js.value) :=
  omap (fun c => a ← mark_target m d c; r ← parse_address a; Some (r, Str "x")) cs.

(** A pass that only assigns cells, whatever the sheet holds. *)
Definition writes_only (F : sheet -> sheet) : Prop :=
  exists ws, forall sh, F sh = foldl write_ref sh ws.

End Fill.

(** ** The Excel gate: [excelLocks] and [activeExcelOperations] *)

Module Gate.

Record LockEntry := { locked : bool; timestamp : Z }.

Record t := {
  excelLocks : gmap string LockEntry;
  activeExcelOperations : Z
}.

Definition init : t := {| excelLocks := ∅; activeExcelOperations := 0 |}.

Definition MAX_CONCURRENT_EXCEL_OPERATIONS : Z := 4.
Definition LOCK_TIMEOUT : Z := 30000.

(** Where a call of [acquireExcelLock] is suspended: in the first loop, on
    [setTimeout(resolve, 200)], or in the second, on [setTimeout(resolve, 100)].
    Each remembers the time its loop started. *)
Inductive wait :=
  | WaitGlobal (startTime : Z)
  | WaitFile (fileStartTime : Z).

Inductive timeout :=
  | TooManyOperations
  | FileBusy.

(** What one run of [acquireExcelLock] between two suspensions ends with. *)
Inductive result :=
  | Sleeping (w : wait) (delay : Z)
  | Timeout (e : timeout)
  | Acquired.

(** The second loop and the two statements after it, entered at time [now]. *)
Definition wait_file (now fileStartTime : Z) (filename : string) (g : t) : t * result :=
  match excelLocks g !! filename with
  | Some _ =>
      if LOCK_TIMEOUT <? now - fileStartTime then (g, Timeout FileBusy)
      else (g, Sleeping (WaitFile fileStartTime) 100)
  | None =>
      ({| excelLocks := <[filename := {| locked := true; timestamp := now |}]> (excelLocks g);
          activeExcelOperations := activeExcelOperations g + 1 |},
       Acquired)
  end.

(** The first loop, entered at time [now]; when its condition is false the
    second loop starts at once, with [fileStartTime = Date.now()]. *)
Definition wait_global (now startTime : Z) (filename : string) (g : t) : t * result :=
  if MAX_CONCURRENT_EXCEL_OPERATIONS <=? activeExcelOperations g then
    if LOCK_TIMEOUT <? now - startTime then (g, Timeout TooManyOperations)
    else (g, Sleeping (WaitGlobal startTime) 200)
  else wait_file now now filename g.

(** [acquireExcelLock(filename)], from the call to its first suspension. *)
Definition acquireExcelLock (now : Z) (filename : string) (g : t) : t * result :=
  wait_global now now filename g.

(** [acquireExcelLock], from the end of a sleep to the next suspension. *)
Definition resume (now : Z) (w : wait) (filename : string) (g : t) : t * result :=
  match w with
  | WaitGlobal startTime => wait_global now startTime filename g
  | WaitFile fileStartTime => wait_file now fileStartTime filename g
  end.

Definition releaseExcelLock (filename : string) (g : t) : t :=
  let n := activeExcelOperations g - 1 in
  {| excelLocks := delete filename (excelLocks g);
     activeExcelOperations := if n <? 0 then 0 else n |}.

(** A caller that uses the gate without ever waiting: one call per element. *)
Inductive call :=
  | Acquire (now : Z) (filename : string)
  | Release (filename : string).

Definition apply_call (g : t) (c : call) : t :=
  match c with
  | Acquire now filename => (acquireExcelLock now filename g).1
  | Release filename => releaseExcelLock filename g
  end.

Definition apply_calls (g : t) (cs : list call) : t := foldl apply_call g cs.

End Gate.

(** ** The two routes that take the lock, under cooperative scheduling *)

Module Server.

Import Gate.

(** [semestre] and the record are those of the request; [jury] says whether
    [eleve.jury && mapping.jury_members?.recap] holds. *)
Inductive route :=
  | RemplirExcel (semestre : string) (d : EvalData.t)
  | GenererExcelComplet (jury : bool).

(** The [await] a handler is suspended at, from its call of
    [acquireExcelLock] on. *)
Inductive pc :=
  | Waiting (w : wait) (wake : Z)
  | Loading
  | LoadingJury
  | Saving
  | Done (status : Z).

Record task := {
  task_route : route;
  outputFileName : string;
  task_pc : pc
}.

Record state := {
  gate : Gate.t;
  clock : Z;
  tasks : list task
}.

Definition init : state := {| gate := Gate.init; clock := 0; tasks := [] |}.

(** How a pending input or output settles. *)
Inductive io :=
  | Failed
  | Loaded (wb : workbook)
  | Completed.

Inductive event :=
  | Tick (d : Z)
  | Request (r : route) (nom prenom : string)
  | Timer (i : nat)
  | Settle (i : nat) (r : io).

(** [`${eleve.nom}_${eleve.prenom}_Evaluation.xlsx`]. *)
Definition output_file_name (nom prenom : string) : string :=
  nom +:+ "_" +:+ prenom +:+ "_Evaluation.xlsx".

Definition recap_sheet : string := "FICHE RECAPITULATIVE E6 -  IR".

(** The [catch] of both handlers: [if (outputFileName) releaseExcelLock(...)],
    then the 500 answer. *)
Definition catch (filename : string) (g : Gate.t) : Gate.t * pc :=
  (if negb (String.eqb filename "") then releaseExcelLock filename g else g, Done 500).

(** A task has passed [acquireExcelLock] and has neither released nor answered. *)
Definition in_flight (t : task) : bool :=
  match task_pc t with
  | Loading | LoadingJury | Saving => true
  | _ => false
  end.

(** No two tasks in flight have the same output file. *)
Definition exclusive (s : state) : Prop :=
  forall i j ti tj,
    tasks s !! i = Some ti -> tasks s !! j = Some tj -> i <> j ->
    in_flight ti = true -> in_flight tj = true ->
    outputFileName ti <> outputFileName tj.

(** The number of tasks in flight. *)
Definition in_flight_count (s : state) : nat :=
  length (List.filter in_flight (tasks s)).

(** Every task in flight has the entry of its file in the table. *)
Definition holds_lock (s : state) : Prop :=
  forall i t, tasks s !! i = Some t -> in_flight t = true ->
    is_Some (excelLocks (gate s) !! outputFileName t).

(** What a run without timeout keeps. *)
Definition inv (s : state) : Prop := holds_lock s /\ exclusive s.

Definition is_timeout (r : Gate.result) : bool :=
  match r with
  | Timeout _ => true
  | _ => false
  end.

(** The event makes a call of [acquireExcelLock] throw its timeout. *)
Definition times_out (s : state) (e : event) : bool :=
  match e with
  | Request r nom prenom =>
      is_timeout (acquireExcelLock (clock s) (output_file_name nom prenom) (gate s)).2
  | Timer i =>
      match tasks s !! i with
      | Some t =>
          match task_pc t with
          | Waiting w wake => is_timeout (resume (clock s) w (outputFileName t) (gate s)).2
          | _ => false
          end
      | None => false
      end
  | _ => false
  end.

Section Scheduler.
Context `{Builtins}.
Variable m : Mapping.t.

(** The handler after a run of [acquireExcelLock]. *)
Definition after_acquire (now : Z) (filename : string) (gr : Gate.t * result) : Gate.t * pc :=
  match gr.2 with
  | Acquired => (gr.1, Loading)
  | Sleeping w delay => (gr.1, Waiting w (now + delay))
  | Timeout _ => catch filename gr.1
  end.

(** The handler from the settled load to its next suspension or answer. *)
Definition after_load (r : route) (filename : string) (wb : workbook) (g : Gate.t) : Gate.t * pc :=
  match r with
  | RemplirExcel semestre d =>
      match Fill.remplir m semestre d wb with
      | Fill.SheetNotFound | Fill.MappingNotFound => (g, Done 400)
      | Fill.Filled _ => (g, Saving)
      end
  | GenererExcelComplet jury =>
      if jury && bool_decide (is_Some (wb !! recap_sheet)) then (g, LoadingJury)
      else (g, Saving)
  end.

(** A suspended task runs to its next suspension; [None] when the event does
    not fit where the task is. *)
Definition settle (t : task) (r : io) (g : Gate.t) : option (Gate.t * pc) :=
  match task_pc t, r with
  | Loading, Loaded wb => Some (after_load (task_route t) (outputFileName t) wb g)
  | Loading, Failed => Some (catch (outputFileName t) g)
  | LoadingJury, (Failed | Completed) => Some (g, Saving)
  | Saving, Completed => Some (releaseExcelLock (outputFileName t) g, Done 200)
  | Saving, Failed => Some (catch (outputFileName t) g)
  | _, _ => None
  end.

Definition timer (now : Z) (t : task) (g : Gate.t) : option (Gate.t * pc) :=
  match task_pc t with
  | Waiting w wake =>
      if wake <=? now
      then Some (after_acquire now (outputFileName t) (resume now w (outputFileName t) g))
      else None
  | _ => None
  end.

Definition set_pc (t : task) (p : pc) : task :=
  {| task_route := task_route t; outputFileName := outputFileName t; task_pc := p |}.

Definition update (s : state) (i : nat) (t : task) (gp : Gate.t * pc) : state :=
  {| gate := gp.1; clock := clock s; tasks := <[i := set_pc t gp.2]> (tasks s) |}.

Definition step (s : state) (e : event) : option state :=
  match e with
  | Tick d =>
      if 0 <=? d
      then Some {| gate := gate s; clock := clock s + d; tasks := tasks s |}
      else None
  | Request r nom prenom =>
      let f := output_file_name nom prenom in
      let gp := after_acquire (clock s) f (acquireExcelLock (clock s) f (gate s)) in
      Some {| gate := gp.1; clock := clock s;
              tasks := tasks s ++ [{| task_route := r; outputFileName := f; task_pc := gp.2 |}] |}
  | Timer i =>
      t ← tasks s !! i; gp ← timer (clock s) t (gate s); Some (update s i t gp)
  | Settle i r =>
      t ← tasks s !! i; gp ← settle t r (gate s); Some (update s i t gp)
  end.

Fixpoint run (s : state) (es : list event) : option state :=
  match es with
  | [] => Some s
  | e :: es' => s' ← step s e; run s' es'
  end.

Definition reachable (s : state) : Prop := exists es, run init es = Some s.

(** No event of the run makes [acquireExcelLock] time out. *)
Fixpoint quiet (s : state) (es : list event) : bool :=
  match es with
  | [] => true
  | e :: es' =>
      negb (times_out s e)
      && match step s e with
         | Some s' => quiet s' es'
         | None => true
         end
  end.
End Scheduler.

End Server.

(** ** The computed score: [GET /api/eleves/:id/note-calculee/:semestre] *)

Module Calc.

(** [lignesConfig]: the rows of each competency and the cells of the four
    competency weights; [None] is the [null] of the table. *)
Record LignesConfig := {
  c01 : list Z;
  c03 : list Z;
  c08 : option (list Z);
  c10 : option (list Z);
  poids_c01 : string;
  poids_c03 : string;
  poids_c08 : option string;
  poids_c10 : option string
}.

(** The [if / else if] chain on [semestre]; [None] when no branch is taken and
    [lignesConfig] stays [undefined]. *)
Definition lignesConfig (semestre : string) : option LignesConfig :=
  if String.eqb semestre "stage" then
    Some {| c01 := [21; 22; 23; 24; 26];
            c03 := [33; 34; 35; 36; 38];
            c08 := Some [45; 46; 47; 49];
            c10 := Some [56; 57; 58; 59; 61];
            poids_c01 := "A19"; poids_c03 := "A31";
            poids_c08 := Some "A43"; poids_c10 := Some "A54" |}
  else if String.eqb semestre "revue1" then
    Some {| c01 := [20; 21; 22; 23; 25];
            c03 := [32; 33; 34; 35; 37];
            c08 := None;
            c10 := None;
            poids_c01 := "A18"; poids_c03 := "A30";
            poids_c08 := None; poids_c10 := None |}
  else if String.eqb semestre "revue2" || String.eqb semestre "revue3"
          || String.eqb semestre "soutenance" then
    Some {| c01 := [20; 21; 22; 23; 25];
            c03 := [32; 33; 34; 35; 37];
            c08 := Some [44; 45; 46; 47; 49];
            c10 := Some [56; 57; 58; 59; 61];
            poids_c01 := "A18"; poids_c03 := "A30";
            poids_c08 := Some "A42"; poids_c10 := Some "A54" |}
  else None.

(** [v === 'x']. *)
Definition is_x (v : Js.value) : bool :=
  match v with
  | Str s => String.eqb s "x"
  | _ => false
  end.

(** The chain that converts the marks of a row; [None] is [valeur = null]. *)
Definition valeur (c d e f : Js.value) : option float :=
  if is_x c then Some 0%float
  else if is_x d then Some 1%float
  else if is_x e then Some 2%float
  else if is_x f then Some 3%float
  else None.

Section Calculator.
Context `{Builtins}.
Variable sh : sheet.

(** The cell of column [col] in row [ligne]: [sheet.cell(`${col}${ligne}`)]. *)
Definition cell_at (col : string) (ligne : Z) : option Js.value :=
  cell_value sh (col +:+ pretty ligne).

(** One turn of the loop of [calculerMoyenneCompetence] on
    [(somme, count)]; [None] when a call throws. *)
Definition ligne_step (acc : float * Js.value) (ligne : Z) : option (float * Js.value) :=
  c ← cell_at "C" ligne;
  d ← cell_at "D" ligne;
  e ← cell_at "E" ligne;
  f ← cell_at "F" ligne;
  a0 ← cell_at "A" ligne;
  let a := or_zero a0 in
  match valeur c d e f with
  | Some v =>
      if gt_zero a then Some ((acc.1 + mul_num v a)%float, Js.add acc.2 a)
      else Some acc
  | None => Some acc
  end.

Fixpoint lignes_loop (acc : float * Js.value) (lignes : list Z) : option (float * Js.value) :=
  match lignes with
  | [] => Some acc
  | ligne :: rest => acc' ← ligne_step acc ligne; lignes_loop acc' rest
  end.

Definition calculerMoyenneCompetence (lignes : list Z) : option float :=
  acc ← lignes_loop (Js.zero, Num Js.zero) lignes;
  Some (if gt_zero acc.2 then (acc.1 / to_number acc.2)%float else Js.zero).

(** [lignesConfig.c08 ? calculerMoyenneCompetence(lignesConfig.c08) : 0]. *)
Definition moyenne_opt (lignes : option (list Z)) : option float :=
  match lignes with
  | Some l => calculerMoyenneCompetence l
  | None => Some Js.zero
  end.

(** [sheet.cell(addr).value() || 0], and [0] for a [null] address. *)
Definition poids (addr : option string) : option Js.value :=
  match addr with
  | Some a => v ← cell_value sh a; Some (or_zero v)
  | None => Some (Num Js.zero)
  end.

(** The body of the inner [try]; [None] when it throws. *)
Definition calcul (semestre : string) : option Js.value :=
  cfg ← lignesConfig semestre;
  moyenneC01 ← calculerMoyenneCompetence (c01 cfg);
  moyenneC03 ← calculerMoyenneCompetence (c03 cfg);
  moyenneC08 ← moyenne_opt (c08 cfg);
  moyenneC10 ← moyenne_opt (c10 cfg);
  poidsC01 ← poids (Some (poids_c01 cfg));
  poidsC03 ← poids (Some (poids_c03 cfg));
  poidsC08 ← poids (poids_c08 cfg);
  poidsC10 ← poids (poids_c10 cfg);
  bonus0 ← cell_value sh "C63";
  let bonus := or_zero bonus0 in
  let somme := (mul_num moyenneC01 poidsC01 + mul_num moyenneC03 poidsC03
                + mul_num moyenneC08 poidsC08 + mul_num moyenneC10 poidsC10)%float in
  let noteCalculee := Js.add (Num (somme * 20 / 3)%float) bonus in
  Some (Num (Js.round (to_number noteCalculee * 100) / 100)%float).

(** From the read of the configured cell to the value sent back: the stored
    value, or the fallback when it is [undefined]; a throw inside the inner
    [try] leaves [undefined].  [None] when [sheet.cell(cellAddress)] throws. *)
Definition note_of_sheet (cellAddress semestre : string) : option Js.value :=
  noteCalculee ← cell_value sh cellAddress;
  match noteCalculee with
  | Undefined => Some (default Undefined (calcul semestre))
  | v => Some v
  end.
End Calculator.

(** The student records of [eleves.json], as far as the routes read them. *)
Record Eleve := {
  eleve_id : Z;
  nom : string;
  prenom : string
}.

Inductive response :=
  | Json (note_calculee : Js.value)
  | NotFound
  | ServerError.

Section Route.
Context `{Builtins}.
Variable m : Mapping.t.

(** [eleves.find(e => e.id === eleveId)], with [eleveId = parseInt(...)]. *)
Definition find_eleve (eleves : list Eleve) (eleveId : option Z) : option Eleve :=
  id ← eleveId; List.find (fun e => eleve_id e =? id) eleves.

(** The configured cell of the computed score, if the three guards pass. *)
Definition note_calculee_cell (semestre : string) : option string :=
  cs ← Mapping.champs_supplementaires m !! semestre;
  ch ← Mapping.note_calculee cs;
  Some (Mapping.cellule ch).

(** The handler.  [exists_file] says whether [fs.access] succeeds, [load] is
    the workbook [fromFileAsync] gives, [None] when it rejects. *)
Definition note_calculee_route (eleves : list Eleve) (eleveId : option Z)
    (semestre : string) (exists_file : bool) (load : option workbook) : response :=
  match find_eleve eleves eleveId with
  | None => NotFound
  | Some eleve =>
      if negb exists_file then Json Null
      else
        match note_calculee_cell semestre with
        | None => Json Null
        | Some cellAddress =>
            match load with
            | None => ServerError
            | Some wb =>
                match sheet_of wb (Mapping.sheetNames m !! semestre) with
                | None => Json Null
                | Some sh =>
                    match note_of_sheet sh cellAddress semestre with
                    | Some v => Json v
                    | None => ServerError
                    end
                end
            end
        end
  end.
End Route.

(** *** The entries of [lignesConfig] are well formed *)

(** The five addresses the loop builds for a row denote the cells of that row. *)
Definition row_ok (ligne : Z) : bool :=
  forallb (fun col => bool_decide (parse_address (col +:+ pretty ligne)
                                   = Some (col, Z.to_N ligne)))
    ["A"; "C"; "D"; "E"; "F"].

Definition in_column_A (addr : string) : bool :=
  match parse_address addr with
  | Some (col, _) => String.eqb col "A"
  | None => false
  end.

(** A group has a weight cell exactly when it has rows. *)
Definition group_ok (lignes : option (list Z)) (poids : option string) : bool :=
  match lignes, poids with
  | Some l, Some a => forallb row_ok l && in_column_A a
  | None, None => true
  | _, _ => false
  end.

Definition config_ok (cfg : LignesConfig) : bool :=
  group_ok (Some (c01 cfg)) (Some (poids_c01 cfg))
  && group_ok (Some (c03 cfg)) (Some (poids_c03 cfg))
  && group_ok (c08 cfg) (poids_c08 cfg)
  && group_ok (c10 cfg) (poids_c10 cfg).

End Calc.

(** ** The score as the specification words it

    These definitions follow the description of the calculator, not its code:
    the theorem on the fallback compares the two. *)

Module CalcSpec.

Import Calc.

Section Formula.
Variable sh : sheet.

(** The number a weight cell or the bonus cell holds; an empty cell counts 0. *)
Definition number_at (r : cell_ref) : float :=
  match read sh r with
  | Num x => num_or_zero x
  | _ => Js.zero
  end.

(** The position, from 0 to 3, of the first level column of a row that
    carries the mark. *)
Definition mark_position (ligne : Z) : option float :=
  snd <$> List.find (fun cp => is_x (read sh (cp.1, Z.to_N ligne)))
            [("C", 0%float); ("D", 1%float); ("E", 2%float); ("F", 3%float)].

(** What a row adds to the weighted sum and to the weight total; nothing when
    it has no mark or when its weight is not positive. *)
Definition contribution (ligne : Z) : option (float * float) :=
  p ← mark_position ligne;
  let w := number_at ("A", Z.to_N ligne) in
  if Js.gt w Js.zero then Some ((p * w)%float, w) else None.

Definition weighted_sum (lignes : list Z) : float :=
  foldl (fun s c => (s + c.1)%float) Js.zero (omap contribution lignes).

Definition weight_total (lignes : list Z) : float :=
  foldl (fun s c => (s + c.2)%float) Js.zero (omap contribution lignes).

Definition average (lignes : list Z) : float :=
  if Js.num_eq (weight_total lignes) Js.zero then Js.zero
  else (weighted_sum lignes / weight_total lignes)%float.

(** The part of a competency group in the score; 0 for an absent group. *)
Definition group_term (lignes : option (list Z)) (poids : option cell_ref) : float :=
  match lignes, poids with
  | Some l, Some r => (average l * number_at r)%float
  | _, _ => Js.zero
  end.

Definition round2 (x : float) : float := (Js.round (x * 100) / 100)%float.

Definition note (cfg : LignesConfig) : float :=
  round2 ((group_term (Some (c01 cfg)) (parse_address (poids_c01 cfg))
           + group_term (Some (c03 cfg)) (parse_address (poids_c03 cfg))
           + group_term (c08 cfg) (poids_c08 cfg ≫= parse_address)
           + group_term (c10 cfg) (poids_c10 cfg ≫= parse_address)) * 20 / 3
          + number_at ("C", 63%N))%float.

(** The rows of the groups that exist. *)
Definition groups (cfg : LignesConfig) : list (list Z) :=
  c01 cfg :: c03 cfg :: (option_list (c08 cfg) ++ option_list (c10 cfg))%list.

(** The weight total of a group is zero or positive: the test [count > 0] of
    the code and the test on a total of 0 of the specification then agree.
    Every sum of positive binary64 numbers is, which is proved below from the
    specification of the binary64 sum. *)
Definition signed_total (lignes : list Z) : bool :=
  Js.num_eq (weight_total lignes) Js.zero || Js.gt (weight_total lignes) Js.zero.

Definition is_string (v : Js.value) : bool :=
  match v with
  | Str _ => true
  | _ => false
  end.

(** A cell holds no string. *)
Definition numeric (r : cell_ref) : Prop := is_string (read sh r) = false.

(** The cells the formula takes a number from: the weight cell of every row
    of a group, the weight cell of every group, and the bonus cell C63. *)
Definition number_cells (cfg : LignesConfig) : list cell_ref :=
  (((fun ligne => ("A", Z.to_N ligne)) <$> mjoin (groups cfg))
   ++ omap parse_address (poids_c01 cfg :: poids_c03 cfg
                          :: option_list (poids_c08 cfg) ++ option_list (poids_c10 cfg))
   ++ [("C", 63%N)])%list.

(** None of these cells holds a string; any other cell of the sheet may. *)
Definition numbers_only (cfg : LignesConfig) : bool :=
  forallb (fun r => negb (is_string (read sh r))) (number_cells cfg).
End Formula.

End CalcSpec.

(** ** Concrete data for the examples *)

Module Sample.

(** The integer part of a finite number, towards zero. *)
Definition trunc (x : float) : option Z :=
  match Prim2SF x with
  | S754_zero _ => Some 0
  | S754_finite s m e =>
      let a := if 0 <=? e then Z.pos m * 2 ^ e else Z.pos m / 2 ^ (- e) in
      Some (if s then - a else a)
  | _ => None
  end.

Fixpoint digits_prefix (s : string) : string :=
  match s with
  | String a s' => if is_digit a then String a (digits_prefix s') else ""
  | EmptyString => ""
  end.

Definition digits_number (s : string) : option Z :=
  match s with
  | EmptyString => None
  | _ => Z.of_N <$> digits_value s 0
  end.

(** A stand-in for the conversions of the engine, used to evaluate the
    examples: numbers are converted as the engine does for integers of
    ordinary size, a string is read as a number when it is made of decimal
    digits ([parseInt] also accepts text after them), and every other string
    is not a number. *)
#[export] Instance builtins : Builtins := {|
  parseInt v :=
    match v with
    | Num x => trunc x
    | Str s => digits_number (digits_prefix s)
    | _ => None
    end;
  parseFloat v :=
    match v with
    | Num x => x
    | Str s => from_option Js.of_Z PrimFloat.nan (digits_number s)
    | _ => PrimFloat.nan
    end;
  string_to_number s :=
    match s with
    | EmptyString => Js.zero
    | _ => from_option Js.of_Z PrimFloat.nan (digits_number s)
    end;
  number_to_string x :=
    match trunc x with
    | Some n => pretty n
    | None => "NaN"
    end
|}.

Import Mapping.

Definition competences_stage : list (string * Competence) :=
  [("C01", {| criteres := [ {| id := "c01_1"; ligne := 21 |};
                            {| id := "c01_2"; ligne := 22 |} ] |});
   ("C03", {| criteres := [ {| id := "c03_1"; ligne := 33 |} ] |})].

Definition mapping : Mapping.t := {|
  sheetNames := {[ "stage" := "E6 STAGE - IR"; "revue1" := "E6 REVUES - IR - R1" ]};
  evaluations := {[ "stage" := competences_stage ]};
  niveaux := {| niveau_1 := {| colonne := "C" |};
                niveau_2 := {| colonne := "D" |};
                niveau_3 := {| colonne := "E" |};
                niveau_4 := {| colonne := "F" |} |};
  commentaire_global := {[ "stage" := "B66" ]};
  champs_supplementaires :=
    {[ "stage" := {| bonus := Some {| cellule := "C63" |};
                     note_finale := Some {| cellule := "C65" |};
                     note_calculee := Some {| cellule := "C64" |} |} ]}
|}.

(** A record of the [stage] phase: level 3 on the first criterion, none on the
    second, level 0 on the third; neither bonus nor final score. *)
Definition record : EvalData.t := {|
  EvalData.niveaux := {[ "c01_1" := Num 3%float; "c01_2" := Null; "c03_1" := Num 0%float ]};
  EvalData.commentaireGeneral := Str "Bon stage";
  EvalData.bonus := Undefined;
  EvalData.note_finale := Null
|}.

(** A [stage] sheet that already holds a mark for level 2 on row 21, a capital
    mark on row 33 and a bonus of 5. *)
Definition sheet_stage : sheet :=
  {[ ("D", 21%N) := Str "x"; ("F", 33%N) := Str "X"; ("C", 63%N) := Num 5%float;
     ("A", 21%N) := Num 1%float ]}.

Definition workbook_stage : workbook := {[ "E6 STAGE - IR" := sheet_stage ]}.

(** A workbook whose [stage] sheet is missing. *)
Definition workbook_sans_stage : workbook := {[ "E6 REVUES - IR - R1" := (∅ : sheet) ]}.

(** A [stage] sheet with marks and weights and no stored score: levels E and D
    on rows 21 and 22 with weights 2 and 1, level F on row 33 with weight 1,
    group weights 0.4 and 0.6, bonus 0.5. *)
Definition sheet_notes : sheet :=
  {[ ("E", 21%N) := Str "x"; ("A", 21%N) := Num 2%float;
     ("D", 22%N) := Str "x"; ("A", 22%N) := Num 1%float;
     ("F", 33%N) := Str "x"; ("A", 33%N) := Num 1%float;
     ("A", 19%N) := Num 0.4%float; ("A", 31%N) := Num 0.6%float;
     ("C", 63%N) := Num 0.5%float ]}.

(** The same sheet as [generer-excel-complet] produces it, with the text of
    the session in A6. *)
Definition sheet_session : sheet := <[("A", 6%N) := Str "SESSION 2026"]> sheet_notes.

(** A [stage] sheet whose row weights 2 and 1 are held as text, and the same
    sheet with the two weights held as numbers. *)
Definition sheet_text : sheet :=
  {[ ("E", 21%N) := Str "x"; ("A", 21%N) := Str "2";
     ("D", 22%N) := Str "x"; ("A", 22%N) := Str "1";
     ("A", 19%N) := Num 1%float ]}.

Definition sheet_text_numbers : sheet :=
  <[("A", 21%N) := Num 2%float]> (<[("A", 22%N) := Num 1%float]> sheet_text).

(** The sample mapping with the level columns moved to G, H, I and J. *)
Definition mapping_GJ : Mapping.t := {|
  sheetNames := sheetNames mapping;
  evaluations := evaluations mapping;
  niveaux := {| niveau_1 := {| colonne := "G" |};
                niveau_2 := {| colonne := "H" |};
                niveau_3 := {| colonne := "I" |};
                niveau_4 := {| colonne := "J" |} |};
  commentaire_global := commentaire_global mapping;
  champs_supplementaires := champs_supplementaires mapping
|}.

(** A record that holds one level, for the first criterion. *)
Definition record_niveau (niv : Js.value) : EvalData.t := {|
  EvalData.niveaux := {[ "c01_1" := niv ]};
  EvalData.commentaireGeneral := Undefined;
  EvalData.bonus := Undefined;
  EvalData.note_finale := Undefined
|}.

(** A record whose levels are not integers from 0 to 4. *)
Definition record_fractions : EvalData.t := {|
  EvalData.niveaux := {[ "c01_1" := Num 2.7%float; "c01_2" := Str "4abc";
                         "c03_1" := Num (-0.5)%float ]};
  EvalData.commentaireGeneral := Undefined;
  EvalData.bonus := Undefined;
  EvalData.note_finale := Undefined
|}.

Definition eleve_dupont : Calc.Eleve :=
  {| Calc.eleve_id := 7; Calc.nom := "Dupont"; Calc.prenom := "Jean" |}.

End Sample.

(** ** The cells a fill can touch *)

Module Frame.
Import Mapping Fill.

(** The columns the [switch (niveau)] can select. *)
Definition niveau_colonnes (m : Mapping.t) : list string :=
  [colonne (niveau_1 (niveaux m)); colonne (niveau_2 (niveaux m));
   colonne (niveau_3 (niveaux m)); colonne (niveau_4 (niveaux m))].

Definition mark_addresses (m : Mapping.t) (comps : list (string * Competence)) : list string :=
  c ← all_criteres comps; (fun col => address col c) <$> niveau_colonnes m.

(** The cells of the general comment, the bonus and the final score. *)
Definition champs_addresses (m : Mapping.t) (semestre : string) : list string :=
  (option_list (commentaire_global m !! semestre)
   ++ match champs_supplementaires m !! semestre with
      | Some cs => option_list (cellule <$> bonus cs)
                   ++ option_list (cellule <$> note_finale cs)
      | None => []
      end)%list.

(** Every cell a fill of the phase can read or write. *)
Definition touched (m : Mapping.t) (semestre : string)
    (comps : list (string * Competence)) : list cell_ref :=
  omap parse_address
    (clear_addresses comps ++ mark_addresses m comps ++ champs_addresses m semestre)%list.
End Frame.

(** ** The counter against the lock table *)

Module Bound.

(** The counter is at least 0 and at most the number of entries of the table. *)
Definition counted (g : Gate.t) : Prop :=
  0 <= Gate.activeExcelOperations g <= Z.of_nat (size (Gate.excelLocks g)).

End Bound.

(** ** Sessions and the access middleware *)

Module Access.

(** [req.session.user], as the login route stores it: [juryId] is
    [user.juryId || null]. *)
Record User := {
  username : string;
  role : string;
  juryId : option string
}.

(** What a middleware does with a request: [next()], or an answer with a
    status. *)
Inductive verdict :=
  | Next
  | Deny (status : Z).

(** [a || b]. *)
Definition js_or (a b : Js.value) : Js.value := if truthy a then a else b.

(** ToBoolean of a field that holds a string or [null]. *)
Definition given (s : option string) : bool :=
  match s with
  | Some s => negb (String.eqb s "")
  | None => false
  end.

(** [session] is [req.session.user], [None] when there is no session or no
    user in it. *)
Definition requireAuth (session : option User) : verdict :=
  match session with
  | None => Deny 401
  | Some _ => Next
  end.

Definition requireAdmin (session : option User) : verdict :=
  match session with
  | None => Deny 403
  | Some user => if String.eqb (role user) "admin" then Next else Deny 403
  end.

(** [body_semestre] is [req.body.semestre], [params_semestre] is
    [req.params.semestre]. *)
Definition checkEvaluationAccess (session : option User)
    (body_semestre params_semestre : Js.value) : verdict :=
  match session with
  | None => Deny 401
  | Some user =>
      let semestre := js_or body_semestre params_semestre in
      if String.eqb (role user) "admin" then Next
      else if String.eqb (role user) "jury" then
        match semestre with
        | Str s => if String.eqb s "soutenance" then Next else Deny 403
        | _ => Deny 403
        end
      else Deny 403
  end.

End Access.

(** ** The data files *)

Module Fs.

(** How a [writeFile] ends: the file holds the new text, or the call rejects
    and leaves the file as [after], [None] when it can no longer be read. *)
Inductive write_result (A : Type) :=
  | Written
  | WriteFailed (after : option A).

Arguments Written {A}.
Arguments WriteFailed {A} after.

End Fs.

(** ** The type validators *)

Module Validation.

(** The [Error] a validator throws. *)
Inductive error :=
  | Requis
  | PasUneChaine
  | TropLong
  | PasUnNombre
  | SousLeMinimum
  | AuDessusDuMaximum
  | HorsListe
  | PasUnObjet.

(** A validator returns [true] or throws. *)
Inductive check :=
  | Valid
  | Throw (e : error).

Definition and_then (a b : check) : check :=
  match a with
  | Valid => b
  | Throw e => Throw e
  end.

(** [value.length] counts the code units of the string. *)
Definition validateString (value : Js.value) (required : bool) (maxLength : Z) : check :=
  match value with
  | Undefined | Null => if required then Throw Requis else Valid
  | Str s => if maxLength <? Z.of_nat (String.length s) then Throw TropLong else Valid
  | _ => Throw PasUneChaine
  end.

(** [Number(value)], [isNaN], [num < min] and [num > max], with both bounds
    given. *)
Definition validateNumber `{Builtins} (value : Js.value) (required : bool)
    (min max : float) : check :=
  match value with
  | Undefined | Null => if required then Throw Requis else Valid
  | _ =>
      let num := to_number value in
      match PrimFloat.compare num num with
      | FNotComparable => Throw PasUnNombre
      | _ =>
          match PrimFloat.compare num min with
          | FLt => Throw SousLeMinimum
          | _ => if Js.gt num max then Throw AuDessusDuMaximum else Valid
          end
      end
  end.

(** [allowedValues.includes(value)]. *)
Definition validateEnum (value : Js.value) (allowedValues : list string)
    (required : bool) : check :=
  match value with
  | Undefined | Null => if required then Throw Requis else Valid
  | Str s => if bool_decide (s ∈ allowedValues) then Valid else Throw HorsListe
  | _ => Throw HorsListe
  end.

End Validation.

(** ** The student store: [eleves.json] and its routes *)

Module Eleves.

Import Access Validation Fs.

Record Recap := {
  note_proposee : Js.value;
  commentaires : Js.value
}.

(** A student record; [None] and [Undefined] are fields the object does not
    have or has as [null]. *)
Record Eleve := {
  id : Z;
  nom : string;
  prenom : string;
  promotion : string;
  numero : string;
  jury : option string;
  evaluations : option (gmap string EvalData.t);
  recapitulatif : option Recap;
  projetId : Js.value
}.

(** What [JSON.parse] of the file gives; [None] when [readFile] or the parse
    throws. *)
Definition file : Type := option (list Eleve).

Definition loadEleves (f : file) : list Eleve := default [] f.

(** [saveEleves(eleves)]: the file after the call and the boolean returned. *)
Definition saveEleves (eleves : list Eleve) (w : write_result (list Eleve))
    : file * bool :=
  match w with
  | Written => (Some eleves, true)
  | WriteFailed after => (after, false)
  end.

(** [eleves.findIndex(e => e.id === eleveId)] with the element found;
    [eleveId] is [parseInt(req.params.id)], [None] when it is [NaN]. *)
Definition findIndex (eleves : list Eleve) (eleveId : option Z) : option (nat * Eleve) :=
  i ← eleveId; list_find (fun e => id e = i) eleves.

Definition set_evaluations (e : Eleve) (evs : gmap string EvalData.t) : Eleve :=
  {| id := id e; nom := nom e; prenom := prenom e; promotion := promotion e;
     numero := numero e; jury := jury e; evaluations := Some evs;
     recapitulatif := recapitulatif e; projetId := projetId e |}.

Definition set_jury (e : Eleve) (j : option string) : Eleve :=
  {| id := id e; nom := nom e; prenom := prenom e; promotion := promotion e;
     numero := numero e; jury := j; evaluations := evaluations e;
     recapitulatif := recapitulatif e; projetId := projetId e |}.

Definition set_recapitulatif (e : Eleve) (r : Recap) : Eleve :=
  {| id := id e; nom := nom e; prenom := prenom e; promotion := promotion e;
     numero := numero e; jury := jury e; evaluations := evaluations e;
     recapitulatif := Some r; projetId := projetId e |}.

Definition set_projetId (e : Eleve) (p : Js.value) : Eleve :=
  {| id := id e; nom := nom e; prenom := prenom e; promotion := promotion e;
     numero := numero e; jury := jury e; evaluations := evaluations e;
     recapitulatif := recapitulatif e; projetId := p |}.

(** [req.body.data]: missing or [null], a value that is no object or an
    array, or an object, read through the fields the fill reads. *)
Inductive body_data :=
  | NoData
  | NotAnObject
  | Data (d : EvalData.t).

Definition validateObject (value : body_data) : check :=
  match value with
  | NoData => Throw Requis
  | NotAnObject => Throw PasUnObjet
  | Data _ => Valid
  end.

(** *** [GET /api/eleves] and [GET /api/eleves/:id] *)

(** [user.role === 'jury' && user.juryId]. *)
Definition jury_with_id (user : User) : bool :=
  String.eqb (role user) "jury" && given (juryId user).

(** The list sent back. *)
Definition get_eleves (session : option User) (f : file) : list Eleve :=
  let eleves := loadEleves f in
  match session with
  | Some user =>
      if jury_with_id user
      then List.filter (fun eleve => bool_decide (jury eleve = juryId user)) eleves
      else eleves
  | None => eleves
  end.

Definition get_eleve (session : option User) (eleveId : option Z) (f : file)
    : Z * option Eleve :=
  match snd <$> findIndex (loadEleves f) eleveId with
  | None => (404, None)
  | Some eleve =>
      match session with
      | Some user =>
          if jury_with_id user && negb (bool_decide (jury eleve = juryId user))
          then (403, None)
          else (200, Some eleve)
      | None => (200, Some eleve)
      end
  end.

(** *** [POST /api/eleves/:id/evaluations] *)

(** The handler: the status of the answer and the file after it. *)
Definition post_evaluations (eleveId : option Z) (semestre : Js.value)
    (data : body_data) (f : file) (w : write_result (list Eleve)) : Z * file :=
  match and_then (validateEnum semestre Fill.semestres true) (validateObject data),
        semestre, data with
  | Valid, Str s, Data d =>
      let eleves := loadEleves f in
      match findIndex eleves eleveId with
      | None => (404, f)
      | Some (i, e) =>
          let evs := <[s := d]> (default ∅ (evaluations e)) in
          (200, (saveEleves (<[i := set_evaluations e evs]> eleves) w).1)
      end
  | _, _, _ => (400, f)
  end.

(** The route, from [checkEvaluationAccess] on; the path has no [:semestre]. *)
Definition route_post_evaluations (session : option User) (eleveId : option Z)
    (semestre : Js.value) (data : body_data) (f : file)
    (w : write_result (list Eleve)) : Z * file :=
  match checkEvaluationAccess session semestre Undefined with
  | Deny status => (status, f)
  | Next => post_evaluations eleveId semestre data f w
  end.

(** *** [DELETE /api/eleves/:id]

    The handler also removes the workbook of the student from the export
    directory, whatever that removal gives; the store is all that is followed
    here. *)

Definition delete_eleve (eleveId : option Z) (f : file)
    (w : write_result (list Eleve)) : Z * file :=
  let eleves := loadEleves f in
  match findIndex eleves eleveId with
  | None => (404, f)
  | Some (i, _) => (200, (saveEleves (delete i eleves) w).1)
  end.

(** *** [PATCH /api/eleves/:id/jury] *)

(** The guard [jury !== null && jury !== undefined && jury !== ''] and the
    call it protects. *)
Definition validate_jury (jury : Js.value) : check :=
  match jury with
  | Null | Undefined | Str EmptyString => Valid
  | _ => validateEnum jury ["jury1"; "jury2"] false
  end.

(** [jury || null] for a value that passed [validate_jury]: a string or
    nothing. *)
Definition jury_or_null (jury : Js.value) : option string :=
  match js_or jury Null with
  | Str s => Some s
  | _ => None
  end.

Definition patch_jury (eleveId : option Z) (jury : Js.value) (f : file)
    (w : write_result (list Eleve)) : Z * file :=
  match validate_jury jury with
  | Throw _ => (400, f)
  | Valid =>
      let eleves := loadEleves f in
      match findIndex eleves eleveId with
      | None => (404, f)
      | Some (i, e) =>
          (200, (saveEleves (<[i := set_jury e (jury_or_null jury)]> eleves) w).1)
      end
  end.

(** *** [PATCH /api/eleves/:id/projet] *)

Definition patch_projet (eleveId : option Z) (projet : Js.value) (f : file)
    (w : write_result (list Eleve)) : Z * file :=
  let eleves := loadEleves f in
  match findIndex eleves eleveId with
  | None => (404, f)
  | Some (i, e) =>
      (200, (saveEleves (<[i := set_projetId e (js_or projet Null)]> eleves) w).1)
  end.

(** *** [POST /api/eleves/:id/recapitulatif] *)

(** The two guarded calls: a field that is [null] or [undefined] is not
    validated. *)
Definition validate_recapitulatif `{Builtins} (note commentaires : Js.value) : check :=
  and_then (validateNumber note false 0 20) (validateString commentaires false 5000).

Definition post_recapitulatif `{Builtins} (eleveId : option Z)
    (note commentaires : Js.value) (f : file) (w : write_result (list Eleve)) : Z * file :=
  match validate_recapitulatif note commentaires with
  | Throw _ => (400, f)
  | Valid =>
      let eleves := loadEleves f in
      match findIndex eleves eleveId with
      | None => (404, f)
      | Some (i, e) =>
          let r := {| note_proposee := note; commentaires := commentaires |} in
          (200, (saveEleves (<[i := set_recapitulatif e r]> eleves) w).1)
      end
  end.

(** *** [POST /api/eleves] *)

(** [String.prototype.trim]. *)
Class Text := { trim : string -> string }.

(** The fields of [req.body] the handler reads. *)
Record Body := {
  body_nom : Js.value;
  body_prenom : Js.value;
  body_promotion : Js.value;
  body_classe : Js.value;
  body_numero : Js.value;
  body_jury : Js.value
}.

Definition validate_body (b : Body) : check :=
  and_then (validateString (body_nom b) true 100)
    (and_then (validateString (body_prenom b) true 100)
       (and_then (validateString (body_numero b) true 50)
          (and_then (validateString (js_or (body_promotion b) (body_classe b)) true 100)
             (validate_jury (body_jury b))))).

(** The text of a value that passed [validateString] as required. *)
Definition text (v : Js.value) : string :=
  match v with
  | Str s => s
  | _ => ""
  end.

(** [Math.max(...eleves.map(e => e.id))] on a list that is not empty. *)
Definition max_id (eleves : list Eleve) : Z :=
  match eleves with
  | [] => 0
  | e :: rest => foldl (fun acc e' => Z.max acc (id e')) (id e) rest
  end.

(** The binary64 number nearest to an integer, ties to the even significand.
    An integer of at most 53 bits is a binary64 number; a longer one keeps its
    53 leading bits. *)
Definition to_double (n : Z) : Z :=
  let a := Z.abs n in
  let k := Z.log2 a - 52 in
  if k <=? 0 then n
  else
    let q := a / 2 ^ k in
    let r := a mod 2 ^ k in
    let half := 2 ^ (k - 1) in
    let q' := if r <? half then q
              else if half <? r then q + 1
              else if Z.even q then q else q + 1 in
    Z.sgn n * (q' * 2 ^ k).

(** [Number.isSafeInteger]: an integer below [2^53] in magnitude. *)
Definition safe (k : Z) : Prop := Z.abs k < 2 ^ 53.

(** [eleves.length > 0 ? Math.max(...eleves.map(e => e.id)) + 1 : 1].  The ids
    are numbers of the JSON file; the maximum of integers is exact, and the
    sum with 1 is a binary64 sum, which is rounded. *)
Definition newId (eleves : list Eleve) : Z :=
  match eleves with
  | [] => 1
  | _ => to_double (max_id eleves + 1)
  end.

Section Create.
Context `{Text}.

Definition newEleve (b : Body) (eleves : list Eleve) : Eleve :=
  {| id := newId eleves;
     nom := trim (text (body_nom b));
     prenom := trim (text (body_prenom b));
     promotion := trim (text (js_or (body_promotion b) (body_classe b)));
     numero := trim (text (body_numero b));
     jury := jury_or_null (body_jury b);
     evaluations := Some ∅;
     recapitulatif := None;
     projetId := Undefined |}.

(** The handler writes with [fs.writeFile] itself: a write that fails is
    caught by the outer [try]. *)
Definition post_eleve (b : Body) (f : file) (w : write_result (list Eleve)) : Z * file :=
  match validate_body b with
  | Throw _ => (400, f)
  | Valid =>
      let eleves := loadEleves f in
      let eleves' := (eleves ++ [newEleve b eleves])%list in
      match w with
      | Written => (201, Some eleves')
      | WriteFailed after => (500, after)
      end
  end.
End Create.

(** The ids of the store. *)
Definition ids (f : file) : list Z := id <$> loadEleves f.

End Eleves.

(** ** [GET /api/mapping/evaluation/:semestre] *)

Module MappingRoute.

Import Access Mapping.

(** The object sent back. *)
Record View := {
  view_nom : string;
  view_competences : list (string * Competence);
  view_niveaux : Niveaux;
  view_champs_supplementaires : option ChampsSupp
}.

(** The handler; [semestre] is [req.params.semestre]. *)
Definition get_evaluation (m : Mapping.t) (semestre : string) : Z * option View :=
  match sheetNames m !! semestre with
  | None => (404, None)
  | Some name =>
      if String.eqb name "" then (404, None)
      else
        match evaluations m !! semestre with
        | None => (404, None)
        | Some comps =>
            (200, Some {| view_nom := name;
                          view_competences := comps;
                          view_niveaux := niveaux m;
                          view_champs_supplementaires :=
                            champs_supplementaires m !! semestre |})
        end
  end.

(** The route, from [checkEvaluationAccess] on; [body_semestre] is
    [req.body.semestre]. *)
Definition route_get_evaluation (m : Mapping.t) (session : option User)
    (body_semestre : Js.value) (semestre : string) : Z * option View :=
  match checkEvaluationAccess session body_semestre (Str semestre) with
  | Deny status => (status, None)
  | Next => get_evaluation m semestre
  end.

End MappingRoute.

(** ** The checks of [remplir-excel] before it takes the lock *)

Module RemplirExcel.

Import Access Eleves Server.

Section Checks.
Context `{Builtins}.

(** From the start of the handler to its call of [acquireExcelLock]: the
    status it answers with, or the request as the scheduler receives it.
    [semestre] is [req.body.semestre], used as a property key, and
    [exists_file] says whether [fs.access] finds the workbook. *)
Definition checks (eleveId : option Z) (semestre : Js.value) (f : file)
    (exists_file : string -> bool) : Z + event :=
  match snd <$> findIndex (loadEleves f) eleveId with
  | None => inl 404
  | Some eleve =>
      match evaluations eleve ≫= (.!! to_string semestre) with
      | None => inl 400
      | Some d =>
          if exists_file (output_file_name (nom eleve) (prenom eleve))
          then inr (Request (RemplirExcel (to_string semestre) d) (nom eleve) (prenom eleve))
          else inl 404
      end
  end.

(** The route, from [checkEvaluationAccess] on. *)
Definition route_checks (session : option User) (eleveId : option Z)
    (semestre : Js.value) (f : file) (exists_file : string -> bool) : Z + event :=
  match checkEvaluationAccess session semestre Undefined with
  | Deny status => inl status
  | Next => checks eleveId semestre f exists_file
  end.
End Checks.

End RemplirExcel.

(** ** The evaluation lock: [evaluation-lock.json] and its routes *)

Module EvalLock.

Import Access Fs.

Record JuryLock := {
  isLocked : bool;
  startDate : option string;
  endDate : option string;
  unlockedEarly : bool
}.

Abbreviation lock_data := (gmap string JuryLock).

(** What [JSON.parse] of the file gives; [None] when the read throws. *)
Definition lock_file : Type := option lock_data.

Definition unlocked : JuryLock :=
  {| isLocked := false; startDate := None; endDate := None; unlockedEarly := false |}.

Definition loadEvaluationLock (f : lock_file) : lock_data :=
  default {[ "jury1" := unlocked; "jury2" := unlocked ]} f.

(** Dates, as times in milliseconds. *)
Class Dates := {
  (** The time value of [new Date(v)]; [None] for an invalid date. *)
  date_of : Js.value -> option Z;
  (** [toISOString] of a valid date. *)
  toISOString : Z -> string
}.

Section Routes.
Context `{Dates}.

(** [isInLockPeriod(lockData, juryId)] when [new Date()] is [now]. *)
Definition isInLockPeriod (lockData : lock_data) (juryId : string) (now : Z) : bool :=
  match lockData !! juryId with
  | None => false
  | Some juryLock =>
      if negb (isLocked juryLock) || unlockedEarly juryLock then false
      else if negb (given (startDate juryLock)) || negb (given (endDate juryLock))
      then false
      else
        match date_of (Str (default "" (startDate juryLock))),
              date_of (Str (default "" (endDate juryLock))) with
        | Some start, Some end_ => (start <=? now) && (now <=? end_)
        | _, _ => false
        end
  end.

(** The answer of [GET /api/evaluation-lock]: for a jury its own lock, for
    any other user the whole file. *)
Inductive lock_view :=
  | JuryView (isLocked : bool) (lockData : option JuryLock) (juryId : string)
  | AdminView (lockData : lock_data).

Definition get_lock (session : option User) (now : Z) (f : lock_file)
    : Z * option lock_view :=
  match session with
  | None => (401, None)
  | Some user =>
      let lockData := loadEvaluationLock f in
      if String.eqb (role user) "jury" && given (juryId user)
      then (200, Some (JuryView (isInLockPeriod lockData (default "" (juryId user)) now)
                         (lockData !! default "" (juryId user))
                         (default "" (juryId user))))
      else (200, Some (AdminView lockData))
  end.

(** The jury id of the two routes that fall back on the user name. *)
Definition jury_or_username (user : User) : option string :=
  if given (juryId user) then juryId user
  else if negb (String.eqb (username user) "") then Some (username user)
  else juryId user.

Definition is_jury (session : option User) : option User :=
  match session with
  | Some user => if String.eqb (role user) "jury" then Some user else None
  | None => None
  end.

(** [saveEvaluationLock]: the file after the call, or the throw. *)
Definition saveEvaluationLock (lockData : lock_data) (w : write_result lock_data)
    : Z * lock_file :=
  match w with
  | Written => (200, Some lockData)
  | WriteFailed after => (500, after)
  end.

(** [POST /api/evaluation-lock/set]. *)
Definition set_lock (session : option User) (startDate endDate : Js.value)
    (f : lock_file) (w : write_result lock_data) : Z * lock_file :=
  match is_jury session with
  | None => (403, f)
  | Some user =>
      let juryId := jury_or_username user in
      if negb (given juryId) then (400, f)
      else if negb (truthy startDate) || negb (truthy endDate) then (400, f)
      else
        match date_of startDate, date_of endDate with
        | Some start, Some end_ =>
            if end_ <=? start then (400, f)
            else
              saveEvaluationLock
                (<[default "" juryId :=
                     {| isLocked := true;
                        startDate := Some (toISOString start);
                        endDate := Some (toISOString end_);
                        unlockedEarly := false |}]> (loadEvaluationLock f)) w
        | _, _ => (500, f)
        end
  end.

(** [POST /api/evaluation-lock/unlock]. *)
Definition unlock (session : option User) (f : lock_file) (w : write_result lock_data)
    : Z * lock_file :=
  match is_jury session with
  | None => (403, f)
  | Some user =>
      let juryId := jury_or_username user in
      if negb (given juryId) then (400, f)
      else
        let allLockData := loadEvaluationLock f in
        match allLockData !! default "" juryId with
        | None => (500, f)
        | Some juryLock =>
            saveEvaluationLock
              (<[default "" juryId :=
                   {| isLocked := isLocked juryLock;
                      startDate := startDate juryLock;
                      endDate := endDate juryLock;
                      unlockedEarly := true |}]> allLockData) w
        end
  end.

(** [POST /api/evaluation-lock/disable]. *)
Definition disable (session : option User) (f : lock_file) (w : write_result lock_data)
    : Z * lock_file :=
  match is_jury session with
  | None => (403, f)
  | Some user =>
      if negb (given (juryId user)) then (400, f)
      else
        saveEvaluationLock
          (<[default "" (juryId user) := unlocked]> (loadEvaluationLock f)) w
  end.

(** [shouldLockAdminActionsForEleve(eleve)] of the front end, for an
    administrator: [currentLockState] is the answer to
    [GET /api/evaluation-lock], [None] before it has arrived, and
    [eleve_jury] is [eleve.jury]. *)
Definition shouldLockAdminActionsForEleve (currentUser : option User)
    (currentLockState : option lock_view) (eleve_jury : option string) (now : Z) : bool :=
  match currentUser, currentLockState with
  | Some user, Some (AdminView lockData) =>
      if negb (String.eqb (role user) "admin") then false
      else if negb (given eleve_jury) then false
      else isInLockPeriod lockData (default "" eleve_jury) now
  | _, _ => false
  end.
End Routes.

End EvalLock.

(** ** Step 4 of [generer-excel-complet]: the summary sheet *)

Module Recap.

Import Eleves.

(** A member of a jury, in [jury-members.json]: three strings. *)
Record Member := {
  member_nom : string;
  member_prenom : string;
  member_qualite : string
}.

Definition filled (s : string) : bool := negb (String.eqb s "").

(** [m.nom || m.prenom || m.qualite]. *)
Definition valid (m : Member) : bool :=
  filled (member_nom m) || filled (member_prenom m) || filled (member_qualite m).

(** [parts.join(' ')]. *)
Fixpoint join (parts : list string) : string :=
  match parts with
  | [] => ""
  | [p] => p
  | p :: rest => p +:+ " " +:+ join rest
  end.

Definition fullText (m : Member) : string :=
  let parts := ((if filled (member_nom m) then [member_nom m] else [])
                ++ (if filled (member_prenom m) then [member_prenom m] else []))%list in
  let text := join parts in
  if filled (member_qualite m)
  then (if filled text then text +:+ " - " +:+ member_qualite m else member_qualite m)
  else text.

(** [`member${index + 1}`]. *)
Definition cellKey (index : nat) : string := "member" +:+ pretty (Z.of_nat index + 1).

(** The [forEach] over [validMembers.slice(0, 3)], from [index] on.  A throw
    of [cell] ends the loop, the sheet keeps what was written before it. *)
Fixpoint write_members (juryMapping : gmap string string) (index : nat)
    (members : list Member) (sh : sheet) : sheet :=
  match members with
  | [] => sh
  | member :: rest =>
      match juryMapping !! cellKey index with
      | Some addr =>
          if filled addr && filled (fullText member) then
            match set_cell sh addr (Str (fullText member)) with
            | Some sh' => write_members juryMapping (S index) rest sh'
            | None => sh
            end
          else write_members juryMapping (S index) rest sh
      | None => write_members juryMapping (S index) rest sh
      end
  end.

(** What [loadJuryMembers] gives: the file, or the two empty juries. *)
Definition loadJuryMembers (f : option (gmap string (list Member)))
    : gmap string (list Member) :=
  default {[ "jury1" := []; "jury2" := [] ]} f.

(** [eleve.evaluations?.[semestre]?.note_finale]. *)
Definition note_finale_of (eleve : Eleve) (semestre : string) : Js.value :=
  match evaluations eleve ≫= (.!! semestre) with
  | Some d => EvalData.note_finale d
  | None => Undefined
  end.

Section Etape4.
Context `{Builtins}.

(** [if (v) recapSheet.cell(addr).value(parseFloat(v))]. *)
Definition write_note (addr : string) (v : Js.value) (sh : sheet) : sheet :=
  if truthy v then try_set_cell sh addr (Num (parseFloat v)) else sh.

(** The block of the jury members; [juryMapping] is
    [mapping.jury_members?.recap]. *)
Definition write_jury (eleve : Eleve) (juryMapping : option (gmap string string))
    (juryMembers : option (gmap string (list Member))) (sh : sheet) : sheet :=
  match jury eleve, juryMapping with
  | Some j, Some juryMapping =>
      if filled j then
        let members := default [] (loadJuryMembers juryMembers !! j) in
        write_members juryMapping 0 (take 3 (List.filter valid members)) sh
      else sh
  | _, _ => sh
  end.

(** The summary sheet after step 4. *)
Definition fill_recap (eleve : Eleve) (juryMapping : option (gmap string string))
    (juryMembers : option (gmap string (list Member))) (sh : sheet) : sheet :=
  let sh := write_note "F28" (note_finale_of eleve "stage") sh in
  let sh := write_note "F30" (note_finale_of eleve "revue3") sh in
  let sh := write_note "F32" (note_finale_of eleve "soutenance") sh in
  let sh := write_note "C34"
              (match recapitulatif eleve with
               | Some r => note_proposee r
               | None => Undefined
               end) sh in
  let sh := match recapitulatif eleve with
            | Some r =>
                if truthy (commentaires r) then try_set_cell sh "B37" (commentaires r)
                else sh
            | None => sh
            end in
  write_jury eleve juryMapping juryMembers sh.

(** Step 4 on the workbook: nothing without the summary sheet. *)
Definition etape4 (eleve : Eleve) (juryMapping : option (gmap string string))
    (juryMembers : option (gmap string (list Member))) (wb : workbook) : workbook :=
  match wb !! Server.recap_sheet with
  | Some sh => <[Server.recap_sheet := fill_recap eleve juryMapping juryMembers sh]> wb
  | None => wb
  end.
End Etape4.

End Recap.

(** ** The evaluation form of the front end: [collectFormData] *)

Module Form.

Section Collect.
Context `{Builtins}.

(** A number as [JSON.stringify] and [JSON.parse] carry it: [NaN] and the
    infinities arrive as [null], and a zero arrives as [0]. *)
Definition json_number (x : float) : Js.value :=
  match Prim2SF x with
  | S754_zero _ => Num Js.zero
  | S754_finite _ _ _ => Num x
  | _ => Null
  end.

(** The last two blocks of [collectFormData], as the server receives their
    fields: [bonus] and [note] are the texts of the two inputs, [None] when
    the form has no such input. *)
Definition collect_bonus (bonus : option string) : Js.value :=
  match bonus with
  | Some text => json_number (num_or_zero (parseFloat (Str text)))
  | None => Undefined
  end.

Definition collect_note_finale (note : option string) : Js.value :=
  match note with
  | Some text =>
      let x := parseFloat (Str text) in
      if truthy_num x then json_number x else Null
  | None => Undefined
  end.
End Collect.

End Form.

(** ** Concrete data for the examples of the store, the lock and the summary *)

Module Examples.

Import Access Eleves EvalLock Recap.

Definition is_space (a : ascii) : bool :=
  let n := N_of_ascii a in (n =? 32)%N || ((9 <=? n)%N && (n <=? 13)%N).

Fixpoint trim_start (s : string) : string :=
  match s with
  | String a s' => if is_space a then trim_start s' else s
  | EmptyString => ""
  end.

Fixpoint trim_end (s : string) : string :=
  match s with
  | String a s' =>
      let t := trim_end s' in
      if is_space a && String.eqb t "" then "" else String a t
  | EmptyString => ""
  end.

(** A stand-in for [trim] that removes the blanks of ASCII. *)
#[export] Instance ascii_text : Text := {| trim s := trim_end (trim_start s) |}.

(** A stand-in for the dates: the text of a date is its time value in decimal
    digits, as [Date.parse] reads it back from [toISOString]. *)
#[export] Instance dates : Dates := {|
  date_of v :=
    match v with
    | Num x => Sample.trunc x
    | Str s => Sample.digits_number s
    | Null => Some 0
    | Undefined => None
    end;
  toISOString t := pretty t
|}.

Definition dupont : Eleve :=
  {| id := 7; nom := "Dupont"; prenom := "Jean"; promotion := "BTS2"; numero := "0001";
     jury := Some "jury1";
     evaluations := Some {[ "stage" := Sample.record ]};
     recapitulatif := None; projetId := Undefined |}.

Definition martin : Eleve :=
  {| id := 9; nom := "Martin"; prenom := "Lea"; promotion := "BTS2"; numero := "0002";
     jury := Some "jury2"; evaluations := None;
     recapitulatif := None; projetId := Undefined |}.

Definition store : Eleves.file := Some [dupont; martin].

Definition jury1 : User := {| username := "durand"; role := "jury"; juryId := Some "jury1" |}.

(** A record of the [soutenance] phase with a final score of 0. *)
Definition soutenance : EvalData.t := {|
  EvalData.niveaux := {[ "c01_1" := Num 2%float ]};
  EvalData.commentaireGeneral := Str "";
  EvalData.bonus := Num 0%float;
  EvalData.note_finale := Num 0%float
|}.

(** The body of a creation. *)
Definition body : Body :=
  {| body_nom := Str " Petit "; body_prenom := Str "Paul"; body_promotion := Undefined;
     body_classe := Str "BTS1"; body_numero := Str "0003"; body_jury := Str "" |}.

(** A lock file with a lock of [jury1] from 1000 to 2000. *)
Definition locks : EvalLock.lock_file :=
  Some {[ "jury1" := {| isLocked := true; startDate := Some "1000";
                        endDate := Some "2000"; unlockedEarly := false |} ]}.

(** Five members, the second without a name or a quality. *)
Definition members : gmap string (list Member) :=
  {[ "jury1" :=
       [ {| member_nom := "Durand"; member_prenom := "Anne"; member_qualite := "Presidente" |};
         {| member_nom := ""; member_prenom := ""; member_qualite := "" |};
         {| member_nom := "Petit"; member_prenom := ""; member_qualite := "" |};
         {| member_nom := ""; member_prenom := ""; member_qualite := "Enseignant" |};
         {| member_nom := "Roux"; member_prenom := "Luc"; member_qualite := "" |} ] ]}.

Definition juryMapping : gmap string string :=
  {[ "member1" := "B40"; "member2" := "B41"; "member3" := "B42" ]}.

(** A student of [jury1] whose [stage] record has a final score of 0. *)
Definition durand : Eleve :=
  {| id := 3; nom := "Durand"; prenom := "Eve"; promotion := "BTS2"; numero := "0004";
     jury := Some "jury1";
     evaluations := Some {[ "stage" := soutenance ]};
     recapitulatif := None; projetId := Undefined |}.

End Examples.

(** * Properties *)

(** ** The gate *)

Section GateFacts.
Import Gate.

Lemma releaseExcelLock_locks f g :
  excelLocks (releaseExcelLock f g) = delete f (excelLocks g).
Proof. reflexivity. Qed.

Lemma releaseExcelLock_active f g :
  activeExcelOperations (releaseExcelLock f g) = Z.max 0 (activeExcelOperations g - 1).
Proof.
  unfold releaseExcelLock; simpl.
  destruct (Z.ltb_spec (activeExcelOperations g - 1) 0); lia.
Qed.

Lemma wait_file_active now t0 f g :
  0 <= activeExcelOperations g -> 0 <= activeExcelOperations (wait_file now t0 f g).1.
Proof.
  intros Hg. unfold wait_file.
  destruct (excelLocks g !! f); [destruct (_ <? _)|]; simpl; lia.
Qed.

Lemma wait_global_active now t0 f g :
  0 <= activeExcelOperations g -> 0 <= activeExcelOperations (wait_global now t0 f g).1.
Proof.
  intros Hg. unfold wait_global.
  destruct (_ <=? _); [destruct (_ <? _); simpl; lia|].
  by apply wait_file_active.
Qed.

Lemma apply_call_active g c :
  0 <= activeExcelOperations g -> 0 <= activeExcelOperations (apply_call g c).
Proof.
  intros Hg. destruct c as [now f|f]; unfold apply_call.
  - by apply wait_global_active.
  - rewrite releaseExcelLock_active. lia.
Qed.

Lemma apply_calls_active cs g :
  0 <= activeExcelOperations g -> 0 <= activeExcelOperations (apply_calls g cs).
Proof.
  revert g. induction cs as [|c cs IH]; intros g Hg; simpl; [done|].
  apply IH. by apply apply_call_active.
Qed.
End GateFacts.

(** ** The two routes under the scheduler *)

Section SchedulerFacts.
Import Gate Server.
Context `{Builtins}.
Variable m : Mapping.t.

Lemma catch_active f g :
  0 <= activeExcelOperations g -> 0 <= activeExcelOperations (catch f g).1.
Proof.
  intros Hg. unfold catch; simpl. destruct (negb _); [|done].
  rewrite releaseExcelLock_active. lia.
Qed.

Lemma after_acquire_active now f gr :
  0 <= activeExcelOperations gr.1 ->
  0 <= activeExcelOperations (after_acquire now f gr).1.
Proof.
  intros Hg. unfold after_acquire. destruct gr.2; simpl; try done.
  by apply catch_active.
Qed.

Lemma after_load_gate r f wb g : (after_load m r f wb g).1 = g.
Proof.
  unfold after_load. destruct r as [semestre d|jury].
  - by destruct (Fill.remplir m semestre d wb).
  - by destruct (jury && _).
Qed.

Lemma settle_active t r g gp :
  settle m t r g = Some gp ->
  0 <= activeExcelOperations g -> 0 <= activeExcelOperations gp.1.
Proof.
  unfold settle. intros Hs Hg.
  destruct (task_pc t), r; simplify_eq; cbn [fst]; try done.
  - by apply catch_active.
  - by rewrite after_load_gate.
  - by apply catch_active.
  - rewrite releaseExcelLock_active. lia.
Qed.

Lemma timer_active now t g gp :
  timer now t g = Some gp ->
  0 <= activeExcelOperations g -> 0 <= activeExcelOperations gp.1.
Proof.
  unfold timer. intros Ht Hg.
  destruct (task_pc t) as [w wake| | | |]; try done.
  destruct (wake <=? now); simplify_eq.
  apply after_acquire_active.
  destruct w; simpl; [by apply wait_global_active|by apply wait_file_active].
Qed.

Lemma step_active s e s' :
  step m s e = Some s' ->
  0 <= activeExcelOperations (gate s) -> 0 <= activeExcelOperations (gate s').
Proof.
  intros Hstep Hg. destruct e as [d|r nom prenom|i|i r]; simpl in Hstep.
  - destruct (0 <=? d); by simplify_eq.
  - simplify_eq; simpl. apply after_acquire_active. by apply wait_global_active.
  - destruct (tasks s !! i) as [t|]; simpl in Hstep; [|done].
    destruct (timer _ t _) as [gp|] eqn:Ht; simpl in Hstep; simplify_eq; simpl.
    by eapply timer_active.
  - destruct (tasks s !! i) as [t|]; simpl in Hstep; [|done].
    destruct (settle _ t r _) as [gp|] eqn:Hs; simpl in Hstep; simplify_eq; simpl.
    by eapply settle_active.
Qed.

Lemma run_active es s s' :
  run m s es = Some s' ->
  0 <= activeExcelOperations (gate s) -> 0 <= activeExcelOperations (gate s').
Proof.
  revert s. induction es as [|e es IH]; intros s Hrun Hg; simpl in Hrun.
  - by simplify_eq.
  - destruct (step m s e) as [s1|] eqn:Hstep; simpl in Hrun; [|done].
    eapply IH; [done|]. by eapply step_active.
Qed.

Lemma reachable_active s :
  reachable m s -> 0 <= activeExcelOperations (gate s).
Proof. intros [es Hrun]. by eapply run_active. Qed.
Lemma inv_init : inv init.
Proof. split; [intros i t Hi|intros i j ti tj Hi]; cbn in Hi; by rewrite lookup_nil in Hi. Qed.

Lemma wait_file_cases now t0 f g :
  let gr := wait_file now t0 f g in
  match gr.2 with
  | Acquired =>
      excelLocks g !! f = None
      /\ excelLocks gr.1 = <[f := {| locked := true; timestamp := now |}]> (excelLocks g)
  | _ => gr.1 = g
  end.
Proof.
  unfold wait_file. destruct (excelLocks g !! f); [by destruct (_ <? _)|done].
Qed.

Lemma wait_global_cases now t0 f g :
  let gr := wait_global now t0 f g in
  match gr.2 with
  | Acquired =>
      excelLocks g !! f = None
      /\ excelLocks gr.1 = <[f := {| locked := true; timestamp := now |}]> (excelLocks g)
  | _ => gr.1 = g
  end.
Proof.
  unfold wait_global. destruct (_ <=? _); [by destruct (_ <? _)|].
  apply wait_file_cases.
Qed.

Lemma resume_cases now w f g :
  let gr := resume now w f g in
  match gr.2 with
  | Acquired =>
      excelLocks g !! f = None
      /\ excelLocks gr.1 = <[f := {| locked := true; timestamp := now |}]> (excelLocks g)
  | _ => gr.1 = g
  end.
Proof. destruct w; [apply wait_global_cases|apply wait_file_cases]. Qed.

(** A task that is not in flight changes its counter, the table is kept. *)
Lemma inv_same_locks s i t p g' :
  inv s -> tasks s !! i = Some t ->
  excelLocks g' = excelLocks (gate s) ->
  (in_flight (set_pc t p) = true -> in_flight t = true) ->
  inv (update s i t (g', p)).
Proof.
  intros [Hhold Hex] Hi Hlocks Hfly. split.
  - intros j tj Hj Hfj. cbn [update gate tasks fst snd] in *. rewrite Hlocks.
    destruct (decide (i = j)) as [<-|Hne].
    + rewrite list_lookup_insert_eq in Hj by (by eapply lookup_lt_Some).
      injection Hj as <-. apply (Hhold i t); [done|by apply Hfly].
    + rewrite list_lookup_insert_ne in Hj by done. by apply (Hhold j tj).
  - intros j k tj tk Hj Hk Hjk Hfj Hfk. cbn [update tasks fst snd] in *.
    assert (Hold : forall n tn, <[i := set_pc t p]> (tasks s) !! n = Some tn ->
              in_flight tn = true ->
              exists tn', tasks s !! n = Some tn' /\ in_flight tn' = true
                          /\ outputFileName tn' = outputFileName tn).
    { intros n tn Hn Hfn. destruct (decide (i = n)) as [<-|Hne].
      - rewrite list_lookup_insert_eq in Hn by (by eapply lookup_lt_Some).
        injection Hn as <-. exists t. split; [done|]. split; [by apply Hfly|done].
      - rewrite list_lookup_insert_ne in Hn by done. by exists tn. }
    destruct (Hold j tj Hj Hfj) as (tj' & Hj' & Hfj' & <-).
    destruct (Hold k tk Hk Hfk) as (tk' & Hk' & Hfk' & <-).
    by apply (Hex j k).
Qed.

(** A task in flight ends and the entry of its file is deleted, or kept. *)
Lemma inv_release s i t g' st :
  inv s -> tasks s !! i = Some t -> in_flight t = true ->
  (excelLocks g' = delete (outputFileName t) (excelLocks (gate s))
   \/ excelLocks g' = excelLocks (gate s)) ->
  inv (update s i t (g', Done st)).
Proof.
  intros [Hhold Hex] Hi Hfi Hlocks. split.
  - intros j tj Hj Hfj. cbn [update gate tasks fst snd] in *.
    destruct (decide (i = j)) as [<-|Hne].
    + rewrite list_lookup_insert_eq in Hj by (by eapply lookup_lt_Some).
      by injection Hj as <-.
    + rewrite list_lookup_insert_ne in Hj by done.
      destruct Hlocks as [-> | ->]; [|by apply (Hhold j tj)].
      rewrite lookup_delete_ne; [by apply (Hhold j tj)|].
      by apply (Hex i j).
  - intros j k tj tk Hj Hk Hjk Hfj Hfk. cbn [update tasks fst snd] in *.
    destruct (decide (i = j)) as [<-|Hij].
    { rewrite list_lookup_insert_eq in Hj by (by eapply lookup_lt_Some).
      by injection Hj as <-. }
    destruct (decide (i = k)) as [<-|Hik].
    { rewrite list_lookup_insert_eq in Hk by (by eapply lookup_lt_Some).
      by injection Hk as <-. }
    rewrite list_lookup_insert_ne in Hj, Hk by done. by apply (Hex j k).
Qed.

(** A waiting task finds its file free and takes the lock. *)
Lemma inv_acquire s i t g' e :
  inv s -> tasks s !! i = Some t ->
  excelLocks (gate s) !! outputFileName t = None ->
  excelLocks g' = <[outputFileName t := e]> (excelLocks (gate s)) ->
  inv (update s i t (g', Loading)).
Proof.
  intros [Hhold Hex] Hi Hfree Hlocks.
  assert (Hother : forall j tj, tasks s !! j = Some tj -> in_flight tj = true ->
            outputFileName tj <> outputFileName t).
  { intros j tj Hj Hfj Heq. destruct (Hhold j tj Hj Hfj) as [e' He'].
    rewrite Heq in He'. congruence. }
  split.
  - intros j tj Hj Hfj. cbn [update gate tasks fst snd] in *. rewrite Hlocks.
    destruct (decide (i = j)) as [<-|Hne].
    + rewrite list_lookup_insert_eq in Hj by (by eapply lookup_lt_Some).
      injection Hj as <-. cbn. by rewrite lookup_insert_eq.
    + rewrite list_lookup_insert_ne in Hj by done.
      rewrite lookup_insert_ne by (intros Heq; by apply (Hother j tj)).
      by apply (Hhold j tj).
  - intros j k tj tk Hj Hk Hjk Hfj Hfk. cbn [update tasks fst snd] in *.
    destruct (decide (i = j)) as [<-|Hij]; destruct (decide (i = k)) as [<-|Hik];
      try done.
    + rewrite list_lookup_insert_eq in Hj by (by eapply lookup_lt_Some).
      rewrite list_lookup_insert_ne in Hk by done.
      injection Hj as <-. cbn. intros Heq. by apply (Hother k tk).
    + rewrite list_lookup_insert_eq in Hk by (by eapply lookup_lt_Some).
      rewrite list_lookup_insert_ne in Hj by done.
      injection Hk as <-. cbn. by apply (Hother j tj).
    + rewrite list_lookup_insert_ne in Hj, Hk by done. by apply (Hex j k).
Qed.

Lemma inv_ext s s' :
  gate s' = gate s -> tasks s' = tasks s -> inv s -> inv s'.
Proof.
  intros Hg Ht [Hhold Hex]. split.
  - intros i t. rewrite Hg, Ht. apply Hhold.
  - intros i j ti tj. rewrite Ht. apply Hex.
Qed.

Lemma catch_locks f g :
  excelLocks (catch f g).1 = delete f (excelLocks g)
  \/ excelLocks (catch f g).1 = excelLocks g.
Proof. unfold catch. destruct (negb _); [by left|by right]. Qed.

Lemma after_acquire_inv s i t gr :
  inv s -> tasks s !! i = Some t -> in_flight t = false ->
  is_timeout gr.2 = false ->
  match gr.2 with
  | Acquired =>
      excelLocks (gate s) !! outputFileName t = None
      /\ excelLocks gr.1
         = <[outputFileName t := {| locked := true; timestamp := clock s |}]>
             (excelLocks (gate s))
  | _ => gr.1 = gate s
  end ->
  inv (update s i t (after_acquire (clock s) (outputFileName t) gr)).
Proof.
  intros Hinv Hi Hfi Hquiet Hcases. unfold after_acquire.
  destruct gr.2 as [w delay| |]; [|done|].
  - apply inv_same_locks; [done..|by rewrite Hcases|done].
  - destruct Hcases as [Hfree Hlocks]. by eapply inv_acquire.
Qed.

Lemma settle_inv s i t r gp :
  inv s -> tasks s !! i = Some t -> settle m t r (gate s) = Some gp ->
  inv (update s i t gp).
Proof.
  intros Hinv Hi Hs. unfold settle in Hs.
  destruct (task_pc t) eqn:Hpc, r; simplify_eq;
    assert (Hfi : in_flight t = true) by (unfold in_flight; by rewrite Hpc).
  - unfold catch. apply inv_release; [done..|apply catch_locks].
  - pose proof (after_load_gate (task_route t) (outputFileName t) wb (gate s)) as Hg.
    destruct (after_load m (task_route t) (outputFileName t) wb (gate s)) as [g' p].
    cbn in Hg. subst g'. by apply inv_same_locks.
  - by apply inv_same_locks.
  - by apply inv_same_locks.
  - unfold catch. apply inv_release; [done..|apply catch_locks].
  - apply inv_release; [done..|by left].
Qed.

Lemma step_inv s e s' :
  inv s -> times_out s e = false -> step m s e = Some s' -> inv s'.
Proof.
  intros Hinv Hquiet Hstep. destruct e as [d|r nom prenom|i|i r]; cbn in Hstep.
  - destruct (0 <=? d); simplify_eq. by apply (inv_ext s).
  - simplify_eq. cbn in Hquiet.
    set (f := output_file_name nom prenom) in *.
    set (t0 := {| task_route := r; outputFileName := f;
                  task_pc := Waiting (WaitGlobal 0) 0 |}).
    set (s1 := {| gate := gate s; clock := clock s; tasks := tasks s ++ [t0] |}).
    assert (Hinv1 : inv s1).
    { destruct Hinv as [Hhold Hex]. split.
      - intros i t Hi Hfi. cbn in Hi. apply lookup_app_Some in Hi as [Hi|[_ Hi]].
        + by apply (Hhold i t).
        + apply list_lookup_singleton_Some in Hi as [_ <-]. done.
      - intros i j ti tj Hi Hj Hij Hfi Hfj. cbn in Hi, Hj.
        apply lookup_app_Some in Hi as [Hi|[_ Hi]];
          [|apply list_lookup_singleton_Some in Hi as [_ <-]; done].
        apply lookup_app_Some in Hj as [Hj|[_ Hj]];
          [|apply list_lookup_singleton_Some in Hj as [_ <-]; done].
        by apply (Hex i j). }
    assert (Hlast : tasks s1 !! length (tasks s) = Some t0).
    { cbn. rewrite lookup_app_r by done. by rewrite Nat.sub_diag. }
    pose proof (after_acquire_inv s1 (length (tasks s)) t0
                  (acquireExcelLock (clock s) f (gate s)) Hinv1 Hlast eq_refl Hquiet
                  (wait_global_cases (clock s) (clock s) f (gate s))) as Hinv'.
    eapply inv_ext; [| |exact Hinv']; [done|].
    cbn. rewrite insert_app_r_alt by done. by rewrite Nat.sub_diag.
  - destruct (tasks s !! i) as [t|] eqn:Hi; cbn in Hstep; [|done].
    cbn in Hquiet. rewrite Hi in Hquiet.
    unfold timer in Hstep. destruct (task_pc t) as [w wake| | | |] eqn:Hpc; try done.
    destruct (wake <=? clock s); cbn in Hstep; simplify_eq.
    apply after_acquire_inv; [done..|by unfold in_flight; rewrite Hpc|done|].
    apply resume_cases.
  - destruct (tasks s !! i) as [t|] eqn:Hi; cbn in Hstep; [|done].
    destruct (settle m t r (gate s)) as [gp|] eqn:Hs; cbn in Hstep; simplify_eq.
    by eapply settle_inv.
Qed.

Lemma run_inv es s s' :
  inv s -> quiet m s es = true -> run m s es = Some s' -> inv s'.
Proof.
  revert s. induction es as [|e es IH]; intros s Hinv Hquiet Hrun; cbn in *.
  - by simplify_eq.
  - apply andb_true_iff in Hquiet as [Hq Hquiet]. apply negb_true_iff in Hq.
    destruct (step m s e) as [s1|] eqn:Hstep; cbn in Hrun; [|done].
    eapply IH; [|done..]. by eapply step_inv.
Qed.

(** X1.  Mutual exclusion as long as no call of [acquireExcelLock] times out:
    in every state of such a run no two tasks in flight have the same output
    file, and every task in flight has the entry of its file in the table. *)
Theorem quiet_runs_are_exclusive es s :
  run m init es = Some s -> quiet m init es = true ->
  exclusive s /\ holds_lock s.
Proof.
  intros Hrun Hquiet.
  destruct (run_inv es init s inv_init Hquiet Hrun) as [Hhold Hex]. by split.
Qed.

(** X2.  A handler in flight that answers has called [releaseExcelLock] on its
    file, on success and in its [catch] alike, except on the two early returns
    of [remplir-excel], which answer 400 and leave the gate as it is. *)
Theorem in_flight_task_ends_with_release t r g g' st :
  in_flight t = true -> outputFileName t <> "" ->
  settle m t r g = Some (g', Done st) ->
  (g' = releaseExcelLock (outputFileName t) g /\ st <> 400)
  \/ (g' = g /\ st = 400 /\ exists semestre d, task_route t = RemplirExcel semestre d).
Proof.
  intros Hfi Hname Hs. unfold settle in Hs.
  assert (Hcatch : catch (outputFileName t) g
                   = (releaseExcelLock (outputFileName t) g, Done 500)).
  { unfold catch. by destruct (String.eqb_spec (outputFileName t) ""). }
  destruct (task_pc t), r; simplify_eq.
  - rewrite Hcatch in Hs. simplify_eq. by left.
  - unfold after_load in Hs. destruct (task_route t) as [semestre d|jury].
    + destruct (Fill.remplir m semestre d wb); simplify_eq; right; eauto.
    + destruct (jury && _); simplify_eq.
  - rewrite Hcatch in Hs. simplify_eq. by left.
  - by left.
Qed.
End SchedulerFacts.

Section GateClaims.
Import Gate Server.

(** C8, as the code has it.  [releaseExcelLock(filename)] removes the entry
    of [filename] and lowers the counter by one, but not below 0.  A second
    call leaves the lock table as the first left it and lowers the counter
    once more, so the two calls leave the state of the first exactly when
    the counter was at most 1.  The counter is never negative: neither
    after a sequence of calls of the two functions, nor in a state the two
    routes reach under the scheduler. *)
Theorem releaseExcelLock_floors_counter f g :
  excelLocks (releaseExcelLock f g) !! f = None
  /\ excelLocks (releaseExcelLock f g) = delete f (excelLocks g)
  /\ activeExcelOperations (releaseExcelLock f g)
     = Z.max 0 (activeExcelOperations g - 1)
  /\ excelLocks (releaseExcelLock f (releaseExcelLock f g))
     = excelLocks (releaseExcelLock f g)
  /\ (releaseExcelLock f (releaseExcelLock f g) = releaseExcelLock f g
      <-> activeExcelOperations g <= 1)
  /\ (forall cs, 0 <= activeExcelOperations (apply_calls Gate.init cs))
  /\ (forall (B : Builtins) m s,
        reachable m s -> 0 <= activeExcelOperations (gate s)).
Proof.
  split; [apply lookup_delete_eq|].
  split; [reflexivity|].
  split; [apply releaseExcelLock_active|].
  split; [simpl; apply delete_delete_eq|].
  split; [|split].
  - split.
    + intros Heq. apply (f_equal activeExcelOperations) in Heq.
      rewrite !releaseExcelLock_active in Heq. lia.
    + intros Hle. unfold releaseExcelLock at 1 3.
      rewrite releaseExcelLock_locks, delete_delete_eq.
      f_equal. rewrite releaseExcelLock_active.
      destruct (Z.ltb_spec (Z.max 0 (activeExcelOperations g - 1) - 1) 0);
        destruct (Z.ltb_spec (activeExcelOperations g - 1) 0); lia.
  - intros cs. by apply apply_calls_active.
  - intros B m s. apply reachable_active.
Qed.

(** The instance of the equivalence at a gate that holds one lock. *)
Lemma releaseExcelLock_floors_counter_witness :
  let g := apply_calls Gate.init [Acquire 0 "a.xlsx"] in
  releaseExcelLock "a.xlsx" (releaseExcelLock "a.xlsx" g) = releaseExcelLock "a.xlsx" g.
Proof.
  intros g.
  apply (proj1 (proj2 (proj2 (proj2 (proj2
           (releaseExcelLock_floors_counter "a.xlsx" g)))))).
  vm_compute. discriminate.
Defined.

(** C8 as stated fails where two locks are held: the second call for the
    same file lowers the counter from 1 to 0. *)
Lemma releaseExcelLock_second_call_counts :
  activeExcelOperations
    (releaseExcelLock "a.xlsx"
       (apply_calls Gate.init [Acquire 0 "a.xlsx"; Acquire 0 "b.xlsx"])) = 1
  /\ activeExcelOperations
       (releaseExcelLock "a.xlsx" (releaseExcelLock "a.xlsx"
          (apply_calls Gate.init [Acquire 0 "a.xlsx"; Acquire 0 "b.xlsx"]))) = 0.
Proof. split; vm_compute; reflexivity. Qed.
End GateClaims.

Section SchedulerRuns.
Import Gate Server Sample.

(** C1, at the input where the code leaves the claim.  A [remplir-excel]
    request takes the lock, the loaded workbook has no sheet for the phase,
    and the handler answers 400 with the lock entry still in the table and
    the counter still at 1.  The next request for the same file then waits
    in the second loop until its 30 seconds are over and answers 500. *)
Theorem remplir_excel_missing_sheet_keeps_lock :
  let req := Request (RemplirExcel "stage" record) "Dupont" "Jean" in
  exists s s',
    run mapping init [req; Settle 0 (Loaded workbook_sans_stage)] = Some s
    /\ task_pc <$> tasks s = [Done 400]
    /\ excelLocks (gate s) !! "Dupont_Jean_Evaluation.xlsx"
       = Some {| locked := true; timestamp := 0 |}
    /\ activeExcelOperations (gate s) = 1
    /\ run mapping s [req; Tick 30000] = Some s'
    /\ task_pc <$> tasks s' = [Done 400; Waiting (WaitFile 0) 100]
    /\ (fun s'' => (task_pc <$> tasks s'', excelLocks (gate s'')))
         <$> run mapping s' [Tick 1; Timer 1]
       = Some ([Done 400; Done 500], ∅).
Proof.
  do 2 eexists. split; [vm_compute; reflexivity|].
  repeat split; vm_compute; reflexivity.
Qed.

(** C2, at the input where the code leaves the claim.  A first request
    holds the lock of a file and is still loading; a second request for the
    same file times out in the second loop, and the [catch] of its handler
    releases the lock it never held; a third request for the same file then
    takes the lock while the first is still in flight. *)
Theorem timed_out_request_frees_the_holder_lock :
  exists s t0 t2,
    run mapping init
      [Request (GenererExcelComplet false) "Dupont" "Jean";
       Request (RemplirExcel "stage" record) "Dupont" "Jean";
       Tick 30001;
       Timer 1;
       Request (GenererExcelComplet false) "Dupont" "Jean"] = Some s
    /\ tasks s !! 0%nat = Some t0 /\ tasks s !! 2%nat = Some t2
    /\ in_flight t0 = true /\ in_flight t2 = true
    /\ outputFileName t0 = outputFileName t2
    /\ ~ exclusive s.
Proof.
  do 3 eexists. split; [vm_compute; reflexivity|].
  split; [reflexivity|]. split; [reflexivity|].
  repeat split.
  intros Hex. by eapply (Hex 0%nat 2%nat).
Qed.

(** C3, at the input where the code leaves the claim.  A request that has
    left the first loop and sleeps in the second does not test the counter
    again: with four other files taken in the meantime it makes the counter
    5, with five operations in flight. *)
Theorem sleeper_in_second_loop_exceeds_the_cap :
  let generer nom := Request (GenererExcelComplet false) nom "Jean" in
  exists s,
    run mapping init
      [generer "A"; generer "A"; Tick 50;
       generer "B"; generer "C"; generer "D"; Tick 50;
       Timer 1; Tick 60;
       Settle 0 (Loaded ∅); Tick 30; Settle 0 Completed;
       generer "E"; Tick 10;
       Timer 1] = Some s
    /\ activeExcelOperations (gate s) = 5
    /\ in_flight_count s = 5%nat
    /\ task_pc <$> tasks s = [Done 200; Loading; Loading; Loading; Loading; Loading]
    /\ MAX_CONCURRENT_EXCEL_OPERATIONS < activeExcelOperations (gate s).
Proof.
  eexists. split; [vm_compute; reflexivity|].
  repeat split; vm_compute; reflexivity.
Qed.

(** A second request waits for the first, which saves and releases. *)
Lemma quiet_runs_are_exclusive_witness :
  exists s,
    run mapping init
      [Request (GenererExcelComplet false) "Dupont" "Jean";
       Request (RemplirExcel "stage" record) "Dupont" "Jean";
       Tick 100; Timer 1;
       Settle 0 (Loaded workbook_stage); Settle 0 Completed;
       Tick 100; Timer 1] = Some s
    /\ exclusive s.
Proof.
  pose proof (quiet_runs_are_exclusive mapping
                [Request (GenererExcelComplet false) "Dupont" "Jean";
                 Request (RemplirExcel "stage" record) "Dupont" "Jean";
                 Tick 100; Timer 1;
                 Settle 0 (Loaded workbook_stage); Settle 0 Completed;
                 Tick 100; Timer 1]) as Hquiet.
  destruct (run mapping init _) as [s|] eqn:Hrun;
    [|vm_compute in Hrun; discriminate Hrun].
  exists s. split; [reflexivity|].
  apply (Hquiet s eq_refl). vm_compute. reflexivity.
Defined.

(** A save that fails. *)
Lemma in_flight_task_ends_with_release_witness :
  let t := {| task_route := GenererExcelComplet false;
              outputFileName := "Dupont_Jean_Evaluation.xlsx";
              task_pc := Saving |} in
  let g := (acquireExcelLock 0 "Dupont_Jean_Evaluation.xlsx" Gate.init).1 in
  (catch "Dupont_Jean_Evaluation.xlsx" g).1 = releaseExcelLock "Dupont_Jean_Evaluation.xlsx" g.
Proof.
  intros t g.
  destruct (in_flight_task_ends_with_release mapping t Failed g
              (catch "Dupont_Jean_Evaluation.xlsx" g).1 500 eq_refl
              ltac:(discriminate) eq_refl) as [[Hg _]|(_ & Hst & _)];
    [exact Hg|discriminate Hst].
Defined.
End SchedulerRuns.

(** ** The cell-fill engine *)

Section FillFacts.
Import Mapping Fill.
Context `{Builtins}.
Variable m : Mapping.t.

Lemma clear_ref_lookup r0 sh r :
  clear_ref sh r0 !! r
  = if decide (r = r0) then (if is_mark (read sh r) then Some Null else sh !! r)
    else sh !! r.
Proof.
  unfold clear_ref. case_decide as Hr.
  - subst r0. destruct (is_mark (read sh r)); [apply lookup_insert_eq|done].
  - destruct (is_mark (read sh r0)); [by apply lookup_insert_ne|done].
Qed.

Lemma clear_refs_lookup refs sh r :
  foldl clear_ref sh refs !! r
  = if decide (r ∈ refs) then (if is_mark (read sh r) then Some Null else sh !! r)
    else sh !! r.
Proof.
  revert sh. induction refs as [|r0 refs IH]; intros sh; cbn [foldl].
  - rewrite decide_False; [done|]. by intros ?%elem_of_nil.
  - rewrite IH. unfold read. rewrite !clear_ref_lookup.
    destruct (decide (r = r0)) as [->|Hne].
    + rewrite (decide_True (P := r0 ∈ r0 :: refs)) by left.
      fold (read sh r0). destruct (is_mark (read sh r0)) eqn:Hm; simpl.
      * by destruct (decide (r0 ∈ refs)).
      * fold (read sh r0). rewrite Hm. by destruct (decide (r0 ∈ refs)).
    + destruct (decide (r ∈ refs)) as [Hin|Hnin].
      * rewrite decide_True; [done|by right].
      * rewrite decide_False; [done|].
        intros [Heq|Hin]%elem_of_cons; [by apply Hne|by apply Hnin].
Qed.

Lemma writes_lookup ws sh r :
  foldl write_ref sh ws !! r
  = match written ws r with Some v => Some v | None => sh !! r end.
Proof.
  revert sh. induction ws as [|w ws IH]; intros sh; cbn [foldl written]; [done|].
  rewrite IH. destruct (written ws r); [done|].
  unfold write_ref. case_decide as Hw.
  - subst r. apply lookup_insert_eq.
  - by apply lookup_insert_ne.
Qed.

Lemma clear_write_idem refs ws sh :
  foldl write_ref (foldl clear_ref (foldl write_ref (foldl clear_ref sh refs) ws) refs) ws
  = foldl write_ref (foldl clear_ref sh refs) ws.
Proof.
  apply map_eq; intros r.
  rewrite (writes_lookup ws (foldl clear_ref (foldl write_ref _ _) _)).
  rewrite (writes_lookup ws (foldl clear_ref sh refs)).
  destruct (written ws r) eqn:Hw; [done|].
  rewrite (clear_refs_lookup refs (foldl write_ref _ _)).
  unfold read at 1. rewrite !writes_lookup, Hw, !clear_refs_lookup.
  destruct (decide (r ∈ refs)); [|done].
  destruct (is_mark (read sh r)) eqn:Hm; simpl; [done|].
  fold (read sh r). by rewrite Hm.
Qed.

Lemma foldl_bind {A B C} (f : A -> C -> A) (g : B -> list C) a l :
  foldl f a (l ≫= g) = foldl (fun a x => foldl f a (g x)) a l.
Proof.
  revert a. induction l as [|x l IH]; intros a; [done|].
  cbn [mbind list_bind foldl]. change (foldl f a (g x ++ (l ≫= g))%list = foldl (fun a x => foldl f a (g x)) (foldl f a (g x)) l).
  by rewrite foldl_app, IH.
Qed.

Lemma foldl_pointwise {A B} (f g : A -> B -> A) a l :
  (forall a x, f a x = g a x) -> foldl f a l = foldl g a l.
Proof.
  intros Hfg. revert a. induction l as [|x l IH]; intros a; [done|].
  cbn [foldl]. by rewrite Hfg, IH.
Qed.

Lemma clear_cells_refs addrs sh :
  foldl clear_cell sh addrs = foldl clear_ref sh (omap parse_address addrs).
Proof.
  revert sh. induction addrs as [|a addrs IH]; intros sh; [done|].
  cbn [foldl omap list_omap]. rewrite IH. unfold clear_cell.
  by destruct (parse_address a).
Qed.

Lemma clear_pass_refs comps sh :
  clear_pass comps sh = foldl clear_ref sh (clear_refs comps).
Proof.
  unfold clear_refs, clear_addresses, all_criteres.
  rewrite <- clear_cells_refs, !foldl_bind. unfold clear_pass.
  apply foldl_pointwise; intros sh1 kc. apply foldl_pointwise; intros sh2 c.
  unfold clear_critere. by rewrite foldl_fmap.
Qed.

Lemma try_set_cell_writes sh a v :
  try_set_cell sh a v = foldl write_ref sh (cell_write a v).
Proof.
  unfold try_set_cell, set_cell, cell_write. by destruct (parse_address a).
Qed.

Lemma mark_pass_writes comps d sh :
  mark_pass m comps d sh = foldl write_ref sh (mark_writes m d (all_criteres comps)).
Proof.
  unfold mark_pass, all_criteres.
  transitivity (foldl (mark_critere m d) sh (comps ≫= fun kc => criteres kc.2)).
  { by rewrite foldl_bind. }
  generalize (comps ≫= fun kc => criteres kc.2). intros cs.
  revert sh. induction cs as [|c cs IH]; intros sh; [done|].
  cbn [foldl]. rewrite IH. unfold mark_writes. cbn [omap list_omap].
  unfold mark_critere. destruct (mark_target m d c) as [a|]; cbn [mbind option_bind]; [|done].
  rewrite try_set_cell_writes. unfold cell_write.
  by destruct (parse_address a).
Qed.

Lemma writes_only_id : writes_only (fun sh => sh).
Proof. by exists []. Qed.

Lemma writes_only_set a v : writes_only (fun sh => try_set_cell sh a v).
Proof. exists (cell_write a v). intros sh. apply try_set_cell_writes. Qed.

Lemma writes_only_compose F G :
  writes_only F -> writes_only G -> writes_only (fun sh => G (F sh)).
Proof.
  intros [ws1 H1] [ws2 H2]. exists (ws1 ++ ws2)%list. intros sh.
  by rewrite H2, H1, foldl_app.
Qed.

Lemma write_comment_writes semestre d : writes_only (write_comment m semestre d).
Proof.
  unfold write_comment. destruct (commentaire_global m !! semestre) as [a|];
    [|apply writes_only_id].
  destruct (negb _ && _); [apply writes_only_set|apply writes_only_id].
Qed.

Lemma write_bonus_writes cs d : writes_only (write_bonus cs d).
Proof.
  unfold write_bonus. destruct (bonus cs) as [ch|]; [|apply writes_only_id].
  destruct (EvalData.bonus d);
    first [apply writes_only_id | apply writes_only_set].
Qed.

Lemma write_note_finale_writes cs d : writes_only (write_note_finale cs d).
Proof.
  unfold write_note_finale. destruct (note_finale cs) as [ch|]; [|apply writes_only_id].
  destruct (EvalData.note_finale d);
    first [apply writes_only_id | apply writes_only_set].
Qed.

Lemma write_champs_writes semestre d : writes_only (write_champs m semestre d).
Proof.
  unfold write_champs. destruct (champs_supplementaires m !! semestre) as [cs|];
    [|apply writes_only_id].
  apply (writes_only_compose (write_bonus cs d) (write_note_finale cs d));
    [apply write_bonus_writes|apply write_note_finale_writes].
Qed.

Lemma fill_sheet_shape semestre comps d :
  exists ws, forall sh,
    fill_sheet m semestre comps d sh
    = foldl write_ref (foldl clear_ref sh (clear_refs comps)) ws.
Proof.
  destruct (write_comment_writes semestre d) as [ws1 H1].
  destruct (write_champs_writes semestre d) as [ws2 H2].
  exists (mark_writes m d (all_criteres comps) ++ ws1 ++ ws2)%list. intros sh.
  unfold fill_sheet. by rewrite H2, H1, mark_pass_writes, clear_pass_refs, !foldl_app.
Qed.

Lemma fill_sheet_idem semestre comps d sh :
  fill_sheet m semestre comps d (fill_sheet m semestre comps d sh)
  = fill_sheet m semestre comps d sh.
Proof.
  destruct (fill_sheet_shape semestre comps d) as [ws Hws].
  rewrite !Hws. apply clear_write_idem.
Qed.

Lemma fill_engine_idem semestre d wb :
  fill_engine m semestre d (fill_engine m semestre d wb) = fill_engine m semestre d wb.
Proof.
  unfold fill_engine.
  destruct (remplir m semestre d wb) as [| |wb'] eqn:Hr; rewrite ?Hr; [done..|].
  unfold remplir in *.
  destruct (sheetNames m !! semestre) as [name|]; [|done].
  destruct (wb !! name) as [sh|]; [|done].
  destruct (evaluations m !! semestre) as [comps|]; [|done].
  injection Hr as <-.
  by rewrite lookup_insert_eq, insert_insert_eq, fill_sheet_idem.
Qed.

Lemma clear_pass_unmarks comps sh r :
  r ∈ clear_refs comps -> is_mark (read (clear_pass comps sh) r) = false.
Proof.
  intros Hr. rewrite clear_pass_refs. unfold read at 1.
  rewrite clear_refs_lookup, decide_True by done.
  destruct (is_mark (read sh r)) eqn:Hm; [done|]. by fold (read sh r).
Qed.

Lemma scanned_ref comps c col r :
  c ∈ all_criteres comps -> col ∈ colonnes ->
  parse_address (address col c) = Some r -> r ∈ clear_refs comps.
Proof.
  intros Hc Hcol Hr. unfold clear_refs. apply list_elem_of_omap.
  exists (address col c). split; [|done].
  unfold clear_addresses. apply list_elem_of_bind. exists c. split; [|done].
  apply list_elem_of_fmap. by exists col.
Qed.

Lemma written_elem ws r v : written ws r = Some v -> (r, v) ∈ ws.
Proof.
  induction ws as [|w ws IH]; cbn [written]; [done|].
  destruct (written ws r) as [v'|].
  - intros [= ->]. right. by apply IH.
  - case_decide as Hw; [|done]. intros [= <-]. subst r. destruct w; left.
Qed.

Lemma marks_after_fill_are_current comps d sh r :
  r ∈ clear_refs comps ->
  is_mark (read (mark_pass m comps d (clear_pass comps sh)) r) = true ->
  exists c a, c ∈ all_criteres comps /\ mark_target m d c = Some a
              /\ parse_address a = Some r.
Proof.
  intros Hr. rewrite mark_pass_writes. unfold read at 1. rewrite writes_lookup.
  destruct (written _ r) as [v|] eqn:Hw.
  - intros _. apply written_elem in Hw. unfold mark_writes in Hw.
    apply list_elem_of_omap in Hw as (c & Hc & Hw). exists c.
    destruct (mark_target m d c) as [a|]; cbn [mbind option_bind] in Hw; [|done].
    exists a. destruct (parse_address a) as [r'|]; cbn [mbind option_bind] in Hw; [|done].
    by simplify_eq.
  - fold (read (clear_pass comps sh) r). by rewrite clear_pass_unmarks.
Qed.
End FillFacts.

Section FillClaims.
Import Mapping Fill.
Context `{Builtins}.
Variable m : Mapping.t.

(** C7, as the code has it.  With auxiliary fields configured for the phase,
    the bonus is written only when the record has one: a bonus that is
    [undefined] is skipped, and any other bonus is written as
    [parseFloat(bonus) || 0], which is 0 when the bonus is not numeric.  The
    final score is skipped when it is [undefined] or [null] and written as
    [parseFloat(note_finale)] otherwise. *)
Theorem champs_supplementaires_written semestre cs d sh :
  champs_supplementaires m !! semestre = Some cs ->
  write_champs m semestre d sh = write_note_finale cs d (write_bonus cs d sh)
  /\ (EvalData.bonus d = Undefined -> write_bonus cs d sh = sh)
  /\ (forall ch, bonus cs = Some ch -> EvalData.bonus d <> Undefined ->
        write_bonus cs d sh
        = try_set_cell sh (cellule ch)
            (Num (num_or_zero (parseFloat (EvalData.bonus d)))))
  /\ (truthy_num (parseFloat (EvalData.bonus d)) = false ->
        num_or_zero (parseFloat (EvalData.bonus d)) = Js.zero)
  /\ num_or_zero PrimFloat.nan = Js.zero
  /\ (EvalData.note_finale d = Undefined \/ EvalData.note_finale d = Null ->
        write_note_finale cs d sh = sh)
  /\ (forall ch, note_finale cs = Some ch ->
        EvalData.note_finale d <> Undefined -> EvalData.note_finale d <> Null ->
        write_note_finale cs d sh
        = try_set_cell sh (cellule ch) (Num (parseFloat (EvalData.note_finale d)))).
Proof.
  intros Hcs. unfold write_champs, write_bonus, write_note_finale, num_or_zero.
  rewrite Hcs. split; [done|].
  split; [intros ->; by destruct (bonus cs)|].
  split; [intros ch -> Hb; by destruct (EvalData.bonus d)|].
  split; [by intros ->|]. split; [reflexivity|].
  split; [intros [-> | ->]; by destruct (note_finale cs)|].
  intros ch -> Hu Hn. by destruct (EvalData.note_finale d).
Qed.
End FillClaims.

Section FillExamples.
Import Mapping Fill Sample.

(** The [stage] phase of the sample mapping, on the record without bonus. *)
Lemma champs_supplementaires_written_witness :
  write_bonus {| bonus := Some {| cellule := "C63" |};
                 note_finale := Some {| cellule := "C65" |};
                 note_calculee := Some {| cellule := "C64" |} |} record sheet_stage
  = sheet_stage.
Proof.
  apply (champs_supplementaires_written mapping "stage" _ record sheet_stage);
    reflexivity.
Defined.

(** C7 as stated fails on a record without bonus: the cell configured for the
    bonus keeps the 5 it held and is not set to 0. *)
Lemma missing_bonus_is_not_written :
  EvalData.bonus record = Undefined
  /\ Mapping.bonus <$> (champs_supplementaires mapping !! "stage")
     = Some (Some {| cellule := "C63" |})
  /\ read sheet_stage ("C", 63%N) = Num 5%float
  /\ read (fill_sheet mapping "stage" competences_stage record sheet_stage) ("C", 63%N)
     = Num 5%float.
Proof. repeat split; vm_compute; reflexivity. Qed.

(** A fill over a sheet marked for other levels: the old marks of rows 21 and
    33 are erased and the marks of the record are set. *)
Example refill_moves_the_mark :
  let sh := fill_sheet mapping "stage" competences_stage record sheet_stage in
  read sheet_stage ("D", 21%N) = Str "x"
  /\ read sh ("D", 21%N) = Null /\ read sh ("E", 21%N) = Str "x"
  /\ read sh ("F", 33%N) = Null /\ read sh ("C", 33%N) = Str "x".
Proof. repeat split; vm_compute; reflexivity. Qed.
End FillExamples.

(** ** The sign of a binary64 sum *)

Section FloatSign.

Lemma shr_1_nonneg mrs : 0 <= shr_m mrs -> 0 <= shr_m (shr_1 mrs).
Proof. destruct mrs as [[|[p|p|]|p] r s]; cbn; lia. Qed.

Lemma iter_pos_shr_nonneg p : forall mrs,
  0 <= shr_m mrs -> 0 <= shr_m (SpecFloat.iter_pos shr_1 p mrs).
Proof.
  induction p as [p IH|p IH|]; intros mrs Hm; cbn [SpecFloat.iter_pos].
  - by apply IH, IH, shr_1_nonneg.
  - by apply IH, IH.
  - by apply shr_1_nonneg.
Qed.

Lemma shr_fexp_nonneg m e l :
  0 <= m -> 0 <= shr_m (SpecFloat.shr_fexp prec emax m e l).1.
Proof.
  intros Hm. unfold shr_fexp, shr.
  assert (Hrec : 0 <= shr_m (shr_record_of_loc m l)) by (by destruct l as [|[]]).
  destruct (_ - e) as [|p|p]; cbn [fst]; [done| |done].
  by apply iter_pos_shr_nonneg.
Qed.

Lemma round_nearest_even_nonneg m l : 0 <= m -> 0 <= round_nearest_even m l.
Proof.
  intros Hm. destruct l as [|[]]; cbn [round_nearest_even]; try lia.
  destruct (Z.even m); lia.
Qed.

Lemma binary_round_aux_nonneg m e l :
  0 <= m -> sf_nonneg (binary_round_aux prec emax false m e l) = true.
Proof.
  intros Hm. unfold binary_round_aux.
  pose proof (shr_fexp_nonneg m e l Hm) as H1.
  destruct (shr_fexp prec emax m e l) as [mrs' e'] eqn:E1. cbn [fst] in H1.
  pose proof (shr_fexp_nonneg (round_nearest_even (shr_m mrs') (loc_of_shr_record mrs'))
                e' loc_Exact (round_nearest_even_nonneg _ _ H1)) as H2.
  destruct (shr_fexp prec emax (round_nearest_even _ _) e' loc_Exact) as [mrs'' e''].
  cbn [fst] in H2. destruct (shr_m mrs'') as [|p|p]; [done| |lia].
  by destruct (e'' <=? _).
Qed.

Lemma SFadd_nonneg x y :
  sf_nonneg x = true -> sf_nonneg y = true -> sf_nonneg (SF64add x y) = true.
Proof.
  destruct x as [sx|[]| |[] mx ex], y as [sy|[]| |[] my ey]; try done.
  - by destruct sx, sy.
  - intros _ _. unfold SF64add, SFadd, binary_normalize, cond_Zopp, binary_round.
    destruct (shl_align mx _ _) as [ma ea], (shl_align my _ _) as [mb eb].
    cbn [fst]. change (Z.pos ma + Z.pos mb) with (Z.pos (ma + mb)). cbv beta iota.
    destruct (shl_align _ _ _) as [mz ez].
    by apply binary_round_aux_nonneg.
Qed.

(** The sum of two numbers that are not negative is not negative. *)
Lemma add_nonneg x y : nonneg x = true -> nonneg y = true -> nonneg (x + y) = true.
Proof. unfold nonneg. rewrite FloatAxioms.add_spec. apply SFadd_nonneg. Qed.

Lemma gt_nonneg x : Js.gt x Js.zero = true -> nonneg x = true.
Proof.
  unfold Js.gt, nonneg. rewrite FloatAxioms.compare_spec.
  change (Prim2SF Js.zero) with (S754_zero false).
  by destruct (Prim2SF x) as [s|[]| |[] m e].
Qed.

Lemma nonneg_signed x :
  nonneg x = true -> Js.num_eq x Js.zero || Js.gt x Js.zero = true.
Proof.
  unfold Js.gt, Js.num_eq, nonneg. rewrite FloatAxioms.compare_spec.
  change (Prim2SF Js.zero) with (S754_zero false).
  by destruct (Prim2SF x) as [s|[]| |[] m e].
Qed.
End FloatSign.

(** ** The score calculator *)

Section CalcFacts.
Import Calc CalcSpec.
Context `{Builtins}.
Variable sh : sheet.

Lemma cell_at_row col ligne :
  row_ok ligne = true -> col ∈ ["A"; "C"; "D"; "E"; "F"] ->
  cell_at sh col ligne = Some (read sh (col, Z.to_N ligne)).
Proof.
  intros Hok Hcol. unfold row_ok in Hok. rewrite forallb_forall in Hok.
  specialize (Hok col). rewrite bool_decide_eq_true in Hok.
  unfold cell_at, cell_value. rewrite Hok; [done|]. by apply list_elem_of_In.
Qed.

Lemma or_zero_numeric r :
  numeric sh r -> or_zero (read sh r) = Num (number_at sh r).
Proof.
  unfold numeric, number_at, or_zero, num_or_zero.
  destruct (read sh r) as [| |x|s]; simpl; try done.
  by destruct (truthy_num x).
Qed.

Lemma numbers_only_at cfg r :
  numbers_only sh cfg = true -> r ∈ number_cells cfg -> numeric sh r.
Proof.
  unfold numbers_only, numeric. rewrite forallb_forall. intros Hall Hr.
  apply negb_true_iff, Hall. by apply list_elem_of_In.
Qed.

Lemma number_cells_row cfg l ligne :
  l ∈ groups cfg -> ligne ∈ l -> ("A", Z.to_N ligne) ∈ number_cells cfg.
Proof.
  intros Hl Hligne. unfold number_cells. apply elem_of_app. left.
  apply list_elem_of_fmap. exists ligne. split; [done|].
  apply list_elem_of_join. by exists l.
Qed.

Lemma number_cells_poids cfg a r :
  a ∈ (poids_c01 cfg :: poids_c03 cfg
       :: option_list (poids_c08 cfg) ++ option_list (poids_c10 cfg))%list ->
  parse_address a = Some r -> r ∈ number_cells cfg.
Proof.
  intros Ha Hr. unfold number_cells. apply elem_of_app. right. apply elem_of_app. left.
  apply list_elem_of_omap. by exists a.
Qed.

Lemma number_cells_bonus cfg : ("C", 63%N) ∈ number_cells cfg.
Proof.
  unfold number_cells. apply elem_of_app. right. apply elem_of_app. right. left.
Qed.

Lemma valeur_position ligne :
  valeur (read sh ("C", Z.to_N ligne)) (read sh ("D", Z.to_N ligne))
         (read sh ("E", Z.to_N ligne)) (read sh ("F", Z.to_N ligne))
  = mark_position sh ligne.
Proof.
  unfold valeur, mark_position. cbn [List.find fst snd].
  by repeat destruct (is_x _).
Qed.

Lemma ligne_step_contribution s c ligne :
  row_ok ligne = true -> numeric sh ("A", Z.to_N ligne) ->
  ligne_step sh (s, Num c) ligne
  = Some (match contribution sh ligne with
          | Some x => ((s + x.1)%float, Num (c + x.2)%float)
          | None => (s, Num c)
          end).
Proof.
  intros Hok Hnum. unfold ligne_step.
  rewrite !cell_at_row by (done || set_solver). cbn [mbind option_bind].
  rewrite valeur_position, or_zero_numeric by done.
  unfold contribution. destruct (mark_position sh ligne) as [p|]; cbn [mbind option_bind]; [|done].
  unfold gt_zero, mul_num. cbn [to_number fst snd Js.add].
  by destruct (Js.gt _ _).
Qed.

Lemma lignes_loop_sums s c lignes :
  forallb row_ok lignes = true ->
  (forall ligne, ligne ∈ lignes -> numeric sh ("A", Z.to_N ligne)) ->
  lignes_loop sh (s, Num c) lignes
  = Some (foldl (fun s x => (s + x.1)%float) s (omap (contribution sh) lignes),
          Num (foldl (fun c x => (c + x.2)%float) c (omap (contribution sh) lignes))).
Proof.
  revert s c. induction lignes as [|ligne lignes IH]; intros s c Hok Hnum; [done|].
  cbn [forallb] in Hok. apply andb_true_iff in Hok as [Hok1 Hok2].
  cbn [lignes_loop]. rewrite ligne_step_contribution by (done || apply Hnum; left).
  cbn [mbind option_bind omap list_omap].
  destruct (contribution sh ligne) as [x|]; cbn [foldl];
    apply IH; try done; intros l Hl; apply Hnum; by right.
Qed.

Lemma calculerMoyenneCompetence_average lignes :
  forallb row_ok lignes = true ->
  (forall ligne, ligne ∈ lignes -> numeric sh ("A", Z.to_N ligne)) ->
  signed_total sh lignes = true ->
  calculerMoyenneCompetence sh lignes = Some (average sh lignes).
Proof.
  intros Hok Hnum Hsign. unfold calculerMoyenneCompetence.
  rewrite lignes_loop_sums by done. cbn [mbind option_bind fst snd].
  unfold gt_zero, average. cbn [to_number].
  fold (weighted_sum sh lignes) (weight_total sh lignes).
  unfold signed_total, Js.num_eq, Js.gt in *.
  by destruct (PrimFloat.compare (weight_total sh lignes) Js.zero).
Qed.

Lemma contribution_nonneg ligne c :
  contribution sh ligne = Some c -> nonneg c.2 = true.
Proof.
  unfold contribution. destruct (mark_position sh ligne) as [p|]; cbn; [|done].
  destruct (Js.gt _ _) eqn:Hgt; [|done]. intros [= <-]. by apply gt_nonneg.
Qed.

(** The weight total of any list of rows is zero or positive. *)
Lemma weight_total_signed lignes : signed_total sh lignes = true.
Proof.
  unfold signed_total. apply nonneg_signed. unfold weight_total.
  assert (Hall : forall c, c ∈ omap (contribution sh) lignes -> nonneg c.2 = true).
  { intros c (ligne & _ & Hc)%list_elem_of_omap. by eapply contribution_nonneg. }
  assert (Hzero : nonneg Js.zero = true) by reflexivity.
  revert Hzero Hall. generalize Js.zero. generalize (omap (contribution sh) lignes).
  intros cs. induction cs as [|c cs IH]; intros s Hs Hall; cbn [foldl]; [done|].
  apply IH.
  - apply add_nonneg; [done|]. apply Hall. left.
  - intros c' Hc'. apply Hall. by right.
Qed.

Lemma lignesConfig_ok semestre cfg :
  lignesConfig semestre = Some cfg -> config_ok cfg = true.
Proof.
  unfold lignesConfig. intros Hcfg.
  destruct (String.eqb semestre "stage"); [by injection Hcfg as <-|].
  destruct (String.eqb semestre "revue1"); [by injection Hcfg as <-|].
  destruct (_ || _); [by injection Hcfg as <-|done].
Qed.

Lemma group_term_read lignes poids_addr :
  group_ok lignes poids_addr = true ->
  (forall l ligne, lignes = Some l -> ligne ∈ l -> numeric sh ("A", Z.to_N ligne)) ->
  (forall a r, poids_addr = Some a -> parse_address a = Some r -> numeric sh r) ->
  (forall l, lignes = Some l -> signed_total sh l = true) ->
  exists moyenne w,
    moyenne_opt sh lignes = Some moyenne /\ poids sh poids_addr = Some w
    /\ mul_num moyenne w = group_term sh lignes (poids_addr ≫= parse_address).
Proof.
  intros Hok Hrows Hpoids Hsign. destruct lignes as [l|], poids_addr as [a|]; try done.
  - cbn [group_ok] in Hok. apply andb_true_iff in Hok as [Hrok Hcol].
    unfold in_column_A in Hcol.
    destruct (parse_address a) as [[col n]|] eqn:Ha; [|done].
    apply String.eqb_eq in Hcol as ->.
    exists (average sh l), (Num (number_at sh ("A", n))). split; [|split].
    + cbn [moyenne_opt]. apply calculerMoyenneCompetence_average; [done| |by apply Hsign].
      intros ligne Hligne. by apply (Hrows l).
    + unfold poids, cell_value. rewrite Ha. cbn [mbind option_bind].
      rewrite or_zero_numeric; [done|]. by apply (Hpoids a).
    + cbn [mbind option_bind]. by rewrite Ha.
  - exists Js.zero, (Num Js.zero). by repeat split.
Qed.

Lemma calcul_formula semestre cfg :
  lignesConfig semestre = Some cfg ->
  numbers_only sh cfg = true ->
  calcul sh semestre = Some (Num (note sh cfg)).
Proof.
  intros Hcfg Hnum. pose proof (lignesConfig_ok _ _ Hcfg) as Hok.
  assert (Hsign : forallb (signed_total sh) (groups cfg) = true).
  { apply forallb_forall. intros l _. apply weight_total_signed. }
  unfold config_ok in Hok.
  apply andb_true_iff in Hok as [Hok Hok10].
  apply andb_true_iff in Hok as [Hok Hok8].
  apply andb_true_iff in Hok as [Hok1 Hok3].
  assert (Hrow : forall l ligne, l ∈ groups cfg -> ligne ∈ l ->
                                 numeric sh ("A", Z.to_N ligne)).
  { intros l ligne Hl Hligne. apply (numbers_only_at cfg); [done|].
    by apply (number_cells_row cfg l). }
  assert (Hpoids : forall a r,
            a ∈ (poids_c01 cfg :: poids_c03 cfg
                 :: option_list (poids_c08 cfg) ++ option_list (poids_c10 cfg))%list ->
            parse_address a = Some r -> numeric sh r).
  { intros a r Ha Hr. apply (numbers_only_at cfg); [done|].
    by apply (number_cells_poids cfg a). }
  unfold groups in Hsign, Hrow. cbn [forallb] in Hsign.
  apply andb_true_iff in Hsign as [Hs1 Hsign].
  apply andb_true_iff in Hsign as [Hs3 Hsign].
  rewrite forallb_app in Hsign. apply andb_true_iff in Hsign as [Hs8 Hs10].
  destruct (group_term_read (Some (c01 cfg)) (Some (poids_c01 cfg)))
    as (m1 & w1 & Hm1 & Hw1 & Ht1); [done| | |by intros l [= <-]|].
  { intros l ligne [= <-]. apply Hrow. left. }
  { intros a r [= <-]. apply Hpoids. left. }
  destruct (group_term_read (Some (c03 cfg)) (Some (poids_c03 cfg)))
    as (m3 & w3 & Hm3 & Hw3 & Ht3); [done| | |by intros l [= <-]|].
  { intros l ligne [= <-]. apply Hrow. right; left. }
  { intros a r [= <-]. apply Hpoids. right; left. }
  destruct (group_term_read (c08 cfg) (poids_c08 cfg))
    as (m8 & w8 & Hm8 & Hw8 & Ht8); [done| | | |].
  { intros l ligne Hl. apply Hrow. rewrite Hl. right; right. apply elem_of_app. left. left. }
  { intros a r Ha. apply Hpoids. rewrite Ha. right; right. apply elem_of_app. left. left. }
  { intros l Hl; rewrite Hl in Hs8; cbn in Hs8; by apply andb_true_iff in Hs8 as [-> _]. }
  destruct (group_term_read (c10 cfg) (poids_c10 cfg))
    as (m10 & w10 & Hm10 & Hw10 & Ht10); [done| | | |].
  { intros l ligne Hl. apply Hrow. rewrite Hl. right; right. apply elem_of_app. right. left. }
  { intros a r Ha. apply Hpoids. rewrite Ha. right; right. apply elem_of_app. right. left. }
  { intros l Hl; rewrite Hl in Hs10; cbn in Hs10; by apply andb_true_iff in Hs10 as [-> _]. }
  unfold calcul. rewrite Hcfg. cbn [mbind option_bind].
  cbn [moyenne_opt] in Hm1, Hm3. rewrite Hm1, Hm3. cbn [mbind option_bind].
  rewrite Hm8, Hm10. cbn [mbind option_bind].
  rewrite Hw1, Hw3. cbn [mbind option_bind]. rewrite Hw8, Hw10. cbn [mbind option_bind].
  change (cell_value sh "C63") with (Some (read sh ("C", 63%N))). cbn [mbind option_bind].
  rewrite or_zero_numeric
    by (apply (numbers_only_at cfg); [done|apply number_cells_bonus]).
  rewrite Ht1, Ht3, Ht8, Ht10.
  cbn [Js.add to_number]. reflexivity.
Qed.

(** C4, as the code has it.  When the configured cell reads as [undefined]
    and the cells the computation takes a number from (the weight cell in
    column A of every row of a group, the weight cell of every group, and the
    bonus cell C63) hold numbers or nothing, the route answers the score of
    the specification: the average of each competency group is its weighted
    sum over its weight total, 0 when the total is 0; a row counts the
    position of its marked column times its weight, and nothing without a
    mark or with a weight that is not positive; the sum of the averages times
    the group weights is scaled by 20/3, the bonus is added and the result is
    rounded to two decimals; the groups C08 and C10 of [revue1] are absent and
    count 0.  No other cell of the sheet is constrained. *)
Theorem note_calculee_fallback semestre cfg cellAddress r :
  lignesConfig semestre = Some cfg ->
  parse_address cellAddress = Some r ->
  read sh r = Undefined ->
  numbers_only sh cfg = true ->
  note_of_sheet sh cellAddress semestre = Some (Num (note sh cfg))
  /\ (semestre = "revue1" -> c08 cfg = None /\ c10 cfg = None).
Proof.
  intros Hcfg Hr Hund Hnum. split.
  - unfold note_of_sheet, cell_value.
    rewrite Hr. cbn [mbind option_bind]. rewrite Hund.
    by rewrite (calcul_formula semestre cfg).
  - intros ->. vm_compute in Hcfg. by injection Hcfg as <-.
Qed.
End CalcFacts.

Section CalcClaims.
Import Calc CalcSpec.
Context `{Builtins}.


Variable m : Mapping.t.

(** C10.  For a student that exists, the route answers
    [{ note_calculee: null }] when the file is missing, when no cell is
    configured for the computed score of the phase, and when the loaded
    workbook has no sheet for the phase; it never answers 404, and it answers
    500 only when loading the workbook or addressing the configured cell
    throws. *)
Theorem note_calculee_null_answers eleves eleveId semestre exists_file load eleve :
  find_eleve eleves eleveId = Some eleve ->
  let answer := note_calculee_route m eleves eleveId semestre exists_file load in
  (exists_file = false -> answer = Json Null)
  /\ (note_calculee_cell m semestre = None -> answer = Json Null)
  /\ (forall wb, load = Some wb ->
        sheet_of wb (Mapping.sheetNames m !! semestre) = None -> answer = Json Null)
  /\ answer <> NotFound
  /\ (answer = ServerError ->
        exists_file = true
        /\ exists cellAddress,
             note_calculee_cell m semestre = Some cellAddress
             /\ (load = None
                 \/ exists wb sh,
                      load = Some wb
                      /\ sheet_of wb (Mapping.sheetNames m !! semestre) = Some sh
                      /\ parse_address cellAddress = None)).
Proof.
  intros Heleve answer. subst answer. unfold note_calculee_route. rewrite Heleve.
  destruct exists_file; cbn [negb]; [|by split_and!].
  destruct (note_calculee_cell m semestre) as [cellAddress|]; [|by split_and!].
  destruct load as [wb|].
  - destruct (sheet_of wb (Mapping.sheetNames m !! semestre)) as [sh|] eqn:Hsh;
      [|by split_and!].
    unfold note_of_sheet, cell_value.
    destruct (parse_address cellAddress) as [r|] eqn:Hr; cbn [mbind option_bind].
    + split_and!; try done.
      * intros wb' [= <-] Hnone. congruence.
      * by destruct (read sh r).
      * by destruct (read sh r).
    + split_and!; try done.
      * intros wb' [= <-] Hnone. congruence.
      * intros _. split; [done|]. exists cellAddress. split; [done|].
        right. by exists wb, sh.
  - split_and!; try done.
    intros _. split; [done|]. exists cellAddress. split; [done|]. by left.
Qed.
End CalcClaims.

Section CalcExamples.
Import Calc CalcSpec Sample.

(** The sample sheet with the text of the session in A6:
    (5/3 * 0.4 + 3 * 0.6) * 20 / 3 + 0.5, rounded. *)
Lemma note_calculee_fallback_witness :
  note_of_sheet sheet_session "C64" "stage" = Some (Num 16.94%float).
Proof.
  assert (Hcfg : exists cfg, lignesConfig "stage" = Some cfg) by (by eexists).
  destruct Hcfg as [cfg Hcfg].
  rewrite (proj1 (note_calculee_fallback sheet_session
                    "stage" cfg "C64" ("C", 64%N) Hcfg eq_refl eq_refl
                    ltac:(injection Hcfg as <-; vm_compute; reflexivity))).
  injection Hcfg as <-. vm_compute. reflexivity.
Defined.

(** C4 as stated fails on a sheet whose row weights are held as text: with
    the weights ['2'] and ['1'] on two marked rows, [count += a] appends the
    texts to ['0'] and the weight total ['021'] is read as 21, not 3.  The
    route answers 1.59, where the formula gives 11.11 on the weights 2 and 1,
    and 0 if a text counts as no weight.  The conversions that take part are
    ToString of 0 and ToNumber of ['2'], ['1'] and ['021']. *)
Lemma text_weights_are_concatenated :
  read sheet_text ("A", 21%N) = Str "2" /\ read sheet_text ("A", 22%N) = Str "1"
  /\ note_of_sheet sheet_text "C64" "stage" = Some (Num 1.59%float)
  /\ note sheet_text_numbers <$> lignesConfig "stage" = Some 11.11%float
  /\ note sheet_text <$> lignesConfig "stage" = Some 0%float
  /\ (forall cfg, lignesConfig "stage" = Some cfg ->
        note_of_sheet sheet_text "C64" "stage" <> Some (Num (note sheet_text_numbers cfg))
        /\ note_of_sheet sheet_text "C64" "stage" <> Some (Num (note sheet_text cfg))).
Proof.
  assert (H1 : note_of_sheet sheet_text "C64" "stage" = Some (Num 1.59%float))
    by (vm_compute; reflexivity).
  split; [reflexivity|]. split; [reflexivity|].
  split; [done|]. split; [vm_compute; reflexivity|]. split; [vm_compute; reflexivity|].
  intros cfg [= <-]. rewrite H1. split; intros Heq;
    apply (f_equal (fun o => match o with
                             | Some (Num x) => Js.num_eq x 1.59%float
                             | _ => false
                             end)) in Heq; vm_compute in Heq; discriminate.
Qed.

(** A student whose file does not exist. *)
Lemma note_calculee_null_answers_witness :
  note_calculee_route mapping [eleve_dupont]
    (Some 7) "stage" false None = Json Null.
Proof.
  pose proof (note_calculee_null_answers mapping
                [eleve_dupont]
                (Some 7) "stage" false None
                eleve_dupont eq_refl) as Hw.
  cbv zeta in Hw. apply (proj1 Hw). reflexivity.
Defined.
End CalcExamples.

(** ** The gate: round trip, timeouts and the counter *)

Section GateMore.
Import Gate.

(** X3.  Acquire and release are a round trip on a free gate: when the file
    has no entry and the counter is below the cap, [acquireExcelLock] takes
    the lock at once, the entry of the file holds the time of the call, and
    [releaseExcelLock] gives back the state before the call. *)
Theorem acquire_then_release now f g :
  excelLocks g !! f = None ->
  0 <= activeExcelOperations g < MAX_CONCURRENT_EXCEL_OPERATIONS ->
  (acquireExcelLock now f g).2 = Acquired
  /\ excelLocks (acquireExcelLock now f g).1 !! f
     = Some {| locked := true; timestamp := now |}
  /\ releaseExcelLock f (acquireExcelLock now f g).1 = g.
Proof.
  intros Hfree [Hlo Hhi]. unfold acquireExcelLock, wait_global, wait_file.
  destruct (Z.leb_spec MAX_CONCURRENT_EXCEL_OPERATIONS (activeExcelOperations g)); [lia|].
  rewrite Hfree. cbn [fst snd]. split; [done|]. split; [apply lookup_insert_eq|].
  unfold releaseExcelLock. cbn [excelLocks activeExcelOperations].
  rewrite delete_insert_id by done.
  destruct (Z.ltb_spec (activeExcelOperations g + 1 - 1) 0); [lia|].
  destruct g as [locks n]. cbn. f_equal. lia.
Qed.

(** X4.  [acquireExcelLock] never throws at its call, and it throws only from
    a sleep that has lasted more than 30 seconds in the loop it is in: the
    first loop throws with the counter at the cap, the second with the file
    still in the table, each counting from its own start, and a throw leaves
    the table and the counter as they are. *)
Theorem acquire_timeout_only_after_30s now w f g e :
  (acquireExcelLock now f g).2 <> Timeout e
  /\ ((resume now w f g).2 = Timeout e ->
      (resume now w f g).1 = g
      /\ match w, e with
         | WaitGlobal startTime, TooManyOperations =>
             LOCK_TIMEOUT < now - startTime
             /\ MAX_CONCURRENT_EXCEL_OPERATIONS <= activeExcelOperations g
         | WaitFile fileStartTime, FileBusy =>
             LOCK_TIMEOUT < now - fileStartTime
             /\ is_Some (excelLocks g !! f)
         | _, _ => False
         end).
Proof.
  assert (Hfresh : forall t0, now - t0 <= LOCK_TIMEOUT ->
            (wait_file now t0 f g).2 <> Timeout e).
  { intros t0 Ht0. unfold wait_file. destruct (excelLocks g !! f); [|done].
    destruct (Z.ltb_spec LOCK_TIMEOUT (now - t0)); [lia|done]. }
  split.
  - unfold acquireExcelLock, wait_global.
    destruct (_ <=? _).
    + destruct (Z.ltb_spec LOCK_TIMEOUT (now - now)); [unfold LOCK_TIMEOUT in *; lia|done].
    + apply Hfresh. unfold LOCK_TIMEOUT. lia.
  - destruct w as [t0|t0]; cbn [resume].
    + unfold wait_global.
      destruct (Z.leb_spec MAX_CONCURRENT_EXCEL_OPERATIONS (activeExcelOperations g)).
      * destruct (Z.ltb_spec LOCK_TIMEOUT (now - t0)); cbn; [|done].
        intros [= <-]. done.
      * intros Ht. exfalso. revert Ht. apply Hfresh. unfold LOCK_TIMEOUT. lia.
    + unfold wait_file. destruct (excelLocks g !! f) eqn:Hf; [|done].
      destruct (Z.ltb_spec LOCK_TIMEOUT (now - t0)); cbn; [|done].
      intros [= <-]. done.
Qed.
End GateMore.

Section CounterBound.
Import Gate Server Bound.
Context `{Builtins}.
Variable m : Mapping.t.

Lemma counted_release f g : counted g -> counted (releaseExcelLock f g).
Proof.
  unfold counted. intros [Hpos Hc]. rewrite releaseExcelLock_active, releaseExcelLock_locks.
  destruct (excelLocks g !! f) as [e|] eqn:Hf.
  - pose proof (map_size_delete f (excelLocks g)) as Hs. rewrite Hf in Hs.
    assert (size (excelLocks g) <> 0%nat).
    { intros H0. apply map_size_empty_inv in H0. rewrite H0 in Hf. by rewrite lookup_empty in Hf. }
    cbn in Hs. lia.
  - rewrite delete_id by done. lia.
Qed.

Lemma counted_wait_file now t0 f g : counted g -> counted (wait_file now t0 f g).1.
Proof.
  unfold counted, wait_file. intros Hc.
  destruct (excelLocks g !! f) eqn:Hf; [by destruct (_ <? _)|].
  cbn. rewrite map_size_insert_None by done. lia.
Qed.

Lemma counted_resume now w f g : counted g -> counted (resume now w f g).1.
Proof.
  intros Hc. destruct w as [t0|t0]; cbn [resume]; [|by apply counted_wait_file].
  unfold wait_global. destruct (_ <=? _); [by destruct (_ <? _)|].
  by apply counted_wait_file.
Qed.

Lemma counted_catch f g : counted g -> counted (catch f g).1.
Proof.
  intros Hc. unfold catch. cbn [fst]. destruct (negb _); [|done].
  by apply counted_release.
Qed.

Lemma counted_after_acquire now f gr :
  counted gr.1 -> counted (after_acquire now f gr).1.
Proof.
  intros Hc. unfold after_acquire. destruct gr.2; cbn [fst]; try done.
  by apply counted_catch.
Qed.

Lemma counted_step s e s' :
  step m s e = Some s' -> counted (gate s) -> counted (gate s').
Proof.
  intros Hstep Hc. destruct e as [d|r nom prenom|i|i r]; simpl in Hstep.
  - destruct (0 <=? d); by simplify_eq.
  - simplify_eq; simpl. apply counted_after_acquire.
    by apply (counted_resume _ (WaitGlobal _)).
  - destruct (tasks s !! i) as [t|]; simpl in Hstep; [|done].
    destruct (timer _ t _) as [gp|] eqn:Ht; simpl in Hstep; simplify_eq; simpl.
    unfold timer in Ht. destruct (task_pc t) as [w wake| | | |]; try done.
    destruct (wake <=? clock s); simplify_eq.
    by apply counted_after_acquire, counted_resume.
  - destruct (tasks s !! i) as [t|]; simpl in Hstep; [|done].
    destruct (settle _ t r _) as [gp|] eqn:Hs; simpl in Hstep; simplify_eq; simpl.
    unfold settle in Hs.
    destruct (task_pc t), r; simplify_eq; cbn [fst]; try done.
    + by apply counted_catch.
    + by rewrite after_load_gate.
    + by apply counted_catch.
    + by apply counted_release.
Qed.

(** X5.  In every state the server can reach, runs with timeouts included, the
    counter of operations is at least 0 and at most the number of entries of
    the lock table: it is 0 whenever the table is empty. *)
Theorem counter_never_exceeds_table s :
  reachable m s ->
  0 <= activeExcelOperations (gate s) <= Z.of_nat (size (excelLocks (gate s)))
  /\ (excelLocks (gate s) = ∅ -> activeExcelOperations (gate s) = 0).
Proof.
  intros [es Hrun].
  assert (Hc : counted (gate s)).
  { assert (Hinit : counted (gate init)) by (unfold counted; cbn; rewrite map_size_empty; lia).
    revert Hrun Hinit. generalize init.
    induction es as [|e es IH]; intros s0 Hrun H0; simpl in Hrun.
    - by simplify_eq.
    - destruct (step m s0 e) as [s1|] eqn:Hstep; simpl in Hrun; [|done].
      eapply IH; [done|]. by eapply counted_step. }
  split; [done|]. intros He. unfold counted in Hc. rewrite He, map_size_empty in Hc. lia.
Qed.
End CounterBound.

(** ** What a fill leaves alone *)

Section FrameFacts.
Import Mapping Fill Frame.
Context `{Builtins}.
Variable m : Mapping.t.

Lemma try_set_cell_other sh a v r :
  parse_address a <> Some r -> try_set_cell sh a v !! r = sh !! r.
Proof.
  intros Ha. unfold try_set_cell, set_cell.
  destruct (parse_address a) as [r'|]; cbn; [|done].
  apply lookup_insert_ne. by intros ->.
Qed.

Lemma colonne_niveau_in niv col :
  colonne_niveau m niv = Some col -> col ∈ niveau_colonnes m.
Proof.
  unfold colonne_niveau, niveau_colonnes.
  destruct niv as [[|[[[]|[]|]|[[]|[]|]|]|]|]; intros [= <-];
    repeat first [by left | right].
Qed.

Lemma mark_target_in d c a :
  mark_target m d c = Some a ->
  exists col, col ∈ niveau_colonnes m /\ a = address col c.
Proof.
  unfold mark_target. destruct (EvalData.niveaux d !! id c) as [niv|]; [|done].
  destruct (colonne_niveau m (parseInt niv)) as [col|] eqn:Hcol.
  - intros Ha. exists col. split; [by eapply colonne_niveau_in|].
    by destruct niv; simplify_eq.
  - by destruct niv.
Qed.

Lemma touched_clear semestre comps r :
  r ∈ clear_refs comps -> r ∈ touched m semestre comps.
Proof.
  unfold clear_refs, touched. rewrite !list_elem_of_omap.
  intros (a & Ha & Hr). exists a. split; [|done]. apply elem_of_app. by left.
Qed.

Lemma touched_mark semestre comps c col r :
  c ∈ all_criteres comps -> col ∈ niveau_colonnes m ->
  parse_address (address col c) = Some r -> r ∈ touched m semestre comps.
Proof.
  intros Hc Hcol Hr. unfold touched. apply list_elem_of_omap.
  exists (address col c). split; [|done].
  apply elem_of_app. right. apply elem_of_app. left.
  unfold mark_addresses. apply list_elem_of_bind. exists c. split; [|done].
  apply list_elem_of_fmap. by exists col.
Qed.

Lemma touched_champs semestre comps a r :
  a ∈ champs_addresses m semestre -> parse_address a = Some r ->
  r ∈ touched m semestre comps.
Proof.
  intros Ha Hr. unfold touched. apply list_elem_of_omap. exists a. split; [|done].
  apply elem_of_app. right. apply elem_of_app. by right.
Qed.

Lemma mark_pass_frame semestre comps d sh r :
  r ∉ touched m semestre comps -> mark_pass m comps d sh !! r = sh !! r.
Proof.
  intros Hr. rewrite mark_pass_writes, writes_lookup.
  destruct (written _ r) as [v|] eqn:Hw; [|done].
  exfalso. apply Hr. apply written_elem in Hw. unfold mark_writes in Hw.
  apply list_elem_of_omap in Hw as (c & Hc & Hw).
  destruct (mark_target m d c) as [a|] eqn:Ha; cbn [mbind option_bind] in Hw; [|done].
  destruct (parse_address a) as [r'|] eqn:Hp; cbn [mbind option_bind] in Hw; [|done].
  simplify_eq. apply mark_target_in in Ha as (col & Hcol & ->).
  by eapply touched_mark.
Qed.

Lemma write_comment_other semestre d sh r :
  (forall a, a ∈ champs_addresses m semestre -> parse_address a <> Some r) ->
  write_comment m semestre d sh !! r = sh !! r.
Proof.
  intros Hr. unfold write_comment.
  destruct (commentaire_global m !! semestre) as [a|] eqn:Ha; [|done].
  destruct (negb _ && _); [|done]. apply try_set_cell_other, Hr.
  unfold champs_addresses. rewrite Ha. apply elem_of_app. left. cbn. left.
Qed.

Lemma write_champs_other semestre d sh r :
  (forall a, a ∈ champs_addresses m semestre -> parse_address a <> Some r) ->
  write_champs m semestre d sh !! r = sh !! r.
Proof.
  intros Hr. unfold write_champs.
  destruct (champs_supplementaires m !! semestre) as [cs|] eqn:Hcs; [|done].
  assert (Hin : forall a, a ∈ (option_list (cellule <$> bonus cs)
                               ++ option_list (cellule <$> note_finale cs))%list ->
                          parse_address a <> Some r).
  { intros a Ha. apply Hr. unfold champs_addresses. rewrite Hcs.
    apply elem_of_app. by right. }
  transitivity (write_bonus cs d sh !! r).
  - unfold write_note_finale. destruct (note_finale cs) as [ch|] eqn:Hch; [|done].
    destruct (EvalData.note_finale d); try done;
      (apply try_set_cell_other, Hin, elem_of_app; right; cbn; left).
  - unfold write_bonus. destruct (bonus cs) as [ch|] eqn:Hch; [|done].
    destruct (EvalData.bonus d); try done;
      (apply try_set_cell_other, Hin, elem_of_app; left; cbn; left).
Qed.

Lemma fill_sheet_marks semestre comps d sh r :
  (forall a, a ∈ champs_addresses m semestre -> parse_address a <> Some r) ->
  fill_sheet m semestre comps d sh !! r = mark_pass m comps d (clear_pass comps sh) !! r.
Proof.
  intros Hr. unfold fill_sheet. by rewrite write_champs_other, write_comment_other.
Qed.

Lemma fill_sheet_frame semestre comps d sh r :
  r ∉ touched m semestre comps -> fill_sheet m semestre comps d sh !! r = sh !! r.
Proof.
  intros Hr. rewrite fill_sheet_marks.
  2:{ intros a Ha Hp. by apply Hr, (touched_champs semestre comps a). }
  rewrite (mark_pass_frame semestre comps) by done.
  rewrite clear_pass_refs, clear_refs_lookup, decide_False; [done|].
  intros Hin. by apply Hr, touched_clear.
Qed.

(** X6.  A fill never adds or removes a sheet, leaves every sheet other than the
    sheet of the phase as it is, and in the sheet of the phase leaves every
    cell as it is that is not a cell of a criterion row in the columns C to F
    or in a level column, nor the cell of the comment, the bonus or the final
    score. *)
Theorem fill_engine_frame semestre d wb name :
  (is_Some (fill_engine m semestre d wb !! name) <-> is_Some (wb !! name))
  /\ (sheetNames m !! semestre <> Some name ->
      fill_engine m semestre d wb !! name = wb !! name)
  /\ (forall comps r,
        evaluations m !! semestre = Some comps ->
        r ∉ touched m semestre comps ->
        (fun sh : sheet => sh !! r) <$> (fill_engine m semestre d wb !! name)
        = (fun sh : sheet => sh !! r) <$> (wb !! name)).
Proof.
  unfold fill_engine, remplir.
  destruct (sheetNames m !! semestre) as [name'|] eqn:Hname; [|done].
  destruct (wb !! name') as [sh|] eqn:Hsh; [|done].
  destruct (evaluations m !! semestre) as [comps|] eqn:Hcomps; [|done].
  destruct (decide (name' = name)) as [->|Hne].
  - rewrite lookup_insert_eq, Hsh. split; [done|]. split; [done|].
    intros comps' r [= <-] Hr. cbn. f_equal. by apply (fill_sheet_frame semestre).
  - rewrite lookup_insert_ne by done. split; [done|]. split; [done|]. done.
Qed.
End FrameFacts.

(** ** From the fill to the calculator *)

Section RoundTrip.
Import Mapping Fill Frame Calc.
Context `{Builtins}.
Variable m : Mapping.t.

Lemma row_ok_parse l col :
  row_ok l = true -> col ∈ ["A"; "C"; "D"; "E"; "F"] ->
  parse_address (col +:+ pretty l) = Some (col, Z.to_N l).
Proof.
  intros Hok Hcol. unfold row_ok in Hok. rewrite forallb_forall in Hok.
  specialize (Hok col). rewrite bool_decide_eq_true in Hok.
  apply Hok. by apply list_elem_of_In.
Qed.

Lemma colonnes_row col : col ∈ colonnes -> col ∈ ["A"; "C"; "D"; "E"; "F"].
Proof. intros Hcol. by right. Qed.

Lemma written_some ws r v : (r, v) ∈ ws -> is_Some (written ws r).
Proof.
  induction ws as [|w ws IH]; [by intros ?%elem_of_nil|].
  intros [<-|Hin]%elem_of_cons; cbn [written].
  - destruct (written ws r); [done|]. by rewrite decide_True.
  - destruct (IH Hin) as [v' ->]. done.
Qed.

Lemma mark_target_same d c c' :
  id c' = id c -> ligne c' = ligne c -> mark_target m d c' = mark_target m d c.
Proof.
  destruct c as [i l], c' as [i' l']; cbn. by intros -> ->.
Qed.

Section Row.
Variable semestre : string.
Variable comps : list (string * Competence).
Variable d : EvalData.t.
Variable sh : sheet.
Variable c : Critere.

Hypothesis Hcols : niveau_colonnes m = colonnes.
Hypothesis Hc : c ∈ all_criteres comps.
Hypothesis Hrows : forall c', c' ∈ all_criteres comps ->
  row_ok (ligne c') = true /\ 0 <= ligne c' /\ (ligne c' = ligne c -> id c' = id c).
Hypothesis Hchamps : forall col a, col ∈ colonnes -> a ∈ champs_addresses m semestre ->
  parse_address a <> Some (col, Z.to_N (ligne c)).

Lemma address_row col c' :
  c' ∈ all_criteres comps -> col ∈ colonnes ->
  parse_address (address col c') = Some (col, Z.to_N (ligne c')).
Proof.
  intros Hc' Hcol. apply row_ok_parse; [by apply Hrows|by apply colonnes_row].
Qed.

Lemma marked_iff col :
  col ∈ colonnes ->
  is_x (read (fill_sheet m semestre comps d sh) (col, Z.to_N (ligne c))) = true
  <-> mark_target m d c = Some (address col c).
Proof.
  intros Hcol. set (r := (col, Z.to_N (ligne c))).
  assert (Hread : read (fill_sheet m semestre comps d sh) r
                  = read (mark_pass m comps d (clear_pass comps sh)) r).
  { unfold read. rewrite fill_sheet_marks; [done|]. intros a Ha. by apply Hchamps. }
  rewrite Hread. split.
  - intros Hx.
    destruct (marks_after_fill_are_current m comps d sh r) as (c' & a & Hc' & Ha & Hp).
    { by apply (scanned_ref comps c col), address_row. }
    { revert Hx. unfold is_mark, is_x.
      generalize (read (mark_pass m comps d (clear_pass comps sh)) r).
      intros [| |x|s]; try done. by intros ->. }
    apply mark_target_in in Ha as Hin. destruct Hin as (col' & Hcol' & ->).
    rewrite Hcols in Hcol'. rewrite address_row in Hp by done.
    injection Hp as -> Hl. apply Z2N.inj in Hl; [|by apply Hrows..].
    rewrite <- (mark_target_same d c c') by (by try apply Hrows). rewrite Ha.
    unfold address. by rewrite Hl.
  - intros Ht.
    assert (Hin : (r, Str "x") ∈ mark_writes m d (all_criteres comps)).
    { unfold mark_writes. apply list_elem_of_omap. exists c. split; [done|].
      rewrite Ht. cbn [mbind option_bind]. by rewrite address_row. }
    destruct (written_some _ _ _ Hin) as [v Hv].
    assert (v = Str "x") as ->.
    { apply written_elem in Hv. unfold mark_writes in Hv.
      apply list_elem_of_omap in Hv as (c' & _ & Hv).
      destruct (mark_target m d c'); cbn [mbind option_bind] in Hv; [|done].
      destruct (parse_address _); cbn [mbind option_bind] in Hv; by simplify_eq. }
    unfold read. by rewrite mark_pass_writes, writes_lookup, Hv.
Qed.

Lemma address_col_inj col col' :
  col ∈ colonnes -> col' ∈ colonnes -> address col c = address col' c -> col = col'.
Proof.
  intros Hcol Hcol' Ha. apply (f_equal parse_address) in Ha.
  rewrite !address_row in Ha by done. by simplify_eq.
Qed.

Lemma marked_col col0 col :
  col0 ∈ colonnes -> col ∈ colonnes ->
  mark_target m d c = Some (address col0 c) ->
  is_x (read (fill_sheet m semestre comps d sh) (col, Z.to_N (ligne c)))
  = bool_decide (col = col0).
Proof.
  intros Hcol0 Hcol Ht. case_bool_decide as Heq.
  - subst. by apply marked_iff.
  - apply not_true_is_false. intros Hx%marked_iff; [|done].
    rewrite Ht in Hx. injection Hx as Hx. by apply address_col_inj in Hx.
Qed.

Lemma unmarked_col col :
  col ∈ colonnes -> mark_target m d c = None ->
  is_x (read (fill_sheet m semestre comps d sh) (col, Z.to_N (ligne c))) = false.
Proof.
  intros Hcol Ht. apply not_true_is_false. intros Hx%marked_iff; [|done].
  by rewrite Ht in Hx.
Qed.

(** X7.  The premises are those of the section: the level columns of the
    mapping are C, D, E and F ([Hcols]); the criterion is one of the phase
    ([Hc]); every criterion of the phase has a valid row that it shares with
    no criterion of another id ([Hrows]); and the cells of the comment, the
    bonus and the final score are not in the columns C to F of the row of the
    criterion ([Hchamps]).  Then the calculator reads back from a filled sheet
    what the fill made of the recorded value: in the row of the criterion the
    loop of [calculerMoyenneCompetence] finds position 0 when [parseInt] of
    the recorded value is 0 or 1, positions 1, 2 and 3 when it is 2, 3 and 4,
    and no mark when the record has no value for the criterion, [null] or
    [undefined], or when [parseInt] of the value is [NaN] or an integer
    outside 0..4, whatever the row held before the fill. *)
Theorem calculator_reads_back_the_level :
  let sh' := fill_sheet m semestre comps d sh in
  let row col := read sh' (col, Z.to_N (ligne c)) in
  (forall col, col ∈ colonnes -> cell_at sh' col (ligne c) = Some (row col))
  /\ valeur (row "C") (row "D") (row "E") (row "F")
     = match EvalData.niveaux d !! id c with
       | None | Some Null | Some Undefined => None
       | Some niv =>
           match parseInt niv with
           | Some 0 | Some 1 => Some 0%float
           | Some 2 => Some 1%float
           | Some 3 => Some 2%float
           | Some 4 => Some 3%float
           | _ => None
           end
       end.
Proof.
  intros sh' row. split.
  { intros col Hcol. apply cell_at_row; [by apply Hrows|by apply colonnes_row]. }
  assert (HC : "C" ∈ colonnes) by (vm_compute; left).
  assert (HD : "D" ∈ colonnes) by (vm_compute; right; left).
  assert (HE : "E" ∈ colonnes) by (vm_compute; right; right; left).
  assert (HF : "F" ∈ colonnes) by (vm_compute; right; right; right; left).
  pose proof Hcols as Hcols'. unfold niveau_colonnes, colonnes in Hcols'.
  injection Hcols' as H1 H2 H3 H4.
  assert (Hnone : mark_target m d c = None ->
                  valeur (row "C") (row "D") (row "E") (row "F") = None).
  { intros Ht. unfold valeur, row, sh'. by rewrite !unmarked_col. }
  assert (Hsome : forall col0, col0 ∈ colonnes ->
            mark_target m d c = Some (address col0 c) ->
            valeur (row "C") (row "D") (row "E") (row "F")
            = if bool_decide ("C" = col0) then Some 0%float
              else if bool_decide ("D" = col0) then Some 1%float
              else if bool_decide ("E" = col0) then Some 2%float
              else if bool_decide ("F" = col0) then Some 3%float else None).
  { intros col0 Hcol0 Ht. unfold valeur, row, sh'.
    by rewrite !(marked_col col0) by done. }
  assert (Ht : mark_target m d c
               = match EvalData.niveaux d !! id c with
                 | None | Some Null | Some Undefined => None
                 | Some niv =>
                     match colonne_niveau m (parseInt niv) with
                     | Some col => Some (address col c)
                     | None => None
                     end
                 end) by reflexivity.
  destruct (EvalData.niveaux d !! id c) as [niv|]; [|by apply Hnone].
  destruct niv as [| |x|s]; try by apply Hnone.
  all: unfold colonne_niveau in Ht; rewrite H1, H2, H3, H4 in Ht.
  all: destruct (parseInt _) as [[|[[[]|[]|]|[[]|[]|]|]|]|]; try by apply Hnone.
  all: match type of Ht with
       | _ = Some (address ?col _) =>
           by rewrite (Hsome col) by first [exact HC|exact HD|exact HE|exact HF|exact Ht]
       end.
Qed.
End Row.
End RoundTrip.

(** ** The two passes of the fill on the whole sheet *)

Section FillPasses.
Import Mapping Fill Frame.
Context `{Builtins}.
Variable m : Mapping.t.

Lemma colonne_niveau_out niveau :
  (forall k, 0 <= k <= 4 -> niveau <> Some k) -> colonne_niveau m niveau = None.
Proof.
  intros Hout. destruct niveau as [k|]; [|done].
  assert (Hk : ~ 0 <= k <= 4) by (intros Hr; by apply (Hout k)).
  destruct k as [|[[[]|[]|]|[[]|[]|]|]|]; try done; lia.
Qed.

Lemma colonne_niveau_range niveau col :
  colonne_niveau m niveau = Some col -> exists k, niveau = Some k /\ 0 <= k <= 4.
Proof.
  destruct niveau as [k|]; [|done]. intros Hcol. exists k. split; [done|].
  destruct k as [|[[[]|[]|]|[[]|[]|]|]|]; try done; lia.
Qed.

Lemma mark_target_niveau d c niv :
  EvalData.niveaux d !! id c = Some niv -> niv <> Null -> niv <> Undefined ->
  mark_target m d c = (fun col => address col c) <$> colonne_niveau m (parseInt niv).
Proof.
  intros Hniv Hnull Hundef. unfold mark_target. rewrite Hniv.
  destruct niv; try done; by destruct (colonne_niveau m _).
Qed.

Lemma mark_target_level d c a :
  mark_target m d c = Some a ->
  exists niv col, EvalData.niveaux d !! id c = Some niv /\ niv <> Null /\ niv <> Undefined
                  /\ colonne_niveau m (parseInt niv) = Some col /\ a = address col c.
Proof.
  unfold mark_target. destruct (EvalData.niveaux d !! id c) as [niv|]; [|done].
  intros Ha. exists niv.
  assert (Hn : niv <> Null /\ niv <> Undefined)
    by (destruct niv; simpl in Ha; try discriminate Ha; by split).
  destruct Hn as [Hnull Hundef].
  assert (Hcol : (fun col => address col c) <$> colonne_niveau m (parseInt niv) = Some a).
  { destruct niv; try done; by destruct (colonne_niveau m _). }
  destruct (colonne_niveau m (parseInt niv)) as [col|]; [|done]. exists col.
  cbn in Hcol. injection Hcol as <-. by split_and!.
Qed.

Lemma mark_writes_value d cs r v :
  (r, v) ∈ mark_writes m d cs -> v = Str "x".
Proof.
  unfold mark_writes. intros (c & _ & Hv)%list_elem_of_omap.
  destruct (mark_target m d c); cbn [mbind option_bind] in Hv; [|done].
  destruct (parse_address _); cbn [mbind option_bind] in Hv; by simplify_eq.
Qed.

Lemma mark_pass_target comps d sh c a r :
  c ∈ all_criteres comps -> mark_target m d c = Some a -> parse_address a = Some r ->
  read (mark_pass m comps d sh) r = Str "x".
Proof.
  intros Hc Ha Hr.
  assert (Hin : (r, Str "x") ∈ mark_writes m d (all_criteres comps)).
  { unfold mark_writes. apply list_elem_of_omap. exists c. split; [done|].
    rewrite Ha. cbn [mbind option_bind]. by rewrite Hr. }
  destruct (written_some _ _ _ Hin) as [v Hv].
  assert (v = Str "x") as ->.
  { apply written_elem in Hv. by eapply mark_writes_value. }
  unfold read. by rewrite mark_pass_writes, writes_lookup, Hv.
Qed.

Lemma mark_pass_untargeted comps d sh r :
  (forall c a, c ∈ all_criteres comps -> mark_target m d c = Some a ->
               parse_address a <> Some r) ->
  mark_pass m comps d sh !! r = sh !! r.
Proof.
  intros Hr. rewrite mark_pass_writes, writes_lookup.
  destruct (written _ r) as [v|] eqn:Hw; [|done].
  exfalso. apply written_elem in Hw. unfold mark_writes in Hw.
  apply list_elem_of_omap in Hw as (c & Hc & Hw).
  destruct (mark_target m d c) as [a|] eqn:Ha; cbn [mbind option_bind] in Hw; [|done].
  destruct (parse_address a) as [r'|] eqn:Hp; cbn [mbind option_bind] in Hw; [|done].
  simplify_eq. by apply (Hr c a).
Qed.

Lemma champs_cell_dec semestre r :
  Decision (exists a, a ∈ champs_addresses m semestre /\ parse_address a = Some r).
Proof.
  destruct (decide (Some r ∈ parse_address <$> champs_addresses m semestre)) as [Hin|Hnin].
  - left. apply list_elem_of_fmap in Hin as (a & Ha & Hin). by exists a.
  - right. intros (a & Ha & Hr). apply Hnin. apply list_elem_of_fmap. by exists a.
Qed.

Lemma fill_sheet_scanned semestre comps d sh c col r :
  c ∈ all_criteres comps -> col ∈ colonnes ->
  parse_address (address col c) = Some r ->
  (is_mark (read (fill_sheet m semestre comps d sh) r) = true ->
   (exists c' a, c' ∈ all_criteres comps /\ mark_target m d c' = Some a
                 /\ parse_address a = Some r)
   \/ (exists a, a ∈ champs_addresses m semestre /\ parse_address a = Some r))
  /\ (is_mark (read sh r) = true ->
      (forall c' a, c' ∈ all_criteres comps -> mark_target m d c' = Some a ->
                    parse_address a <> Some r) ->
      (forall a, a ∈ champs_addresses m semestre -> parse_address a <> Some r) ->
      read (fill_sheet m semestre comps d sh) r = Null).
Proof.
  intros Hc Hcol Hr. pose proof (scanned_ref comps c col r Hc Hcol Hr) as Hscan. split.
  - intros Hmark. destruct (champs_cell_dec semestre r) as [Hch|Hch]; [by right|left].
    apply (marks_after_fill_are_current m comps d sh r); [done|].
    revert Hmark. unfold read. rewrite fill_sheet_marks; [done|].
    intros a Ha Hp. apply Hch. by exists a.
  - intros Hold Htarget Hchamps. unfold read.
    rewrite fill_sheet_marks by done. rewrite mark_pass_untargeted by done.
    rewrite clear_pass_refs, clear_refs_lookup, decide_True by done. by rewrite Hold.
Qed.

(** C5, as the code has it.  The fill of a phase is idempotent: on every
    workbook, a second fill with the same record leaves the cells of the
    first.  The clear pass scans the fixed columns C, D, E and F of every
    criterion row, whatever level columns the mapping names.  On the sheet of
    the phase after a fill, a cell of these columns in a criterion row holds a
    mark, [x] or [X], only where the mark pass of this fill writes one for
    the record in hand (or where the cell of the comment, the bonus or the
    final score lies); and a cell that held a mark and is written by none of
    them holds [null]. *)
Theorem fill_engine_idempotent semestre d wb :
  fill_engine m semestre d (fill_engine m semestre d wb) = fill_engine m semestre d wb
  /\ (forall name comps sh,
        sheetNames m !! semestre = Some name -> wb !! name = Some sh ->
        evaluations m !! semestre = Some comps ->
        exists sh',
          fill_engine m semestre d wb !! name = Some sh'
          /\ forall c col r,
               c ∈ all_criteres comps -> col ∈ colonnes ->
               parse_address (address col c) = Some r ->
               (is_mark (read sh' r) = true ->
                (exists c' a, c' ∈ all_criteres comps /\ mark_target m d c' = Some a
                              /\ parse_address a = Some r)
                \/ (exists a, a ∈ champs_addresses m semestre
                              /\ parse_address a = Some r))
               /\ (is_mark (read sh r) = true ->
                   (forall c' a, c' ∈ all_criteres comps -> mark_target m d c' = Some a ->
                                 parse_address a <> Some r) ->
                   (forall a, a ∈ champs_addresses m semestre ->
                              parse_address a <> Some r) ->
                   read sh' r = Null)).
Proof.
  split; [apply fill_engine_idem|].
  intros name comps sh Hname Hsh Hcomps.
  exists (fill_sheet m semestre comps d sh). split.
  - unfold fill_engine, remplir. rewrite Hname, Hsh, Hcomps. apply lookup_insert_eq.
  - intros c col r Hc Hcol Hr. by apply (fill_sheet_scanned semestre comps d sh c col).
Qed.

(** C6, as the code has it.  The level of a criterion is [parseInt] of the
    recorded value, when that value is neither [null] nor [undefined].  The
    [switch] sends 0 and 1 to the one column of [niveau_1], and 2, 3 and 4 to
    the columns of [niveau_2], [niveau_3] and [niveau_4]; [NaN] and every
    other integer select no column.  After the mark pass the cell of the
    selected column in the row of the criterion holds [x]; a cell that no
    criterion selects is as before, and a pass over a record whose levels all
    select no column leaves the sheet as it is.  After the whole fill the
    selected cell holds [x] too, unless it is the cell of the comment, the
    bonus or the final score. *)
Theorem niveau_selects_colonne comps d sh :
  (colonne_niveau m (Some 0) = Some (colonne (niveau_1 (niveaux m)))
   /\ colonne_niveau m (Some 1) = Some (colonne (niveau_1 (niveaux m)))
   /\ colonne_niveau m (Some 2) = Some (colonne (niveau_2 (niveaux m)))
   /\ colonne_niveau m (Some 3) = Some (colonne (niveau_3 (niveaux m)))
   /\ colonne_niveau m (Some 4) = Some (colonne (niveau_4 (niveaux m)))
   /\ forall niveau, (forall k, 0 <= k <= 4 -> niveau <> Some k) ->
                     colonne_niveau m niveau = None)
  /\ (forall c niv,
        EvalData.niveaux d !! id c = Some niv -> niv <> Null -> niv <> Undefined ->
        mark_critere m d sh c
        = match colonne_niveau m (parseInt niv) with
          | Some col => try_set_cell sh (address col c) (Str "x")
          | None => sh
          end)
  /\ (forall c niv col r,
        c ∈ all_criteres comps ->
        EvalData.niveaux d !! id c = Some niv -> niv <> Null -> niv <> Undefined ->
        colonne_niveau m (parseInt niv) = Some col ->
        parse_address (address col c) = Some r ->
        read (mark_pass m comps d sh) r = Str "x"
        /\ forall semestre,
             (forall a, a ∈ champs_addresses m semestre -> parse_address a <> Some r) ->
             read (fill_sheet m semestre comps d sh) r = Str "x")
  /\ (forall r,
        (forall c niv col,
           c ∈ all_criteres comps ->
           EvalData.niveaux d !! id c = Some niv -> niv <> Null -> niv <> Undefined ->
           colonne_niveau m (parseInt niv) = Some col ->
           parse_address (address col c) <> Some r) ->
        mark_pass m comps d sh !! r = sh !! r)
  /\ ((forall c niv k,
         c ∈ all_criteres comps ->
         EvalData.niveaux d !! id c = Some niv -> niv <> Null -> niv <> Undefined ->
         0 <= k <= 4 -> parseInt niv <> Some k) ->
      mark_pass m comps d sh = sh).
Proof.
  split; [|split; [|split; [|split]]].
  - split_and!; try reflexivity. apply colonne_niveau_out.
  - intros c niv Hniv Hnull Hundef. unfold mark_critere.
    rewrite (mark_target_niveau d c niv) by done.
    by destruct (colonne_niveau m (parseInt niv)).
  - intros c niv col r Hc Hniv Hnull Hundef Hcol Hr.
    assert (Ht : mark_target m d c = Some (address col c)).
    { rewrite (mark_target_niveau d c niv) by done. by rewrite Hcol. }
    split; [by apply (mark_pass_target comps d sh c (address col c))|].
    intros semestre Hchamps. unfold read. rewrite fill_sheet_marks by done.
    by apply (mark_pass_target comps d (clear_pass comps sh) c (address col c)).
  - intros r Hr. apply mark_pass_untargeted. intros c a Hc Ha.
    apply mark_target_level in Ha as (niv & col & Hniv & Hnull & Hundef & Hcol & ->).
    by apply (Hr c niv col).
  - intros Hout. apply map_eq. intros r. apply mark_pass_untargeted. intros c a Hc Ha.
    apply mark_target_level in Ha as (niv & col & Hniv & Hnull & Hundef & Hcol & ->).
    apply colonne_niveau_range in Hcol as (k & Hk & Hrange).
    by destruct (Hout c niv k).
Qed.
End FillPasses.

Section FillPassExamples.
Import Mapping Fill Frame Sample.

(** The sample workbook after the fill of the sample record: the mark that
    D21 held for level 2 is erased, the record has level 3 for the row. *)
Lemma fill_engine_idempotent_witness :
  exists sh', fill_engine mapping "stage" record workbook_stage !! "E6 STAGE - IR" = Some sh'
              /\ read sh' ("D", 21%N) = Null.
Proof.
  destruct (proj2 (fill_engine_idempotent mapping "stage" record workbook_stage)
              "E6 STAGE - IR" competences_stage sheet_stage eq_refl eq_refl eq_refl)
    as (sh' & Hsh' & Hcells).
  exists sh'. split; [done|].
  apply (Hcells {| id := "c01_1"; ligne := 21 |} "D" ("D", 21%N)).
  - vm_compute. left.
  - right; left.
  - reflexivity.
  - reflexivity.
  - intros c' a Hc' Ha Hp. vm_compute in Hc'.
    repeat (apply elem_of_cons in Hc' as [->|Hc'];
            [vm_compute in Ha; try discriminate Ha; injection Ha as <-;
             vm_compute in Hp; discriminate Hp|]).
    by apply elem_of_nil in Hc'.
  - intros a Ha Hp. vm_compute in Ha.
    repeat (apply elem_of_cons in Ha as [->|Ha]; [vm_compute in Hp; discriminate Hp|]).
    by apply elem_of_nil in Ha.
Defined.

(** C5 as stated fails when the level columns of the mapping are not C to F.
    With the columns G to J, a fill with level 2 marks H21; the fill with
    level 3 that follows marks I21 and leaves the mark of H21: the clear pass
    does not scan the level columns, and the row carries two marks. *)
Lemma refill_leaves_two_marks :
  let first :=
    fill_sheet mapping_GJ "stage" competences_stage (record_niveau (Num 2%float)) ∅ in
  let second :=
    fill_sheet mapping_GJ "stage" competences_stage (record_niveau (Num 3%float)) first in
  colonne_niveau mapping_GJ (Some 2) = Some "H"
  /\ colonne_niveau mapping_GJ (Some 3) = Some "I"
  /\ read first ("H", 21%N) = Str "x"
  /\ read second ("H", 21%N) = Str "x"
  /\ read second ("I", 21%N) = Str "x".
Proof. repeat split; vm_compute; reflexivity. Qed.

(** Level 3 on row 21 goes to column E. *)
Lemma niveau_selects_colonne_witness :
  read (mark_pass mapping competences_stage record sheet_stage) ("E", 21%N) = Str "x".
Proof.
  pose proof (proj1 (proj2 (proj2 (niveau_selects_colonne mapping competences_stage
                                     record sheet_stage)))) as Hw.
  apply (Hw {| id := "c01_1"; ligne := 21 |} (Num 3%float) "E" ("E", 21%N));
    first [reflexivity | discriminate | (vm_compute; left)].
Defined.

(** C6 as stated fails on a recorded level that is not an integer from 0 to
    4: 2.7 is marked in the column of level 2, ['4abc'] in the column of level
    4 and -0.5 in the column of level 1, because the [switch] is on
    [parseInt] of the recorded value. *)
Lemma fractional_level_is_marked :
  let sh := fill_sheet mapping "stage" competences_stage record_fractions ∅ in
  EvalData.niveaux record_fractions !! "c01_1" = Some (Num 2.7%float)
  /\ read sh ("D", 21%N) = Str "x"
  /\ EvalData.niveaux record_fractions !! "c01_2" = Some (Str "4abc")
  /\ read sh ("F", 22%N) = Str "x"
  /\ EvalData.niveaux record_fractions !! "c03_1" = Some (Num (-0.5)%float)
  /\ read sh ("C", 33%N) = Str "x".
Proof. repeat split; vm_compute; reflexivity. Qed.
End FillPassExamples.

(** ** Step 3 of [generer-excel-complet] *)

Section GenererFacts.
Import Mapping Fill.
Context `{Builtins}.
Variable m : Mapping.t.

(** One turn of the loop of step 3. *)
Lemma generer_etape3_fold evals wb :
  generer_etape3 m evals wb
  = foldl (fun wb semestre =>
             match evals !! semestre with
             | None => wb
             | Some d => fill_engine m semestre d wb
             end) wb semestres.
Proof. reflexivity. Qed.

Lemma fill_engine_other semestre d wb name :
  sheetNames m !! semestre <> Some name ->
  fill_engine m semestre d wb !! name = wb !! name.
Proof.
  intros Hname. unfold fill_engine, remplir.
  destruct (sheetNames m !! semestre) as [name'|]; [|done].
  destruct (wb !! name'); [|done]. destruct (evaluations m !! semestre); [|done].
  apply lookup_insert_ne. by intros ->.
Qed.

(** The sheet of a phase after its fill depends on that sheet only. *)
Lemma fill_engine_local semestre d wb1 wb2 name :
  sheetNames m !! semestre = Some name -> wb1 !! name = wb2 !! name ->
  fill_engine m semestre d wb1 !! name = fill_engine m semestre d wb2 !! name.
Proof.
  intros Hname Hwb. unfold fill_engine, remplir. rewrite Hname, <- Hwb.
  destruct (wb1 !! name) as [sh|] eqn:Hsh; [|by rewrite Hsh, <- Hwb].
  destruct (evaluations m !! semestre); [|by rewrite Hsh, <- Hwb].
  by rewrite !lookup_insert_eq.
Qed.

Lemma phases_other (evals : gmap string EvalData.t) (l : list string) (wb : workbook) name :
  (forall s, s ∈ l -> sheetNames m !! s <> Some name) ->
  foldl (fun wb semestre =>
           match evals !! semestre with
           | None => wb
           | Some d => fill_engine m semestre d wb
           end) wb l !! name = wb !! name.
Proof.
  revert wb. induction l as [|s0 l IH]; intros wb Hl; [done|].
  cbn [foldl]. rewrite IH by (intros s Hs; apply Hl; by right).
  destruct (evals !! s0); [|done]. apply fill_engine_other, Hl. left.
Qed.

Lemma phases_own (evals : gmap string EvalData.t) (l : list string) (wb : workbook) name s :
  NoDup l -> s ∈ l -> sheetNames m !! s = Some name ->
  (forall s', s' ∈ l -> s' <> s -> sheetNames m !! s' <> Some name) ->
  foldl (fun wb semestre =>
           match evals !! semestre with
           | None => wb
           | Some d => fill_engine m semestre d wb
           end) wb l !! name
  = match evals !! s with
    | None => wb !! name
    | Some d => fill_engine m s d wb !! name
    end.
Proof.
  revert wb. induction l as [|s0 l IH]; intros wb Hnd Hs Hname Hother;
    [by apply elem_of_nil in Hs|].
  apply NoDup_cons in Hnd as [Hs0 Hnd]. cbn [foldl].
  destruct (decide (s0 = s)) as [->|Hne].
  - rewrite phases_other.
    + by destruct (evals !! s).
    + intros s' Hs'. apply Hother; [by right|]. by intros ->.
  - apply elem_of_cons in Hs as [->|Hs]; [done|].
    rewrite IH; [|done..|intros s' Hs'; apply Hother; by right].
    assert (Hkept : match evals !! s0 with
                    | Some d => fill_engine m s0 d wb
                    | None => wb
                    end !! name = wb !! name).
    { destruct (evals !! s0); [|done]. apply fill_engine_other, Hother; [left|done]. }
    destruct (evals !! s) as [d|]; [|done]. by apply fill_engine_local.
Qed.

(** X8.  Step 3 of [generer-excel-complet] fills each phase on its own: when
    the five phases have five different sheets, the sheet of a phase in the
    generated workbook is the sheet that the fill of that phase alone gives on
    the model, whatever the other phases hold, the sheet of a phase without a
    record is the sheet of the model, and so is every sheet that is not the
    sheet of a phase. *)
Theorem generer_fills_each_phase_on_its_own evals wb name :
  (forall s s' n, s ∈ semestres -> s' ∈ semestres -> s <> s' ->
     sheetNames m !! s = Some n -> sheetNames m !! s' <> Some n) ->
  (forall s, s ∈ semestres -> sheetNames m !! s = Some name ->
     generer_etape3 m evals wb !! name
     = match evals !! s with
       | None => wb !! name
       | Some d => fill_engine m s d wb !! name
       end)
  /\ ((forall s, s ∈ semestres -> sheetNames m !! s <> Some name) ->
      generer_etape3 m evals wb !! name = wb !! name).
Proof.
  intros Hdistinct. rewrite generer_etape3_fold. split.
  - intros s Hs Hname. apply phases_own; [|done..|].
    + unfold semestres. by apply (bool_decide_unpack _).
    + intros s' Hs' Hne. by apply (Hdistinct s s' name).
  - intros Hother. by apply phases_other.
Qed.
End GenererFacts.

(** ** The student store *)

Section ElevesFacts.
Import Access Validation Fs Eleves.
Context `{Builtins} `{Text}.

Lemma loadEleves_Some eleves : loadEleves (Some eleves) = eleves.
Proof. reflexivity. Qed.

Lemma findIndex_Some eleves k i e :
  findIndex eleves (Some k) = Some (i, e)
  <-> eleves !! i = Some e /\ id e = k
      /\ forall j e', eleves !! j = Some e' -> (j < i)%nat -> id e' <> k.
Proof. unfold findIndex. cbn [mbind option_bind]. by rewrite list_find_Some. Qed.

Lemma findIndex_insert eleves k i e e' :
  findIndex eleves (Some k) = Some (i, e) -> id e' = id e ->
  findIndex (<[i := e']> eleves) (Some k) = Some (i, e').
Proof.
  intros (Hi & Hk & Hfirst)%findIndex_Some He. apply findIndex_Some.
  split; [|split].
  - apply list_lookup_insert_eq. by eapply lookup_lt_Some.
  - by rewrite He.
  - intros j e'' Hj Hlt. rewrite list_lookup_insert_ne in Hj by lia. by eapply Hfirst.
Qed.

Lemma ids_insert eleves eleveId i e e' :
  findIndex eleves eleveId = Some (i, e) -> id e' = id e ->
  id <$> <[i := e']> eleves = id <$> eleves.
Proof.
  destruct eleveId as [k|]; [|done].
  intros (Hi & _)%findIndex_Some He. rewrite list_fmap_insert, He.
  apply list_insert_id. by rewrite list_lookup_fmap, Hi.
Qed.

Lemma max_id_fold eleves a :
  a <= foldl (fun acc e' => Z.max acc (id e')) a eleves
  /\ forall e, e ∈ eleves -> id e <= foldl (fun acc e' => Z.max acc (id e')) a eleves.
Proof.
  revert a. induction eleves as [|e0 rest IH]; intros a; cbn [foldl].
  - split; [lia|]. by intros e ?%elem_of_nil.
  - destruct (IH (Z.max a (id e0))) as [Ha Hrest]. split; [lia|].
    intros e [->|He]%elem_of_cons; [lia|by apply Hrest].
Qed.

Lemma max_id_bound eleves a b :
  a <= b -> (forall e, e ∈ eleves -> id e <= b) ->
  foldl (fun acc e' => Z.max acc (id e')) a eleves <= b.
Proof.
  revert a. induction eleves as [|e0 rest IH]; intros a Ha Hb; cbn [foldl]; [done|].
  apply IH.
  - pose proof (Hb e0 ltac:(left)). lia.
  - intros e He. apply Hb. by right.
Qed.

Lemma to_double_exact n : Z.abs n <= 2 ^ 53 -> to_double n = n.
Proof.
  intros Hn. unfold to_double.
  destruct (Z.leb_spec (Z.log2 (Z.abs n) - 52) 0) as [Hk|Hk]; [done|].
  assert (Hpos : 0 < Z.abs n).
  { destruct (Z.abs n) eqn:Ha; try lia. cbn in Hk. lia. }
  pose proof (Z.log2_spec (Z.abs n) Hpos) as [Hlow _].
  assert (Hle : 2 ^ 53 <= 2 ^ Z.log2 (Z.abs n)) by (apply Z.pow_le_mono_r; lia).
  assert (Ha : Z.abs n = 2 ^ 53) by lia.
  destruct (Z.abs_eq_or_opp n) as [Hs|Hs]; rewrite Hs in Ha.
  - subst n. vm_compute. reflexivity.
  - assert (n = - 2 ^ 53) as -> by lia. vm_compute. reflexivity.
Qed.

(** The rounding of [to_double] is the rounding of the binary64 sum, here at
    integers around [2^53] and beyond. *)
Example to_double_is_the_binary64_sum :
  Forall (fun n => (Js.of_Z n + 1)%float = Js.of_Z (to_double (n + 1)))
    [7; 2 ^ 53 - 1; 2 ^ 53; 2 ^ 53 + 2; 2 ^ 54 + 4; 2 ^ 54 + 8; 2 ^ 60 + 2 ^ 8;
     - 2 ^ 53 - 2; - 2 ^ 55].
Proof. repeat constructor. Qed.

Lemma newId_above eleves e :
  (forall e', e' ∈ eleves -> safe (id e')) -> e ∈ eleves -> id e < newId eleves.
Proof.
  destruct eleves as [|e0 rest]; [by intros _ ?%elem_of_nil|].
  intros Hsafe He. unfold newId, max_id.
  destruct (max_id_fold rest (id e0)) as [Hfirst Hrest].
  pose proof (Hsafe e0 ltac:(left)) as Hs0. unfold safe in Hs0.
  assert (Hmax : foldl (fun acc e' => Z.max acc (id e')) (id e0) rest <= 2 ^ 53 - 1).
  { apply max_id_bound; [lia|]. intros e' He'.
    pose proof (Hsafe e' ltac:(by right)) as H'. unfold safe in H'. lia. }
  rewrite to_double_exact by lia.
  apply elem_of_cons in He as [->|He]; [lia|]. specialize (Hrest e He). lia.
Qed.

(** Beside a stored id of [2^53] the sum is rounded back to [2^53]. *)
Lemma newId_rounded eleves e :
  e ∈ eleves -> id e = 2 ^ 53 -> (forall e', e' ∈ eleves -> id e' <= 2 ^ 53) ->
  newId eleves = 2 ^ 53.
Proof.
  destruct eleves as [|e0 rest]; [by intros ?%elem_of_nil|].
  intros He Hid Hle. unfold newId, max_id.
  destruct (max_id_fold rest (id e0)) as [Hfirst Hrest].
  assert (Hmax : foldl (fun acc e' => Z.max acc (id e')) (id e0) rest <= 2 ^ 53).
  { apply max_id_bound; [apply Hle; left|]. intros e' He'. apply Hle. by right. }
  assert (Hge : 2 ^ 53 <= foldl (fun acc e' => Z.max acc (id e')) (id e0) rest).
  { apply elem_of_cons in He as [->|He]; [lia|]. specialize (Hrest e He). lia. }
  assert (foldl (fun acc e' => Z.max acc (id e')) (id e0) rest = 2 ^ 53) as -> by lia.
  vm_compute. reflexivity.
Qed.

(** In a store with distinct ids, two places that hold the same id are one. *)
Lemma distinct_ids eleves a b ea eb :
  NoDup (id <$> eleves) -> eleves !! a = Some ea -> eleves !! b = Some eb ->
  id ea = id eb -> a = b.
Proof.
  intros Hnd Ha Hb Heq. eapply (NoDup_lookup (id <$> eleves)); [done|..].
  - by rewrite list_lookup_fmap, Ha.
  - by rewrite list_lookup_fmap, Hb, Heq.
Qed.

(** X9.  [POST /api/eleves/:id/evaluations], from its middleware on: without a
    session the answer is 401; a user who is not an administrator gets a 200
    only as a jury and only for the phase [soutenance]; and every answer other
    than 200 leaves the store as it was. *)
Theorem evaluations_route_is_guarded session eleveId semestre data f w :
  let r := route_post_evaluations session eleveId semestre data f w in
  (session = None -> r = (401, f))
  /\ (forall u, session = Some u -> role u <> "admin" -> r.1 = 200 ->
        role u = "jury" /\ semestre = Str "soutenance")
  /\ (r.1 <> 200 -> r.2 = f).
Proof.
  cbv zeta. unfold route_post_evaluations, checkEvaluationAccess.
  split; [by intros ->|]. split.
  - intros u -> Hadmin. apply String.eqb_neq in Hadmin. rewrite Hadmin.
    destruct (String.eqb_spec (role u) "jury") as [Hjury|]; [|done].
    unfold js_or. destruct (truthy semestre) eqn:Ht; [|done].
    destruct semestre as [| |x|s]; try done.
    destruct (String.eqb_spec s "soutenance") as [->|]; done.
  - assert (Hh : (post_evaluations eleveId semestre data f w).1 <> 200 ->
                 (post_evaluations eleveId semestre data f w).2 = f).
    { unfold post_evaluations.
      destruct (and_then _ _); [|done]. destruct semestre; try done.
      destruct data; try done. by destruct (findIndex _ _) as [[i e]|]. }
    destruct session as [u|]; [|done].
    destruct (role u =? "admin")%string; [done|].
    destruct (role u =? "jury")%string; [|done].
    destruct (js_or semestre Undefined); try done.
    by destruct (_ =? _)%string.
Qed.

(** X10.  A saved evaluation is read back: when the phase is one of the five
    and the student exists, the handler answers 200; after a write that
    succeeded the student is found at the same place with the saved record for
    the phase, its other phases and its other fields as before, and every
    other student is as before.  After a write that failed the answer is 200
    all the same. *)
Theorem saved_evaluation_is_read_back eleveId s d f i e :
  s ∈ Fill.semestres ->
  findIndex (loadEleves f) eleveId = Some (i, e) ->
  let r := post_evaluations eleveId (Str s) (Data d) f Written in
  let e' := set_evaluations e (<[s := d]> (default ∅ (evaluations e))) in
  r.1 = 200
  /\ findIndex (loadEleves r.2) eleveId = Some (i, e')
  /\ (evaluations e' ≫= (.!! s)) = Some d
  /\ (forall s', s' <> s ->
        (evaluations e' ≫= (.!! s')) = (evaluations e ≫= (.!! s')))
  /\ (forall j, j <> i -> loadEleves r.2 !! j = loadEleves f !! j)
  /\ length (loadEleves r.2) = length (loadEleves f)
  /\ (forall after,
        post_evaluations eleveId (Str s) (Data d) f (WriteFailed after) = (200, after)).
Proof.
  intros Hs Hfind. cbv zeta. unfold post_evaluations.
  cbn [validateEnum validateObject and_then]. rewrite bool_decide_true by done.
  cbn [and_then]. rewrite Hfind. cbn [fst snd saveEleves]. rewrite !loadEleves_Some.
  split; [done|]. destruct eleveId as [k|]; [|done].
  split; [by apply (findIndex_insert _ k i e)|]. cbn [evaluations set_evaluations].
  split; [apply lookup_insert_eq|]. split; [|split; [|split; [|done]]].
  - intros s' Hs'. cbn [mbind option_bind]. rewrite lookup_insert_ne by done.
    destruct (evaluations e); cbn; [done|apply lookup_empty].
  - intros j Hj. by apply list_lookup_insert_ne.
  - apply length_insert.
Qed.

Lemma safe_ids f e : Forall safe (ids f) -> e ∈ loadEleves f -> safe (id e).
Proof.
  unfold ids. rewrite Forall_forall. intros Hsafe He. apply Hsafe.
  apply list_elem_of_fmap. by exists e.
Qed.

Lemma post_eleve_ids b f :
  validate_body b = Valid -> Forall safe (ids f) -> NoDup (ids f) ->
  NoDup (ids (post_eleve b f Written).2).
Proof.
  intros Hb Hsafe Hnd. unfold post_eleve. rewrite Hb.
  assert (Habove : forall e, e ∈ loadEleves f -> id e < newId (loadEleves f)).
  { intros e He. apply newId_above; [|done]. intros e' He'. by apply (safe_ids f). }
  unfold ids in *. cbn [snd]. rewrite loadEleves_Some, fmap_app.
  apply NoDup_app. split; [done|]. split; [|apply NoDup_singleton].
  intros k (e & -> & He)%list_elem_of_fmap Hin.
  apply list_elem_of_singleton in Hin. cbn in Hin.
  apply Habove in He. lia.
Qed.

(** X21.  What a jury reads and what it writes: a jury with a jury id gets
    from [GET /api/eleves] the students of its jury and no other, and from
    [GET /api/eleves/:id] a 403 for a student of another jury; a request
    without a session gets the whole list; and the save of a [soutenance]
    record is answered with 200 for every student that exists, whatever its
    jury. *)
Theorem jury_reads_its_students_only u j f :
  role u = "jury" -> juryId u = Some j -> j <> "" ->
  (forall e, e ∈ get_eleves (Some u) f <-> e ∈ loadEleves f /\ jury e = Some j)
  /\ (forall k i e, findIndex (loadEleves f) (Some k) = Some (i, e) ->
        get_eleve (Some u) (Some k) f
        = if bool_decide (jury e = Some j) then (200, Some e) else (403, None))
  /\ get_eleves None f = loadEleves f
  /\ (forall k i e d w, findIndex (loadEleves f) (Some k) = Some (i, e) ->
        (route_post_evaluations (Some u) (Some k) (Str "soutenance") (Data d) f w).1
        = 200).
Proof.
  intros Hu Hj Hne.
  assert (Hjury : jury_with_id u = true).
  { unfold jury_with_id. rewrite Hu, Hj. cbn. by apply negb_true_iff, String.eqb_neq. }
  split; [|split; [|split]].
  - intros e. unfold get_eleves. rewrite Hjury, Hj.
    rewrite !list_elem_of_In, filter_In, bool_decide_eq_true. done.
  - intros k i e Hfind. unfold get_eleve. rewrite Hfind. cbn [fmap option_fmap option_map snd].
    rewrite Hjury, Hj. by destruct (bool_decide _).
  - done.
  - intros k i e d w Hfind.
    unfold route_post_evaluations, checkEvaluationAccess, js_or. rewrite Hu.
    cbn [truthy String.eqb Ascii.eqb Bool.eqb andb negb].
    unfold post_evaluations. cbn [validateEnum validateObject and_then].
    rewrite bool_decide_true by (unfold Fill.semestres; repeat first [by left | right]).
    cbn [and_then]. by rewrite Hfind.
Qed.

(** X11.  [POST /api/eleves] with a body that passes the validation: after a
    write that succeeded the store is the old list followed by the new
    student, whose id is 1 on an empty or unreadable store.  When every
    stored id is a safe integer (below [2^53] in magnitude), the new id is
    greater than every id of the store, so that distinct ids stay distinct.
    Beside a stored id of [2^53] that is the greatest, the binary64 sum
    [Math.max(...) + 1] is rounded and the new student gets [2^53] again, an
    id the store already holds.  A write that failed is answered with 500. *)
Theorem post_eleve_appends_a_fresh_id b f :
  validate_body b = Valid ->
  post_eleve b f Written = (201, Some (loadEleves f ++ [newEleve b (loadEleves f)])%list)
  /\ (loadEleves f = [] -> id (newEleve b (loadEleves f)) = 1)
  /\ (Forall safe (ids f) ->
      (forall e, e ∈ loadEleves f -> id e < id (newEleve b (loadEleves f)))
      /\ (NoDup (ids f) -> NoDup (ids (post_eleve b f Written).2)))
  /\ (forall e, e ∈ loadEleves f -> id e = 2 ^ 53 ->
        (forall e', e' ∈ loadEleves f -> id e' <= 2 ^ 53) ->
        id (newEleve b (loadEleves f)) = id e
        /\ ~ NoDup (ids (post_eleve b f Written).2))
  /\ (forall after, post_eleve b f (WriteFailed after) = (500, after)).
Proof.
  intros Hb. split; [unfold post_eleve; by rewrite Hb|].
  split; [by intros ->|]. split; [|split].
  - intros Hsafe. split; [|by apply post_eleve_ids].
    intros e He. apply newId_above; [|done]. intros e' He'. by apply (safe_ids f).
  - intros e He Hid Hle.
    assert (Hnew : id (newEleve b (loadEleves f)) = id e).
    { cbn [newEleve id]. rewrite Hid. by apply (newId_rounded _ e). }
    split; [done|]. unfold post_eleve. rewrite Hb. unfold ids. cbn [snd].
    rewrite loadEleves_Some, fmap_app. intros Hnd. apply NoDup_app in Hnd as (_ & Hnd & _).
    apply (Hnd (id e)).
    + apply list_elem_of_fmap. by exists e.
    + cbn [fmap list_fmap]. rewrite Hnew. left.
  - intros after. unfold post_eleve. by rewrite Hb.
Qed.

Lemma find_after_delete (l : list Eleve) i k' j e' :
  j <> i ->
  list_find (fun e0 => id e0 = k') l = Some (j, e') ->
  exists j', list_find (fun e0 => id e0 = k') (delete i l) = Some (j', e').
Proof.
  intros Hji (Hj & Hid & Hjfirst)%list_find_Some.
  exists (if decide (j < i)%nat then j else pred j). apply list_find_Some.
  split; [|split; [done|]].
  - destruct (decide (j < i)%nat) as [Hlt|Hge].
    + by rewrite list_lookup_delete_lt.
    + rewrite list_lookup_delete_ge by lia. by replace (S (pred j)) with j by lia.
  - intros j0 e0 Hj0 Hlt.
    destruct (decide (j0 < i)%nat) as [Hlt0|Hge0].
    + rewrite list_lookup_delete_lt in Hj0 by done.
      eapply Hjfirst; [done|]. destruct (decide (j < i)%nat); lia.
    + rewrite list_lookup_delete_ge in Hj0 by lia.
      eapply Hjfirst; [done|]. destruct (decide (j < i)%nat); lia.
Qed.

(** X12.  [DELETE /api/eleves/:id]: the first student with the id is removed
    and no other; when the ids of the store are distinct the id is no longer
    found afterwards, and every other id is found with the record it had. *)
Theorem delete_eleve_removes_the_student k f i e :
  findIndex (loadEleves f) (Some k) = Some (i, e) ->
  let f' := (delete_eleve (Some k) f Written).2 in
  delete_eleve (Some k) f Written = (200, Some (delete i (loadEleves f)))
  /\ (NoDup (ids f) ->
      NoDup (ids f')
      /\ findIndex (loadEleves f') (Some k) = None
      /\ forall k', k' <> k ->
           snd <$> findIndex (loadEleves f') (Some k')
           = snd <$> findIndex (loadEleves f) (Some k')).
Proof.
  intros Hfind. cbv zeta. unfold delete_eleve. rewrite Hfind.
  cbn [fst snd saveEleves]. split; [done|]. intros Hnd.
  apply findIndex_Some in Hfind as (Hi & Hk & Hfirst).
  unfold ids in *. rewrite !loadEleves_Some.
  generalize dependent (loadEleves f). intros l Hi Hfirst Hnd.
  split; [|split].
  - rewrite list_fmap_delete. eapply sublist_NoDup; [done|apply sublist_delete].
  - unfold findIndex. cbn [mbind option_bind]. apply list_find_None, Forall_forall.
    intros e' He' Hk'. apply list_elem_of_lookup in He' as [j Hj].
    destruct (decide (j < i)%nat) as [Hlt|Hge].
    + rewrite list_lookup_delete_lt in Hj by done. by eapply Hfirst.
    + rewrite list_lookup_delete_ge in Hj by lia.
      assert (S j = i) by (eapply (distinct_ids l); [done..|congruence]). lia.
  - intros k' Hk'. unfold findIndex. cbn [mbind option_bind].
    destruct (list_find (fun e0 => id e0 = k') l) as [[j e']|] eqn:Hl.
    + assert (j <> i).
      { intros ->. apply list_find_Some in Hl as (Hj & Hid & _). congruence. }
      destruct (find_after_delete l i k' j e') as [j' ->]; done.
    + assert (list_find (fun e0 => id e0 = k') (delete i l) = None) as ->; [|done].
      apply list_find_None, Forall_forall. apply list_find_None in Hl.
      rewrite Forall_forall in Hl. intros e' He'. apply Hl.
      eapply elem_of_sublist; [done|apply sublist_delete].
Qed.

(** X13.  Every route that rewrites the store keeps its ids distinct: the four
    routes that change one student leave the list of ids as it is, the
    deletion removes one id, and the creation, in a store whose ids are safe
    integers (below [2^53] in magnitude), adds an id that was not there. *)
Theorem store_routes_keep_ids_distinct eleveId f :
  NoDup (ids f) ->
  (forall semestre data,
     ids (post_evaluations eleveId semestre data f Written).2 = ids f)
  /\ (forall jury, ids (patch_jury eleveId jury f Written).2 = ids f)
  /\ (forall projet, ids (patch_projet eleveId projet f Written).2 = ids f)
  /\ (forall note commentaires,
        ids (post_recapitulatif eleveId note commentaires f Written).2 = ids f)
  /\ NoDup (ids (delete_eleve eleveId f Written).2)
  /\ (forall b, Forall safe (ids f) -> NoDup (ids (post_eleve b f Written).2)).
Proof.
  intros Hnd. unfold ids.
  assert (Hset : forall i e e', findIndex (loadEleves f) eleveId = Some (i, e) ->
            id e' = id e ->
            id <$> loadEleves (Some (<[i := e']> (loadEleves f))) = id <$> loadEleves f).
  { intros i e e' Hfind He. rewrite loadEleves_Some. by eapply ids_insert. }
  split; [|split; [|split; [|split; [|split]]]].
  - intros semestre data. unfold post_evaluations.
    destruct (and_then _ _); [|done]. destruct semestre; try done.
    destruct data; try done.
    destruct (findIndex _ _) as [[i e]|] eqn:Hfind; [|done]. by apply (Hset i e).
  - intros jury. unfold patch_jury. destruct (validate_jury jury); [|done].
    destruct (findIndex _ _) as [[i e]|] eqn:Hfind; [|done]. by apply (Hset i e).
  - intros projet. unfold patch_projet.
    destruct (findIndex _ _) as [[i e]|] eqn:Hfind; [|done]. by apply (Hset i e).
  - intros note commentaires. unfold post_recapitulatif.
    destruct (validate_recapitulatif _ _); [|done].
    destruct (findIndex _ _) as [[i e]|] eqn:Hfind; [|done]. by apply (Hset i e).
  - unfold delete_eleve. destruct (findIndex _ _) as [[i e]|]; [|done].
    cbn [fst snd saveEleves]. rewrite loadEleves_Some, list_fmap_delete.
    eapply sublist_NoDup; [done|apply sublist_delete].
  - intros b Hsafe. destruct (validate_body b) eqn:Hb.
    + by apply post_eleve_ids.
    + unfold post_eleve. by rewrite Hb.
Qed.
End ElevesFacts.

(** ** Access to the phases *)

Section AccessFacts.
Import Access Mapping MappingRoute Eleves RemplirExcel Server Fs.
Context `{Builtins}.

(** X14.  For a jury, the mapping route decides on [req.body.semestre] when the
    body has one and only otherwise on the phase of the path: without it the
    phase of the path is served only when it is [soutenance]; with the body
    field [soutenance] the phase of the path is served whatever it is; with
    any other body field the answer is 403. *)
Theorem mapping_route_checks_the_body_first m u body semestre :
  role u = "jury" ->
  (truthy body = false ->
     route_get_evaluation m (Some u) body semestre
     = if String.eqb semestre "soutenance" then get_evaluation m semestre
       else (403, None))
  /\ (body = Str "soutenance" ->
      route_get_evaluation m (Some u) body semestre = get_evaluation m semestre)
  /\ (truthy body = true -> body <> Str "soutenance" ->
      route_get_evaluation m (Some u) body semestre = (403, None)).
Proof.
  intros Hu. unfold route_get_evaluation, checkEvaluationAccess, js_or.
  rewrite Hu. cbn [String.eqb Ascii.eqb Bool.eqb andb].
  split; [|split].
  - intros ->. by destruct (semestre =? "soutenance")%string.
  - by intros ->.
  - intros -> Hb. destruct body as [| |x|s]; try done.
    destruct (String.eqb_spec s "soutenance") as [->|]; done.
Qed.

(** X15.  What [remplir-excel] fills is what was saved: after a save that
    succeeded, the checks of [remplir-excel] for the same student and phase
    pass when the workbook exists, and the request that reaches
    [acquireExcelLock] carries the saved record and the names of the student.
    A jury passes the middleware of both routes for [soutenance] and is
    answered 403 by both for any other phase. *)
Theorem saved_record_reaches_the_fill u eleveId s d f i e exists_file :
  s ∈ Fill.semestres ->
  findIndex (loadEleves f) eleveId = Some (i, e) ->
  exists_file (output_file_name (nom e) (prenom e)) = true ->
  let f' := (post_evaluations eleveId (Str s) (Data d) f Written).2 in
  checks eleveId (Str s) f' exists_file
  = inr (Request (RemplirExcel s d) (nom e) (prenom e))
  /\ (role u = "admin" \/ (role u = "jury" /\ s = "soutenance") ->
      route_post_evaluations (Some u) eleveId (Str s) (Data d) f Written = (200, f')
      /\ route_checks (Some u) eleveId (Str s) f' exists_file
         = inr (Request (RemplirExcel s d) (nom e) (prenom e)))
  /\ (role u = "jury" -> s <> "soutenance" ->
      route_post_evaluations (Some u) eleveId (Str s) (Data d) f Written = (403, f)
      /\ route_checks (Some u) eleveId (Str s) f exists_file = inl 403).
Proof.
  intros Hs Hfind Hexists. cbv zeta.
  assert (Hpost : post_evaluations eleveId (Str s) (Data d) f Written
                  = (200, Some (<[i := set_evaluations e
                                         (<[s := d]> (default ∅ (evaluations e)))]>
                                  (loadEleves f)))).
  { unfold post_evaluations. cbn [Validation.validateEnum validateObject Validation.and_then].
    rewrite bool_decide_true by done. cbn [Validation.and_then]. by rewrite Hfind. }
  assert (Hchecks : checks eleveId (Str s)
                      (post_evaluations eleveId (Str s) (Data d) f Written).2 exists_file
                    = inr (Request (RemplirExcel s d) (nom e) (prenom e))).
  { rewrite Hpost. cbn [snd]. unfold checks. rewrite loadEleves_Some.
    destruct eleveId as [k|]; [|done].
    rewrite (findIndex_insert _ k i e) by done. cbn [fmap option_fmap option_map snd].
    cbn [evaluations set_evaluations mbind option_bind to_string].
    rewrite lookup_insert_eq. cbn [nom prenom set_evaluations]. by rewrite Hexists. }
  assert (Hne : s <> "").
  { intros ->. unfold Fill.semestres in Hs.
    repeat (apply elem_of_cons in Hs as [Hs|Hs]; [done|]). by apply elem_of_nil in Hs. }
  assert (Htruthy : truthy (Str s) = true).
  { cbn. by apply negb_true_iff, String.eqb_neq. }
  split; [done|]. split.
  - intros Hrole. unfold route_post_evaluations, route_checks, checkEvaluationAccess, js_or.
    rewrite Htruthy.
    destruct Hrole as [->|[-> ->]]; cbn [String.eqb Ascii.eqb Bool.eqb andb];
      (split; [by rewrite Hpost|exact Hchecks]).
  - intros Hu Hsout.
    unfold route_post_evaluations, route_checks, checkEvaluationAccess, js_or.
    rewrite Htruthy, Hu. cbn [String.eqb Ascii.eqb Bool.eqb andb].
    apply String.eqb_neq in Hsout. by rewrite Hsout.
Qed.
End AccessFacts.

(** ** The evaluation lock *)

Section EvalLockFacts.
Import Access EvalLock Fs.
Context `{Dates}.

Lemma given_Some j : j <> "" -> given (Some j) = true.
Proof. intros Hj. cbn. by apply negb_true_iff, String.eqb_neq. Qed.

Lemma is_jury_role u : role u = "jury" -> is_jury (Some u) = Some u.
Proof. intros Hu. unfold is_jury. by rewrite Hu. Qed.

(** X16.  A lock that a jury sets is in force between its two dates, bounds
    included: when the end is after the start the answer is 200, the entry of
    the jury holds the two dates and no early unlock, the other entries are
    kept, and [isInLockPeriod] and the check of the front end for an
    administrator are true exactly from the start to the end.  An end that is
    not after the start is answered with 400, and a date that cannot be read
    with 500; both leave the file as it is. *)
Theorem lock_set_is_in_force_between u j sd ed f :
  role u = "jury" -> jury_or_username u = Some j -> j <> "" ->
  truthy sd = true -> truthy ed = true ->
  (forall s e, date_of sd = Some s -> date_of ed = Some e -> s < e ->
     toISOString s <> "" -> toISOString e <> "" ->
     date_of (Str (toISOString s)) = Some s ->
     date_of (Str (toISOString e)) = Some e ->
     let r := set_lock (Some u) sd ed f Written in
     r.1 = 200
     /\ (forall j', j' <> j ->
           loadEvaluationLock r.2 !! j' = loadEvaluationLock f !! j')
     /\ (forall now,
           isInLockPeriod (loadEvaluationLock r.2) j now = true <-> s <= now <= e)
     /\ (forall admin now, role admin = "admin" ->
           shouldLockAdminActionsForEleve (Some admin) (get_lock (Some admin) now r.2).2
             (Some j) now = true <-> s <= now <= e))
  /\ (forall s e w, date_of sd = Some s -> date_of ed = Some e -> e <= s ->
        set_lock (Some u) sd ed f w = (400, f))
  /\ (forall w, date_of sd = None \/ date_of ed = None ->
        set_lock (Some u) sd ed f w = (500, f)).
Proof.
  intros Hu Hj Hne Hsd Hed.
  assert (Hset : forall w, set_lock (Some u) sd ed f w
            = match date_of sd, date_of ed with
              | Some start, Some end_ =>
                  if end_ <=? start then (400, f)
                  else saveEvaluationLock
                         (<[j := {| isLocked := true;
                                    startDate := Some (toISOString start);
                                    endDate := Some (toISOString end_);
                                    unlockedEarly := false |}]> (loadEvaluationLock f)) w
              | _, _ => (500, f)
              end).
  { intros w. unfold set_lock. rewrite (is_jury_role u Hu), Hj, (given_Some j Hne), Hsd, Hed.
    done. }
  split; [|split].
  - intros s e Hs He Hlt Hs0 He0 Hsr Her. cbv zeta. rewrite Hset, Hs, He.
    destruct (Z.leb_spec e s); [lia|]. cbn [saveEvaluationLock fst snd].
    assert (Hin : forall now,
              isInLockPeriod
                (<[j := {| isLocked := true; startDate := Some (toISOString s);
                           endDate := Some (toISOString e); unlockedEarly := false |}]>
                   (loadEvaluationLock f)) j now = true <-> s <= now <= e).
    { intros now. unfold isInLockPeriod. rewrite lookup_insert_eq.
      cbn [isLocked unlockedEarly startDate endDate negb orb].
      rewrite !given_Some by done. cbn [negb orb default from_option Datatypes.id].
      rewrite Hsr, Her. rewrite andb_true_iff, !Z.leb_le. done. }
    split; [done|]. split; [|split].
    + intros j' Hj'. by apply lookup_insert_ne.
    + done.
    + intros admin now Hadmin. unfold shouldLockAdminActionsForEleve, get_lock.
      rewrite Hadmin. cbn [String.eqb Ascii.eqb Bool.eqb andb negb].
      rewrite given_Some by done. cbn [negb default from_option Datatypes.id].
      apply Hin.
  - intros s e w Hs He Hle. rewrite Hset, Hs, He.
    by destruct (Z.leb_spec e s); [|lia].
  - intros w Hnone. rewrite Hset.
    destruct Hnone as [-> | ->]; [done|]. by destruct (date_of sd).
Qed.

(** X17.  An early unlock and a disabling both end the lock: after either,
    [isInLockPeriod] is false at every time.  The unlock keeps the two dates
    and needs an entry for the jury: without one the answer is 500 and the
    file is kept.  The disabling reads the jury id of the session only, and
    answers 400 without one even when the user has a name. *)
Theorem unlock_and_disable_end_the_lock u f :
  role u = "jury" ->
  (forall j, jury_or_username u = Some j -> j <> "" ->
     match loadEvaluationLock f !! j with
     | None => forall w, unlock (Some u) f w = (500, f)
     | Some l =>
         let r := unlock (Some u) f Written in
         r.1 = 200
         /\ (forall now, isInLockPeriod (loadEvaluationLock r.2) j now = false)
         /\ (startDate <$> (loadEvaluationLock r.2 !! j) = Some (startDate l))
         /\ (endDate <$> (loadEvaluationLock r.2 !! j) = Some (endDate l))
     end)
  /\ (forall j, juryId u = Some j -> j <> "" ->
        let r := disable (Some u) f Written in
        r.1 = 200
        /\ loadEvaluationLock r.2 !! j = Some unlocked
        /\ (forall now, isInLockPeriod (loadEvaluationLock r.2) j now = false))
  /\ (given (juryId u) = false -> forall w, disable (Some u) f w = (400, f)).
Proof.
  intros Hu. split; [|split].
  - intros j Hj Hne. unfold unlock.
    rewrite (is_jury_role u Hu), Hj, (given_Some j Hne).
    cbn [negb default from_option Datatypes.id].
    destruct (loadEvaluationLock f !! j) as [l|]; [|done].
    cbn [saveEvaluationLock fst snd]. split; [done|].
    change (loadEvaluationLock (Some ?x)) with x. rewrite lookup_insert_eq.
    split; [|done]. intros now. unfold isInLockPeriod. rewrite lookup_insert_eq.
    cbn [unlockedEarly]. by rewrite orb_true_r.
  - intros j Hj Hne. unfold disable.
    rewrite (is_jury_role u Hu), Hj, (given_Some j Hne).
    cbn [negb default from_option Datatypes.id saveEvaluationLock fst snd].
    change (loadEvaluationLock (Some ?x)) with x. rewrite lookup_insert_eq.
    split; [done|]. split; [done|]. intros now. unfold isInLockPeriod.
    by rewrite lookup_insert_eq.
  - intros Hg w. unfold disable. by rewrite (is_jury_role u Hu), Hg.
Qed.
End EvalLockFacts.

(** ** The summary sheet *)

Section RecapFacts.
Import Mapping Fill Eleves Recap.
Context `{Builtins}.

Lemma filled_app a b : filled a = true -> filled (a +:+ b) = true.
Proof. by destruct a. Qed.

Lemma valid_fullText m : valid m = true -> filled (fullText m) = true.
Proof.
  unfold valid, fullText. destruct m as [n p q]; cbn [member_nom member_prenom member_qualite].
  intros Hv. set (text := join _).
  assert (Htext : filled n || filled p = true -> filled text = true).
  { subst text. destruct (filled n) eqn:Hn, (filled p) eqn:Hp; cbn [app join]; try done.
    intros _. by apply filled_app. }
  destruct (filled q) eqn:Hq.
  - destruct (filled text) eqn:Hft; [by apply filled_app|done].
  - rewrite orb_false_r in Hv. by apply Htext.
Qed.

Lemma write_members_frame jm index members sh r :
  (forall k addr, (index <= k < index + length members)%nat ->
                  jm !! cellKey k = Some addr -> parse_address addr <> Some r) ->
  write_members jm index members sh !! r = sh !! r.
Proof.
  revert index sh. induction members as [|m rest IH]; intros index sh Hother; [done|].
  cbn [write_members]. cbn [length] in Hother.
  assert (Hrest : forall sh', write_members jm (S index) rest sh' !! r = sh' !! r).
  { intros sh'. apply IH. intros k addr Hk. apply Hother. lia. }
  destruct (jm !! cellKey index) as [addr|] eqn:Haddr; [|apply Hrest].
  destruct (filled addr && filled (fullText m)); [|apply Hrest].
  unfold set_cell. destruct (parse_address addr) as [r'|] eqn:Hp; cbn [mbind option_bind]; [|done].
  rewrite Hrest. apply lookup_insert_ne. intros ->. apply (Hother index addr); [lia|done..].
Qed.

Lemma write_members_slot jm members : forall index sh k m addr r,
  members !! k = Some m -> filled (fullText m) = true ->
  jm !! cellKey (index + k) = Some addr -> filled addr = true ->
  parse_address addr = Some r ->
  (forall k' addr', (index <= k' < index + length members)%nat ->
                    k' <> (index + k)%nat -> jm !! cellKey k' = Some addr' ->
                    parse_address addr' <> Some r) ->
  (forall k' addr', (index <= k' < index + k)%nat -> jm !! cellKey k' = Some addr' ->
                    filled addr' = true -> is_Some (parse_address addr')) ->
  write_members jm index members sh !! r = Some (Str (fullText m)).
Proof.
  induction members as [|m0 rest IH]; intros index sh k m addr r Hk Hm Haddr Hfa Hp Hother Hparse;
    [done|].
  cbn [write_members]. cbn [length] in Hother. destruct k as [|k].
  - cbn in Hk. injection Hk as ->. rewrite Nat.add_0_r in Haddr. rewrite Haddr, Hfa, Hm.
    cbn [andb]. unfold set_cell. rewrite Hp. cbn [mbind option_bind].
    rewrite write_members_frame; [apply lookup_insert_eq|].
    intros k' addr' Hk'. apply Hother; lia.
  - cbn in Hk.
    assert (Hrest : forall sh', write_members jm (S index) rest sh' !! r
                                = Some (Str (fullText m))).
    { intros sh'. apply (IH (S index) sh' k m addr r); try done.
      - by replace (S index + k)%nat with (index + S k)%nat by lia.
      - intros k' addr' Hk' Hne'. apply Hother; lia.
      - intros k' addr' Hk'. apply Hparse. lia. }
    destruct (jm !! cellKey index) as [addr0|] eqn:Haddr0; [|apply Hrest].
    destruct (filled addr0) eqn:Hf0; cbn [andb]; [|apply Hrest].
    destruct (filled (fullText m0)); [|apply Hrest].
    destruct (Hparse index addr0) as [r0 Hr0]; [lia|done..|].
    unfold set_cell. rewrite Hr0. cbn [mbind option_bind]. apply Hrest.
Qed.

Lemma write_jury_frame eleve jm jf sh r :
  (forall jm', jm = Some jm' -> forall k a, (k < 3)%nat -> jm' !! cellKey k = Some a ->
                                            parse_address a <> Some r) ->
  write_jury eleve jm jf sh !! r = sh !! r.
Proof.
  intros Hother. unfold write_jury. destruct (jury eleve) as [j|]; [|done].
  destruct jm as [jm'|]; [|done]. destruct (filled j); [|done].
  apply write_members_frame. intros k a Hk. apply Hother; [done|].
  rewrite length_take in Hk. lia.
Qed.

(** X18.  The members of the jury on the summary sheet: the members without a
    name and without a quality are passed over and use no cell, the first
    three of the others go to the cells [member1], [member2] and [member3] in
    their order, and no further member is written.  A member that goes to a
    cell has a text that is not empty; the cell holds that text as soon as no
    other member cell is the same cell and no earlier member cell is an
    address that [cell] refuses. *)
Theorem jury_members_fill_the_slots eleve jm jf sh j k m addr r :
  jury eleve = Some j -> j <> "" ->
  List.filter valid (default [] (loadJuryMembers jf !! j)) !! k = Some m ->
  (k < 3)%nat ->
  jm !! cellKey k = Some addr -> addr <> "" -> parse_address addr = Some r ->
  (forall k' addr', (k' < 3)%nat -> k' <> k -> jm !! cellKey k' = Some addr' ->
                    parse_address addr' <> Some r) ->
  (forall k' addr', (k' < k)%nat -> jm !! cellKey k' = Some addr' -> addr' <> "" ->
                    is_Some (parse_address addr')) ->
  fullText m <> ""
  /\ read (write_jury eleve (Some jm) jf sh) r = Str (fullText m)
  /\ (forall r', (forall k' addr', (k' < 3)%nat -> jm !! cellKey k' = Some addr' ->
                                   parse_address addr' <> Some r') ->
                 read (write_jury eleve (Some jm) jf sh) r' = read sh r').
Proof.
  intros Hj Hne Hk Hlt Haddr Hfa Hp Hother Hparse.
  assert (Hvalid : valid m = true).
  { apply list_elem_of_lookup_2 in Hk. apply list_elem_of_In in Hk.
    by apply filter_In in Hk as [_ Hv]. }
  assert (Hm : filled (fullText m) = true) by by apply valid_fullText.
  split; [|split].
  - intros Heq. by rewrite Heq in Hm.
  - unfold write_jury. rewrite Hj.
    assert (filled j = true) as -> by by apply negb_true_iff, String.eqb_neq.
    unfold read.
    rewrite (write_members_slot jm _ 0%nat sh k m addr r); try done.
    + by rewrite lookup_take_lt.
    + by apply negb_true_iff, String.eqb_neq.
    + intros k' addr' Hk' Hne'. apply Hother; [|done]. rewrite length_take in Hk'. lia.
    + intros k' addr' Hk' Haddr' Hf'. apply (Hparse k' addr'); [lia|done|].
      intros ->. done.
  - intros r' Hr'. unfold read. rewrite write_jury_frame; [done|].
    intros jm' [= <-] k' a Hk'. by apply Hr'.
Qed.

Lemma write_note_lookup addr r0 v sh r :
  parse_address addr = Some r0 ->
  write_note addr v sh !! r
  = if decide (r = r0)
    then (if truthy v then Some (Num (parseFloat v)) else sh !! r)
    else sh !! r.
Proof.
  intros Hp. unfold write_note, try_set_cell, set_cell. rewrite Hp.
  cbn [mbind option_bind default from_option Datatypes.id].
  case_decide as Hr.
  - subst. destruct (truthy v); [apply lookup_insert_eq|done].
  - destruct (truthy v); [by apply lookup_insert_ne|done].
Qed.

(** X19.  The final scores on the summary sheet, when none of the three cells
    configured for the jury members ([member1], [member2], [member3]) is F28,
    F30 or F32 (the member texts are written after the scores): after step 4
    the cells F28, F30 and F32 hold [parseFloat] of the final score of
    [stage], [revue3] and [soutenance] when that score is truthy, and what
    they held otherwise.  A final score of 0 is therefore left out of the
    summary sheet, while the fill of the phase writes it on the sheet of the
    phase. *)
Theorem recap_leaves_out_a_zero_score eleve jm jf sh :
  (forall jm' k a r, jm = Some jm' -> (k < 3)%nat -> jm' !! cellKey k = Some a ->
     r ∈ [("F", 28%N); ("F", 30%N); ("F", 32%N)] -> parse_address a <> Some r) ->
  let sh' := fill_recap eleve jm jf sh in
  let score s r := read sh' r = if truthy (note_finale_of eleve s)
                                then Num (parseFloat (note_finale_of eleve s))
                                else read sh r in
  score "stage" ("F", 28%N) /\ score "revue3" ("F", 30%N)
  /\ score "soutenance" ("F", 32%N)
  /\ (forall s d cs ch sh0,
        evaluations eleve ≫= (.!! s) = Some d ->
        EvalData.note_finale d <> Undefined -> EvalData.note_finale d <> Null ->
        truthy (EvalData.note_finale d) = false ->
        Mapping.note_finale cs = Some ch ->
        write_note_finale cs d sh0
        = try_set_cell sh0 (cellule ch) (Num (parseFloat (EvalData.note_finale d)))
        /\ truthy (note_finale_of eleve s) = false).
Proof.
  intros Hjury. cbv zeta.
  assert (Hcell : forall r, r ∈ [("F", 28%N); ("F", 30%N); ("F", 32%N)] ->
            fill_recap eleve jm jf sh !! r
            = write_note "F32" (note_finale_of eleve "soutenance")
                (write_note "F30" (note_finale_of eleve "revue3")
                   (write_note "F28" (note_finale_of eleve "stage") sh)) !! r).
  { intros r Hr. unfold fill_recap. rewrite write_jury_frame.
    2:{ intros jm' -> k a Hk Ha. by apply (Hjury jm' k a r). }
    assert (Hc34 : r <> ("C", 34%N)).
    { intros ->. repeat (apply elem_of_cons in Hr as [Hr|Hr]; [done|]).
      by apply elem_of_nil in Hr. }
    assert (Hb37 : parse_address "B37" <> Some r).
    { intros Hb. vm_compute in Hb. injection Hb as <-.
      repeat (apply elem_of_cons in Hr as [Hr|Hr]; [done|]). by apply elem_of_nil in Hr. }
    destruct (recapitulatif eleve) as [rc|].
    - transitivity (write_note "C34" (note_proposee rc)
                      (write_note "F32" (note_finale_of eleve "soutenance")
                         (write_note "F30" (note_finale_of eleve "revue3")
                            (write_note "F28" (note_finale_of eleve "stage") sh))) !! r).
      + destruct (truthy (commentaires rc)); [|done]. by apply try_set_cell_other.
      + rewrite (write_note_lookup "C34" ("C", 34%N)) by reflexivity.
        by rewrite decide_False.
    - rewrite (write_note_lookup "C34" ("C", 34%N)) by reflexivity.
      by rewrite decide_False. }
  split; [|split; [|split]].
  - unfold read. rewrite Hcell by (left).
    rewrite (write_note_lookup "F32" ("F", 32%N)) by reflexivity.
    rewrite decide_False by done.
    rewrite (write_note_lookup "F30" ("F", 30%N)) by reflexivity.
    rewrite decide_False by done.
    rewrite (write_note_lookup "F28" ("F", 28%N)) by reflexivity.
    rewrite decide_True by done. by destruct (truthy _).
  - unfold read. rewrite Hcell by (right; left).
    rewrite (write_note_lookup "F32" ("F", 32%N)) by reflexivity.
    rewrite decide_False by done.
    rewrite (write_note_lookup "F30" ("F", 30%N)) by reflexivity.
    rewrite decide_True by done. destruct (truthy _); [done|].
    rewrite (write_note_lookup "F28" ("F", 28%N)) by reflexivity.
    by rewrite decide_False.
  - unfold read. rewrite Hcell by (right; right; left).
    rewrite (write_note_lookup "F32" ("F", 32%N)) by reflexivity.
    rewrite decide_True by done. destruct (truthy _); [done|].
    rewrite (write_note_lookup "F30" ("F", 30%N)) by reflexivity.
    rewrite decide_False by done.
    rewrite (write_note_lookup "F28" ("F", 28%N)) by reflexivity.
    by rewrite decide_False.
  - intros s d cs ch sh0 Hd Hu Hn Ht Hch. split.
    + unfold write_note_finale. rewrite Hch. by destruct (EvalData.note_finale d).
    + unfold note_finale_of. by rewrite Hd.
Qed.
End RecapFacts.

(** ** The form and the sheet *)

Section FormFacts.
Import Mapping Fill Form.
Context `{Builtins}.

Lemma json_number_defined x : json_number x <> Undefined.
Proof. unfold json_number. by destruct (Prim2SF x). Qed.

(** X20.  The two auxiliary inputs of the form, once they reach the fill: a
    form that has the bonus input always has its bonus cell written, with a
    number; a final score whose text reads as 0 or as no number is sent as
    [null] and the fill leaves the cell of the final score as it is. *)
Theorem form_fields_reach_the_sheet d cs sh :
  (forall text ch,
     EvalData.bonus d = collect_bonus (Some text) -> Mapping.bonus cs = Some ch ->
     write_bonus cs d sh
     = try_set_cell sh (cellule ch) (Num (num_or_zero (parseFloat (EvalData.bonus d)))))
  /\ (forall text,
        EvalData.note_finale d = collect_note_finale (Some text) ->
        truthy_num (parseFloat (Str text)) = false ->
        EvalData.note_finale d = Null /\ write_note_finale cs d sh = sh)
  /\ (EvalData.bonus d = collect_bonus None ->
      EvalData.note_finale d = collect_note_finale None ->
      write_note_finale cs d (write_bonus cs d sh) = sh).
Proof.
  split; [|split].
  - intros text ch Hb Hch. unfold write_bonus. rewrite Hch.
    pose proof (json_number_defined (num_or_zero (parseFloat (Str text)))) as Hd.
    unfold collect_bonus in Hb. rewrite <- Hb in Hd.
    by destruct (EvalData.bonus d).
  - intros text Hn Ht. unfold collect_note_finale in Hn. rewrite Ht in Hn.
    split; [done|]. unfold write_note_finale. rewrite Hn.
    by destruct (Mapping.note_finale cs).
  - intros Hb Hn. cbn in Hb, Hn. unfold write_note_finale, write_bonus.
    rewrite Hb, Hn. by destruct (Mapping.note_finale cs), (Mapping.bonus cs).
Qed.
End FormFacts.

(** ** The added properties at concrete inputs *)

Section MoreExamples.
Import Mapping Fill Frame Calc Gate Server Access Fs Eleves MappingRoute RemplirExcel.
Import EvalLock Recap Sample Examples.

(** A lock taken at time 5 on a free gate and released. *)
Lemma acquire_then_release_witness :
  releaseExcelLock "Dupont_Jean_Evaluation.xlsx"
    (acquireExcelLock 5 "Dupont_Jean_Evaluation.xlsx" Gate.init).1 = Gate.init.
Proof.
  apply (acquire_then_release 5 "Dupont_Jean_Evaluation.xlsx" Gate.init).
  - reflexivity.
  - cbn. unfold MAX_CONCURRENT_EXCEL_OPERATIONS. lia.
Defined.

(** The state after a request that times out beside a request in flight. *)
Lemma counter_never_exceeds_table_witness :
  match run mapping Server.init
          [Request (GenererExcelComplet false) "Dupont" "Jean";
           Request (RemplirExcel "stage" record) "Dupont" "Jean";
           Tick 30001; Timer 1] with
  | Some s => 0 <= activeExcelOperations (gate s)
                <= Z.of_nat (size (excelLocks (gate s)))
  | None => True
  end.
Proof.
  destruct (run mapping Server.init _) as [s|] eqn:Hrun; [|exact I].
  apply (counter_never_exceeds_table mapping s). by eexists.
Defined.

(** Row 21 of the sample sheet after the fill of the sample record: level 3
    is read back as position 2, though the row held a mark for level 2. *)
Lemma calculator_reads_back_the_level_witness :
  let sh' := fill_sheet mapping "stage" competences_stage record sheet_stage in
  valeur (read sh' ("C", 21%N)) (read sh' ("D", 21%N))
         (read sh' ("E", 21%N)) (read sh' ("F", 21%N)) = Some 2%float.
Proof.
  pose proof (calculator_reads_back_the_level mapping "stage" competences_stage record
                sheet_stage {| Mapping.id := "c01_1"; Mapping.ligne := 21 |}) as Hw.
  cbv zeta in Hw. apply Hw.
  - reflexivity.
  - left.
  - apply Forall_forall. repeat constructor; try done; cbn; lia.
  - intros col a Hcol Ha.
    assert (Hall : Forall (fun a => forall col, parse_address a
                                        <> Some (col, Z.to_N 21))
                     (champs_addresses mapping "stage")).
    { repeat constructor; intros col'; vm_compute; by intros [=]. }
    rewrite Forall_forall in Hall. by apply Hall.
Defined.

(** The [stage] sheet of the model after step 3 with the sample record. *)
Lemma generer_fills_each_phase_on_its_own_witness :
  generer_etape3 mapping {[ "stage" := record ]} workbook_stage !! "E6 STAGE - IR"
  = fill_engine mapping "stage" record workbook_stage !! "E6 STAGE - IR".
Proof.
  apply (proj1 (generer_fills_each_phase_on_its_own mapping {[ "stage" := record ]}
                  workbook_stage "E6 STAGE - IR"
                  ltac:(intros s s' n Hs Hs' Hne H1 H2; unfold semestres in Hs, Hs';
                        repeat (apply elem_of_cons in Hs as [->|Hs]);
                        repeat (apply elem_of_cons in Hs' as [->|Hs']);
                        try (by apply elem_of_nil in Hs);
                        try (by apply elem_of_nil in Hs');
                        try done; vm_compute in H1, H2; congruence)) "stage").
  - left.
  - reflexivity.
Defined.

(** A [soutenance] record saved for the student 7 of the sample store. *)
Lemma saved_evaluation_is_read_back_witness :
  (post_evaluations (Some 7) (Str "soutenance") (Data soutenance) store Written).1 = 200.
Proof.
  apply (saved_evaluation_is_read_back (Some 7) "soutenance" soutenance store 0 dupont).
  - unfold semestres. repeat first [by left | right].
  - reflexivity.
Defined.

(** A creation in the sample store: the id after 7 and 9 is 10. *)
Lemma post_eleve_appends_a_fresh_id_witness :
  post_eleve body store Written
  = (201, Some (loadEleves store ++ [newEleve body (loadEleves store)])%list).
Proof. apply (post_eleve_appends_a_fresh_id body store). reflexivity. Defined.

Lemma delete_eleve_removes_the_student_witness :
  delete_eleve (Some 7) store Written = (200, Some [martin]).
Proof. apply (delete_eleve_removes_the_student 7 store 0 dupont). reflexivity. Defined.

(** A creation in the sample store, whose ids 7 and 9 are safe integers. *)
Lemma store_routes_keep_ids_distinct_witness :
  NoDup (ids (post_eleve body store Written).2).
Proof.
  apply (store_routes_keep_ids_distinct None store).
  - apply (bool_decide_unpack _). vm_compute. exact I.
  - unfold safe. apply (bool_decide_unpack _). vm_compute. exact I.
Defined.

(** The user of [jury1] asks for the student 9, who is of [jury2]. *)
Lemma jury_reads_its_students_only_witness :
  get_eleve (Some jury1) (Some 9) store = (403, None).
Proof.
  apply (proj1 (proj2 (jury_reads_its_students_only jury1 "jury1" store
                         eq_refl eq_refl ltac:(discriminate))) 9 1%nat martin).
  reflexivity.
Defined.

(** A jury reads the mapping of [stage] with [soutenance] in the body. *)
Lemma mapping_route_checks_the_body_first_witness :
  route_get_evaluation mapping (Some jury1) (Str "soutenance") "stage"
  = get_evaluation mapping "stage".
Proof.
  apply (mapping_route_checks_the_body_first mapping jury1 (Str "soutenance") "stage");
    reflexivity.
Defined.

Lemma saved_record_reaches_the_fill_witness :
  checks (Some 7) (Str "soutenance")
    (post_evaluations (Some 7) (Str "soutenance") (Data soutenance) store Written).2
    (fun _ => true)
  = inr (Request (RemplirExcel "soutenance" soutenance) "Dupont" "Jean").
Proof.
  assert (Hs : "soutenance" ∈ semestres).
  { unfold semestres. repeat first [by left | right]. }
  pose proof (saved_record_reaches_the_fill jury1 (Some 7) "soutenance" soutenance store 0
                dupont (fun _ => true) Hs eq_refl eq_refl) as Hw.
  cbv zeta in Hw. exact (proj1 Hw).
Defined.

(** A lock from 1000 to 2000 set on a file that cannot be read. *)
Lemma lock_set_is_in_force_between_witness :
  (set_lock (Some jury1) (Num 1000) (Num 2000) None Written).1 = 200.
Proof.
  apply (proj1 (lock_set_is_in_force_between jury1 "jury1" (Num 1000) (Num 2000) None
                  eq_refl eq_refl ltac:(discriminate) eq_refl eq_refl) 1000 2000);
    first [reflexivity | lia | discriminate].
Defined.

Lemma unlock_and_disable_end_the_lock_witness :
  (disable (Some jury1) locks Written).1 = 200.
Proof.
  apply (proj1 (proj2 (unlock_and_disable_end_the_lock jury1 locks eq_refl)) "jury1");
    [reflexivity|discriminate].
Defined.

(** The third named member of [jury1] goes to [member3]: the member without
    name and quality before it uses no cell, and the fifth member is left out. *)
Lemma jury_members_fill_the_slots_witness :
  read (write_jury durand (Some juryMapping) (Some members) ∅) ("B", 42%N)
  = Str "Enseignant".
Proof.
  apply (jury_members_fill_the_slots durand juryMapping (Some members) ∅ "jury1" 2
           {| member_nom := ""; member_prenom := ""; member_qualite := "Enseignant" |}
           "B42" ("B", 42%N)).
  - reflexivity.
  - discriminate.
  - reflexivity.
  - lia.
  - reflexivity.
  - discriminate.
  - reflexivity.
  - intros k' addr' Hlt Hne Ha.
    destruct k' as [|[|[|k']]]; try lia; vm_compute in Ha; injection Ha as <-;
      vm_compute; discriminate.
  - intros k' addr' Hlt Ha _.
    destruct k' as [|[|k']]; try lia; vm_compute in Ha; injection Ha as <-;
      vm_compute; by eexists.
Defined.

(** The final score 0 of the [stage] record leaves F28 as it was. *)
Lemma recap_leaves_out_a_zero_score_witness :
  read (fill_recap durand (Some juryMapping) (Some members) {[ ("F", 28%N) := Num 12%float ]})
       ("F", 28%N)
  = Num 12%float.
Proof.
  pose proof (recap_leaves_out_a_zero_score durand (Some juryMapping) (Some members)
                {[ ("F", 28%N) := Num 12%float ]}) as Hw.
  cbv zeta in Hw. apply Hw.
  intros jm' k a r [= <-] Hlt Ha Hr.
  destruct k as [|[|[|k]]]; try lia; vm_compute in Ha; injection Ha as <-;
    repeat (apply elem_of_cons in Hr as [->|Hr]; [vm_compute; discriminate|]);
    by apply elem_of_nil in Hr.
Defined.
End MoreExamples.
